(** * two-party-sim: the game engine and its strategies

    A shallow embedding of [core.py] (classes [Player] and [Game]) and of
    [strategies/proposers.py], [strategies/responders.py] and
    [strategies/base.py], followed by the properties of the engine and of
    the strategies.

    Modelling conventions.
    - Python numbers are exact rationals ([Q]); float rounding, infinities
      and NaN are outside the model, and the float literals [0.9], [0.1]
      and [0.5] are read as the decimals they denote.  Numeric equality is
      [==] ([Qeq]); [float("-inf")] is an absent value ([None]).  The
      properties are stated on the values the program computes, with its
      own expressions (the new utility is the old one plus the offer), and
      on their order, rather than as closed forms over several rounds.
    - The calls to the global [random] module are made explicit: every round
      receives a record [Draws] holding the variates the round would draw.
    - [math.exp] is a section variable.
    - A raised exception ends the computation: functions that can raise
      return a [result].  The exceptions [math.exp] and a division could
      raise on floats are outside the model.
    - The two [Player] objects of a game are told apart by a [PlayerRef]
      (Python compares them by identity); the object graph is a tree, no
      strategy object is shared between players.
    - [print] output (the [verbose] flag) and plotting are not modelled. *)

From Stdlib Require Import QArith Qpower Lqa Lia ZArith List String Bool.
Import ListNotations.
Open Scope Q_scope.

(** ** Numbers *)

Definition Qltb (x y : Q) : bool := negb (Qle_bool y x).

(** Python's [min(a, b)] and [max(a, b)]: the first argument is kept unless
    the second is strictly smaller (resp. larger). *)
Definition py_min (a b : Q) : Q := if Qltb b a then b else a.
Definition py_max (a b : Q) : Q := if Qltb a b then b else a.

(** [sum(xs)]: left to right from 0. *)
Definition py_sum (xs : list Q) : Q := fold_left Qplus xs 0.

Definition Q_of_nat (n : nat) : Q := inject_Z (Z.of_nat n).

(** [random.uniform(a, b)] is [a + (b - a) * random.random()];
    [random.gauss(mu, sigma)] is [mu + z * sigma] for a standard normal
    variate [z]. *)
Definition random_uniform (range : Q * Q) (u : Q) : Q :=
  fst range + (snd range - fst range) * u.
Definition random_gauss (mu sigma z : Q) : Q := mu + z * sigma.

(** The variates one round may consume, in the order of the source. *)
Record Draws := mkDraws {
  offer_draw : Q;            (* RandomProposer.propose *)
  respond_draw : Q;          (* ProbabilisticResponder.respond *)
  proposer_penalty_draw : Q; (* play_round, line 97 *)
  receiver_penalty_draw : Q; (* play_round, line 98 *)
  switch_draw : Q            (* maybe_switch_roles *)
}.

(** ** Exceptions *)

Inductive exn :=
| NotImplementedError
| AssertionError (msg : string)
| ValueError (msg : string)
| KeyError
| TypeError.

Inductive result (A : Type) :=
| Ok (a : A)
| Raise (e : exn).
Arguments Ok {A} a.
Arguments Raise {A} e.

Definition bind {A B} (m : result A) (k : A -> result B) : result B :=
  match m with
  | Ok a => k a
  | Raise e => Raise e
  end.

Notation "x <- m ;; k" := (bind m (fun x => k))
  (at level 61, m at next level, right associativity).
Notation "' pat <- m ;; k" := (bind m (fun x => match x with pat => k end))
  (at level 61, pat pattern, m at next level, right associativity).

(** ** Data model *)

(** The inner dictionaries [{"trials": .., "accepts": ..}]. *)
Record Stat := mkStat { trials : nat; accepts : nat }.

(** A Python dict keyed by numbers, in insertion order. *)
Definition dict := list (Q * Stat).

Fixpoint dict_get (k : Q) (d : dict) : option Stat :=
  match d with
  | [] => None
  | (k', v) :: d' => if Qeq_bool k' k then Some v else dict_get k d'
  end.

Fixpoint dict_set (k : Q) (v : Stat) (d : dict) : dict :=
  match d with
  | [] => [(k, v)]
  | (k', v') :: d' =>
      if Qeq_bool k' k then (k', v) :: d' else (k', v') :: dict_set k v d'
  end.

(** [{x: {"trials": 0, "accepts": 0} for x in levels}] *)
Definition dict_init (levels : list Q) : dict :=
  fold_left (fun d x => dict_set x (mkStat 0 0) d) levels [].

(** Instances of the proposer classes, with their attributes. *)
Inductive ProposerStrategy :=
| ProposerStrategyBase
| ConcedingProposer (current_offer decrement : Q)
| RandomProposer (distribution : string) (mean stddev : option Q)
| TitForTatProposer (last_opponent_offer : option Q)
| LearningProposer (current_offer step_size : Q)
| BinarySearchProposer (low high last_offer : Q)
| RiskAwareProposer (offer_levels : list Q) (stats : dict)
    (rejection_penalties : list Q)
| ForwardLookingProposer (offer_levels : list Q) (horizon : nat)
    (prior_accept_prob responder_utility_estimate : Q) (accept_stats : dict).

(** Instances of the responder classes, with their attributes. *)
Inductive ResponderStrategy :=
| ResponderStrategyBase
| UtilitarianResponder
| TitForTatResponder (last_offer : option Q)
| ProbabilisticResponder (alpha : Q)
| StrategicRejectorResponder (stagnation_tolerance : Z) (epsilon : Q)
    (prev_offer : option Q) (streak : Z) (min_offer : Q).

Record Player := mkPlayer {
  name : string;
  proposer_strategy : ProposerStrategy;
  responder_strategy : ResponderStrategy;
  utility : Q
}.

Inductive PlayerRef := Player1 | Player2.

Definition PlayerRef_eqb (a b : PlayerRef) : bool :=
  match a, b with
  | Player1, Player1 | Player2, Player2 => true
  | _, _ => false
  end.

(** One entry of [Game.history]. *)
Record RoundRecord := mkRoundRecord {
  rec_round : nat;
  rec_proposer : string;
  rec_offer : Q;
  rec_accepted : bool;
  rec_player1_utility : Q;
  rec_player2_utility : Q;
  rec_next_round_switching_prob : Q
}.

Record Game := mkGame {
  player1 : Player;
  player2 : Player;
  p : Q;
  p_base : Q;
  p_current : Q;
  p_reject_bump : Q;
  p_reset_on_accept : bool;
  player_1_bad : Q;
  player_2_bad : Q;
  proposer_bad : Q;
  receiver_bad : Q;
  proposer : PlayerRef;
  receiver : PlayerRef;
  history : list RoundRecord;
  verbose : bool;
  min_offer : Q;
  max_offer : Q;
  plot : bool;
  proposer_random_penalty_range : Q * Q;
  receiver_random_penalty_range : Q * Q
}.

(** *** Constructors ([__init__]) *)

Definition range_0_101_10 : list Q :=
  map (fun k => inject_Z (Z.of_nat (10 * k))) (seq 0 11).

Definition ConcedingProposer_init (start_offer decrement : Q) :=
  ConcedingProposer start_offer decrement.

Definition RandomProposer_init (distribution : string) (mean stddev : option Q) :=
  RandomProposer distribution mean stddev.

Definition TitForTatProposer_init := TitForTatProposer None.

Definition LearningProposer_init (start_offer step_size : Q) :=
  LearningProposer start_offer step_size.

Definition BinarySearchProposer_init (min_offer max_offer : Q) :=
  BinarySearchProposer min_offer max_offer ((min_offer + max_offer) / 2).

(** [offer_levels or list(range(0, 101, 10))]: [None] and the empty list
    both select the default grid. *)
Definition levels_or_default (offer_levels : option (list Q)) : list Q :=
  match offer_levels with
  | None | Some [] => range_0_101_10
  | Some l => l
  end.

Definition RiskAwareProposer_init (offer_levels : option (list Q)) :=
  let l := levels_or_default offer_levels in
  RiskAwareProposer l (dict_init l) [].

Definition ForwardLookingProposer_init (offer_levels : option (list Q))
    (horizon : nat) (prior_accept_prob responder_utility_estimate : Q) :=
  let l := levels_or_default offer_levels in
  ForwardLookingProposer l horizon prior_accept_prob
    responder_utility_estimate (dict_init l).

Definition TitForTatResponder_init := TitForTatResponder None.

Definition StrategicRejectorResponder_init (stagnation_tolerance : Z)
    (epsilon min_offer : Q) :=
  StrategicRejectorResponder stagnation_tolerance epsilon None 0%Z min_offer.

Definition Player_init (name : string) (proposer_strategy : ProposerStrategy)
    (responder_strategy : ResponderStrategy) : Player :=
  mkPlayer name proposer_strategy responder_strategy 0.

Definition Game_init (player1 player2 : Player)
    (p player_1_bad player_2_bad proposer_bad receiver_bad : Q)
    (verbose : bool) (min_offer max_offer : Q) (plot : bool)
    (proposer_random_penalty_range receiver_random_penalty_range : Q * Q)
    (p_reject_bump : Q) : Game :=
  {| player1 := player1; player2 := player2;
     p := p; p_base := p; p_current := p;
     p_reject_bump := p_reject_bump; p_reset_on_accept := true;
     player_1_bad := player_1_bad; player_2_bad := player_2_bad;
     proposer_bad := proposer_bad; receiver_bad := receiver_bad;
     proposer := Player1; receiver := Player2;
     history := [];
     verbose := verbose;
     min_offer := min_offer; max_offer := max_offer;
     plot := plot;
     proposer_random_penalty_range := proposer_random_penalty_range;
     receiver_random_penalty_range := receiver_random_penalty_range |}.

(** *** Attribute access and assignment *)

Definition get_player (g : Game) (r : PlayerRef) : Player :=
  match r with
  | Player1 => player1 g
  | Player2 => player2 g
  end.

Definition with_players (g : Game) (q1 q2 : Player) : Game :=
  mkGame q1 q2 (p g) (p_base g) (p_current g) (p_reject_bump g)
    (p_reset_on_accept g) (player_1_bad g) (player_2_bad g) (proposer_bad g)
    (receiver_bad g) (proposer g) (receiver g) (history g) (verbose g)
    (min_offer g) (max_offer g) (plot g) (proposer_random_penalty_range g)
    (receiver_random_penalty_range g).

Definition set_player (g : Game) (r : PlayerRef) (q : Player) : Game :=
  match r with
  | Player1 => with_players g q (player2 g)
  | Player2 => with_players g (player1 g) q
  end.

Definition set_p_current (g : Game) (x : Q) : Game :=
  mkGame (player1 g) (player2 g) (p g) (p_base g) x (p_reject_bump g)
    (p_reset_on_accept g) (player_1_bad g) (player_2_bad g) (proposer_bad g)
    (receiver_bad g) (proposer g) (receiver g) (history g) (verbose g)
    (min_offer g) (max_offer g) (plot g) (proposer_random_penalty_range g)
    (receiver_random_penalty_range g).

Definition set_history (g : Game) (h : list RoundRecord) : Game :=
  mkGame (player1 g) (player2 g) (p g) (p_base g) (p_current g)
    (p_reject_bump g) (p_reset_on_accept g) (player_1_bad g) (player_2_bad g)
    (proposer_bad g) (receiver_bad g) (proposer g) (receiver g) h (verbose g)
    (min_offer g) (max_offer g) (plot g) (proposer_random_penalty_range g)
    (receiver_random_penalty_range g).

Definition set_roles (g : Game) (pr rc : PlayerRef) : Game :=
  mkGame (player1 g) (player2 g) (p g) (p_base g) (p_current g)
    (p_reject_bump g) (p_reset_on_accept g) (player_1_bad g) (player_2_bad g)
    (proposer_bad g) (receiver_bad g) pr rc (history g) (verbose g)
    (min_offer g) (max_offer g) (plot g) (proposer_random_penalty_range g)
    (receiver_random_penalty_range g).

Definition set_proposer_strategy (q : Player) (s : ProposerStrategy) : Player :=
  mkPlayer (name q) s (responder_strategy q) (utility q).

Definition set_responder_strategy (q : Player) (s : ResponderStrategy) : Player :=
  mkPlayer (name q) (proposer_strategy q) s (utility q).

(** [player.utility += x] *)
Definition add_utility (q : Player) (x : Q) : Player :=
  mkPlayer (name q) (proposer_strategy q) (responder_strategy q) (utility q + x).

(** [Game.get_bad_utility] *)
Definition get_bad_utility (g : Game) (player : PlayerRef) (is_proposer : bool) : Q :=
  if PlayerRef_eqb player Player1
  then player_1_bad g + (if is_proposer then proposer_bad g else receiver_bad g)
  else player_2_bad g + (if is_proposer then proposer_bad g else receiver_bad g).

(** Monadic left fold: a [for] loop whose body may raise. *)
Fixpoint foldM {A B : Type} (f : A -> B -> result A) (l : list B) (a : A)
  : result A :=
  match l with
  | [] => Ok a
  | x :: l' => a' <- f a x ;; foldM f l' a'
  end.

(** [x > best] where [best] starts as [float("-inf")] ([None]). *)
Definition above (x : Q) (best : option Q) : bool :=
  match best with
  | None => true
  | Some b => Qltb b x
  end.

Section Strategies.

(** [math.exp] *)
Variable math_exp : Q -> Q.

(** ** strategies/proposers.py *)

(** [TitForTatProposer.observe_offer_from_opponent]; the result is the new
    value of [last_opponent_offer]. *)
Definition observe_offer_from_opponent (last_opponent_offer : option Q)
    (offer : Q) : option Q :=
  if negb (Qeq_bool offer 0) then Some offer else last_opponent_offer.

(** The body of the loop of [RiskAwareProposer.propose]; the accumulator is
    [(best_offer, best_expected_utility)]. *)
Definition RiskAware_body (stats : dict) (rejection_penalties : list Q)
    (default_reject_utility : Q) (acc : option Q * option Q) (offer : Q)
  : result (option Q * option Q) :=
  match dict_get offer stats with
  | None => Raise KeyError
  | Some st =>
      let p_accept :=
        if Nat.eqb (trials st) 0 then 1 # 2
        else Q_of_nat (accepts st) / Q_of_nat (trials st) in
      let avg_reject_utility :=
        match rejection_penalties with
        | [] => default_reject_utility
        | _ => py_sum rejection_penalties / Q_of_nat (List.length rejection_penalties)
        end in
      let expected_utility :=
        p_accept * offer + (1 - p_accept) * avg_reject_utility in
      if above expected_utility (snd acc)
      then Ok (Some offer, Some expected_utility)
      else Ok acc
  end.

(** [ForwardLookingProposer.estimate_accept_prob] *)
Definition estimate_accept_prob (accept_stats : dict) (prior_accept_prob : Q)
    (offer : Q) : result Q :=
  match dict_get offer accept_stats with
  | None => Raise KeyError
  | Some st =>
      if Nat.eqb (trials st) 0 then Ok prior_accept_prob
      else Ok (Q_of_nat (accepts st) / Q_of_nat (trials st))
  end.

(** [ForwardLookingProposer.simulate_expected_utility] *)
Definition simulate_expected_utility (horizon : nat)
    (responder_utility_estimate : Q) (offer P_accept : Q) (g : Game)
    (self_player : PlayerRef) : Q :=
  let proposer_util := offer in
  let reject_penalty := get_bad_utility g self_player true in
  let base_p := p_base g in
  let bump := p_reject_bump g in
  let bumped_p := py_min 1 (base_p + bump) in
  let EU_accept :=
    py_sum (map (fun t => (1 - base_p) ^ Z.of_nat t * proposer_util)
                (seq 0 horizon)) in
  let '(EU_reject, _) :=
    fold_left
      (fun (st : Q * Q) (_ : nat) =>
         let '(EU_reject, role_prob) := st in
         let role_prob := role_prob * (1 - bumped_p) in
         (EU_reject + (role_prob * proposer_util
                       + (1 - role_prob) * responder_utility_estimate),
          role_prob))
      (seq 1 (horizon - 1)) (reject_penalty, 1) in
  P_accept * EU_accept + (1 - P_accept) * EU_reject.

(** The body of the loop of [ForwardLookingProposer.propose]. *)
Definition ForwardLooking_body (horizon : nat)
    (prior_accept_prob responder_utility_estimate : Q) (accept_stats : dict)
    (g : Game) (self_player : PlayerRef) (acc : option Q * option Q)
    (offer : Q) : result (option Q * option Q) :=
  P_accept <- estimate_accept_prob accept_stats prior_accept_prob offer ;;
  let EU := simulate_expected_utility horizon responder_utility_estimate
              offer P_accept g self_player in
  if above EU (snd acc) then Ok (Some offer, Some EU) else Ok acc.

(** A grid search that found no level returns [None] to the engine, whose
    round then fails at the first arithmetic on the offer; the model raises
    at once. *)
Definition best_or_raise (acc : option Q * option Q) : result Q :=
  match fst acc with
  | Some offer => Ok offer
  | None => Raise TypeError
  end.

(** [propose(self, game, self_player)]: the offer and the strategy object
    after the call. *)
Definition propose (s : ProposerStrategy) (g : Game) (self_player : PlayerRef)
    (d : Draws) : result (Q * ProposerStrategy) :=
  match s with
  | ProposerStrategyBase => Raise NotImplementedError
  | ConcedingProposer current_offer _ =>
      Ok (py_max (min_offer g) (py_min current_offer (max_offer g)), s)
  | RandomProposer distribution mean stddev =>
      offer <-
        (if String.eqb distribution "uniform" then
           Ok (random_uniform (min_offer g, max_offer g) (offer_draw d))
         else if String.eqb distribution "normal" then
           match mean, stddev with
           | Some m, Some sd => Ok (random_gauss m sd (offer_draw d))
           | _, _ =>
               Raise (AssertionError "Normal distribution requires mean and stddev")
           end
         else Raise (ValueError (String.append "Unknown distribution: " distribution))) ;;
      Ok (py_max (min_offer g) (py_min offer (max_offer g)), s)
  | TitForTatProposer last_opponent_offer =>
      match last_opponent_offer with
      | None => Ok (0, s)
      | Some o => Ok (o, s)
      end
  | LearningProposer current_offer _ =>
      Ok (py_max (min_offer g) (py_min current_offer (max_offer g)), s)
  | BinarySearchProposer low high _ =>
      let last_offer := (low + high) / 2 in
      Ok (last_offer, BinarySearchProposer low high last_offer)
  | RiskAwareProposer offer_levels stats rejection_penalties =>
      let default_reject_utility :=
        if PlayerRef_eqb self_player Player1
        then player_1_bad g + proposer_bad g
        else player_2_bad g + proposer_bad g in
      acc <- foldM (RiskAware_body stats rejection_penalties
                      default_reject_utility) offer_levels (None, None) ;;
      offer <- best_or_raise acc ;;
      Ok (offer, s)
  | ForwardLookingProposer offer_levels horizon prior_accept_prob
      responder_utility_estimate accept_stats =>
      acc <- foldM (ForwardLooking_body horizon prior_accept_prob
                      responder_utility_estimate accept_stats g self_player)
               offer_levels (None, None) ;;
      offer <- best_or_raise acc ;;
      Ok (offer, s)
  end.

(** [stats["trials"] += 1] and, when accepted, [stats["accepts"] += 1]. *)
Definition count_outcome (accepted : bool) (offer : Q) (d : dict)
  : result dict :=
  match dict_get offer d with
  | None => Raise KeyError
  | Some st =>
      Ok (dict_set offer
            (mkStat (S (trials st))
                    (if accepted then S (accepts st) else accepts st)) d)
  end.

(** [receive_feedback(self, accepted, offer, game)] of the proposers: the
    strategy object after the call. *)
Definition receive_feedback (s : ProposerStrategy) (accepted : bool)
    (offer : Q) (g : Game) : result ProposerStrategy :=
  match s with
  | ProposerStrategyBase => Ok s
  | ConcedingProposer current_offer decrement =>
      if negb accepted
      then Ok (ConcedingProposer (current_offer - decrement) decrement)
      else Ok s
  | RandomProposer _ _ _ => Ok s
  | TitForTatProposer _ => Ok s
  | LearningProposer current_offer step_size =>
      if accepted
      then Ok (LearningProposer (current_offer + step_size) step_size)
      else Ok (LearningProposer (current_offer - step_size) step_size)
  | BinarySearchProposer low high last_offer =>
      if accepted
      then Ok (BinarySearchProposer (py_max low offer) high last_offer)
      else Ok (BinarySearchProposer low (py_min high offer) last_offer)
  | RiskAwareProposer offer_levels stats rejection_penalties =>
      stats' <- count_outcome accepted offer stats ;;
      if accepted
      then Ok (RiskAwareProposer offer_levels stats' rejection_penalties)
      else
        let penalty := get_bad_utility g (proposer g) true in
        Ok (RiskAwareProposer offer_levels stats'
              (rejection_penalties ++ [penalty]))
  | ForwardLookingProposer offer_levels horizon prior_accept_prob
      responder_utility_estimate accept_stats =>
      stats' <- count_outcome accepted offer accept_stats ;;
      if accepted
      then Ok (ForwardLookingProposer offer_levels horizon prior_accept_prob
                 responder_utility_estimate stats')
      else
        let penalty := get_bad_utility g (proposer g) true in
        Ok (ForwardLookingProposer offer_levels horizon prior_accept_prob
              ((9 # 10) * responder_utility_estimate + (1 # 10) * penalty)
              stats')
  end.

(** ** strategies/responders.py *)

(** The rejection utility computed at the head of the [respond] methods. *)
Definition respond_bad_utility (g : Game) (self_player : PlayerRef) : Q :=
  if PlayerRef_eqb self_player Player1
  then player_1_bad g + receiver_bad g
  else player_2_bad g + receiver_bad g.

(** [respond(self, offer, game, self_player)]: the answer and the strategy
    object after the call. *)
Definition respond (s : ResponderStrategy) (offer : Q) (g : Game)
    (self_player : PlayerRef) (d : Draws) : result (bool * ResponderStrategy) :=
  match s with
  | ResponderStrategyBase => Raise NotImplementedError
  | UtilitarianResponder =>
      let bad_utility := respond_bad_utility g self_player in
      Ok (Qltb bad_utility (- offer), s)
  | TitForTatResponder last_offer =>
      let current_utility := - offer in
      let bad_utility := respond_bad_utility g self_player in
      match last_offer with
      | None => Ok (Qltb bad_utility current_utility, s)
      | Some lo =>
          Ok (Qle_bool lo current_utility && Qltb bad_utility current_utility, s)
      end
  | ProbabilisticResponder alpha =>
      let utility_accept := - offer in
      let utility_reject := respond_bad_utility g self_player in
      let utility_diff := utility_accept - utility_reject in
      let prob_accept := 1 / (1 + math_exp (- alpha * utility_diff)) in
      Ok (Qltb (respond_draw d) prob_accept, s)
  | StrategicRejectorResponder stagnation_tolerance epsilon prev_offer streak
      min_offer =>
      let responder_utility := - offer in
      let reject_utility := get_bad_utility g self_player false in
      if Qltb responder_utility reject_utility then Ok (false, s)
      else if Qle_bool offer (min_offer + epsilon) then Ok (true, s)
      else
        match prev_offer with
        | None =>
            Ok (true, StrategicRejectorResponder stagnation_tolerance epsilon
                        (Some offer) streak min_offer)
        | Some prev =>
            let streak' :=
              if Qle_bool (prev - epsilon) offer then (streak + 1)%Z else 0%Z in
            Ok (Z.ltb streak' stagnation_tolerance,
                StrategicRejectorResponder stagnation_tolerance epsilon
                  (Some offer) streak' min_offer)
        end
  end.

(** [TitForTatResponder.receive_feedback(self, offer, accepted)] *)
Definition TitForTatResponder_receive_feedback (s : ResponderStrategy)
    (offer : Q) (accepted : bool) : ResponderStrategy :=
  match s with
  | TitForTatResponder _ => TitForTatResponder (Some (- offer))
  | _ => s
  end.

(** ** core.py *)

Definition update_player (g : Game) (r : PlayerRef) (f : Player -> Player)
  : Game :=
  set_player g r (f (get_player g r)).

(** [Player.make_offer] *)
Definition make_offer (g : Game) (r : PlayerRef) (d : Draws)
  : result (Q * Game) :=
  '(offer, s) <- propose (proposer_strategy (get_player g r)) g r d ;;
  Ok (offer, update_player g r (fun q => set_proposer_strategy q s)).

(** [Player.respond_to_offer] *)
Definition respond_to_offer (g : Game) (r : PlayerRef) (offer : Q) (d : Draws)
  : result (bool * Game) :=
  '(accepted, s) <- respond (responder_strategy (get_player g r)) offer g r d ;;
  Ok (accepted, update_player g r (fun q => set_responder_strategy q s)).

(** Lines 73-74: only [TitForTatProposer] has the attribute
    [observe_offer_from_opponent]. *)
Definition notify_receiver (g : Game) (offer : Q) : Game :=
  match proposer_strategy (get_player g (receiver g)) with
  | TitForTatProposer last =>
      update_player g (receiver g)
        (fun q => set_proposer_strategy q
                    (TitForTatProposer (observe_offer_from_opponent last offer)))
  | _ => g
  end.

(** Lines 79-101: the effect of the answer on [p_current] and on the
    utilities. *)
Definition settle (g : Game) (offer : Q) (accepted : bool) (d : Draws) : Game :=
  if accepted then
    let g := if p_reset_on_accept g then set_p_current g (p_base g) else g in
    let g := update_player g (proposer g) (fun q => add_utility q offer) in
    update_player g (receiver g) (fun q => add_utility q (- offer))
  else
    let g := set_p_current g (py_min 1 (p_current g + p_reject_bump g)) in
    let proposer_penalty := get_bad_utility g (proposer g) true in
    let receiver_penalty := get_bad_utility g (receiver g) false in
    let proposer_penalty :=
      proposer_penalty
      + random_uniform (proposer_random_penalty_range g)
          (proposer_penalty_draw d) in
    let receiver_penalty :=
      receiver_penalty
      + random_uniform (receiver_random_penalty_range g)
          (receiver_penalty_draw d) in
    let g := update_player g (proposer g)
               (fun q => add_utility q proposer_penalty) in
    update_player g (receiver g) (fun q => add_utility q receiver_penalty).

(** Lines 107-115 *)
Definition append_record (g : Game) (offer : Q) (accepted : bool) : Game :=
  set_history g
    (history g ++
     [ {| rec_round := List.length (history g) + 1;
          rec_proposer := name (get_player g (proposer g));
          rec_offer := offer;
          rec_accepted := accepted;
          rec_player1_utility := utility (player1 g);
          rec_player2_utility := utility (player2 g);
          rec_next_round_switching_prob := p_current g |} ]).

(** [Game.maybe_switch_roles] *)
Definition maybe_switch_roles (g : Game) (d : Draws) : Game :=
  if Qltb (switch_draw d) (p_current g)
  then set_roles g (receiver g) (proposer g)
  else g.

(** [Game.play_round] *)
Definition play_round (g : Game) (d : Draws) : result Game :=
  '(offer, g) <- make_offer g (proposer g) d ;;
  let g := notify_receiver g offer in
  '(accepted, g) <- respond_to_offer g (receiver g) offer d ;;
  let g := settle g offer accepted d in
  let g := append_record g offer accepted in
  s <- receive_feedback (proposer_strategy (get_player g (proposer g)))
         accepted offer g ;;
  let g := update_player g (proposer g) (fun q => set_proposer_strategy q s) in
  Ok (maybe_switch_roles g d).

(** [Game.run]: [rng k] holds the variates of the [k]-th round to come. *)
Fixpoint run (n_rounds : nat) (rng : nat -> Draws) (g : Game) : result Game :=
  match n_rounds with
  | O => Ok g
  | S n =>
      g' <- play_round g (rng O) ;;
      run n (fun k => rng (S k)) g'
  end.

End Strategies.

(** ** Derived notions used by the statements *)

(** ** The immutable configuration of a game *)

Definition config (g : Game) :=
  (p g, p_base g, p_reject_bump g, p_reset_on_accept g,
   (player_1_bad g, player_2_bad g, proposer_bad g, receiver_bad g),
   (verbose g, min_offer g, max_offer g, plot g),
   (proposer_random_penalty_range g, receiver_random_penalty_range g)).

(** The part of the state the strategies never touch: configuration, roles,
    switching probability and history. *)
Definition engine_state (g : Game) :=
  (config g, proposer g, receiver g, p_current g, history g).

(** The stages of a round of game [g] whose strategy calls returned [offer],
    [ps], [accepted] and [rs]. *)
Definition after_offer (g : Game) (offer : Q) (ps : ProposerStrategy) : Game :=
  notify_receiver
    (update_player g (proposer g) (fun q => set_proposer_strategy q ps)) offer.

Definition after_answer (g : Game) (d : Draws) (offer : Q)
    (ps : ProposerStrategy) (accepted : bool) (rs : ResponderStrategy) : Game :=
  append_record
    (settle
       (update_player (after_offer g offer ps) (receiver g)
          (fun q => set_responder_strategy q rs))
       offer accepted d)
    offer accepted.

(** The game of the scenarios of the specification: default bounds, no
    random penalty, no bump. *)
Definition scenario_game (q1 q2 : Player) (verbose plot : bool) : Game :=
  Game_init q1 q2 0 (-10) (-10) (-5) 5 verbose 0 100 plot (0, 0) (0, 0) 0.

(** Concrete inputs for the examples: a stand-in for [math.exp] (no example
    uses the probabilistic responder), a source of zero variates, and the
    game of the scenarios with a conceding proposer and a utilitarian
    responder on both sides. *)
Definition sample_exp : Q -> Q := fun _ => 1.

Definition zero_draws : Draws := mkDraws 0 0 0 0 0.

Definition zero_rng : nat -> Draws := fun _ => zero_draws.

Definition conceding_player (name : string) (start_offer : Q) : Player :=
  Player_init name (ConcedingProposer_init start_offer 10) UtilitarianResponder.

Definition conceding_game (start_offer : Q) : Game :=
  scenario_game (conceding_player "Player 1" start_offer)
    (conceding_player "Player 2" start_offer) false false.

(** The same two players under a chosen switching probability and bump. *)
Definition drifting_game (p p_reject_bump start_offer : Q) : Game :=
  Game_init (conceding_player "Player 1" start_offer)
    (conceding_player "Player 2" start_offer)
    p (-10) (-10) (-5) 5 false 0 100 false (0, 0) (0, 0) p_reject_bump.

(** What keeps [p_current] a probability. *)
Definition p_invariant (g : Game) : Prop :=
  0 <= p_base g /\ p_base g <= 1 /\ 0 <= p_reject_bump g
  /\ 0 <= p_current g /\ p_current g <= 1.

(** The proposers whose [propose] ends in
    [max(game.min_offer, min(.., game.max_offer))]. *)
Definition clamps_to_bounds (s : ProposerStrategy) : bool :=
  match s with
  | ConcedingProposer _ _ | RandomProposer _ _ _ | LearningProposer _ _ => true
  | _ => false
  end.

(** Games whose proposers do not clamp: two tit-for-tat proposers under a
    positive [min_offer], and two risk-aware proposers on the default grid
    under [max_offer = 50]. *)
Definition tit_for_tat_game : Game :=
  Game_init
    (Player_init "Player 1" TitForTatProposer_init UtilitarianResponder)
    (Player_init "Player 2" TitForTatProposer_init UtilitarianResponder)
    0 (-10) (-10) (-5) 5 false 10 100 false (0, 0) (0, 0) 0.

Definition risk_aware_game : Game :=
  Game_init
    (Player_init "Player 1" (RiskAwareProposer_init None) UtilitarianResponder)
    (Player_init "Player 2" (RiskAwareProposer_init None) UtilitarianResponder)
    0 (-10) (-10) (-5) 5 false 0 50 false (0, 0) (0, 0) 0.

(** A game whose first proposer is a [RandomProposer]. *)
Definition random_game (distribution : string) (mean stddev : option Q)
  : Game :=
  scenario_game
    (Player_init "Player 1" (RandomProposer_init distribution mean stddev)
       UtilitarianResponder)
    (conceding_player "Player 2" 100) false false.

(** A game whose first proposer bisects [[0, 100]]. *)
Definition binary_search_game : Game :=
  scenario_game
    (Player_init "Player 1" (BinarySearchProposer_init 0 100)
       UtilitarianResponder)
    (conceding_player "Player 2" 100) false false.

(** Consecutive [respond] calls on one responder object, with their
    answers in order. *)
Fixpoint respond_all (math_exp : Q -> Q) (s : ResponderStrategy)
    (offers : list Q) (g : Game) (self_player : PlayerRef) (d : Draws)
  : result (list bool * ResponderStrategy) :=
  match offers with
  | [] => Ok ([], s)
  | offer :: rest =>
      '(a, s1) <- respond math_exp s offer g self_player d ;;
      '(answers, s2) <- respond_all math_exp s1 rest g self_player d ;;
      Ok (a :: answers, s2)
  end.

(** A strategic rejector of tolerance 4 that has answered [n] times the
    same [offer] (above its floor). *)
Definition stagnating (epsilon floor offer : Q) (n : nat)
  : ResponderStrategy :=
  match n with
  | O => StrategicRejectorResponder_init 4 epsilon floor
  | S m => StrategicRejectorResponder 4 epsilon (Some offer) (Z.of_nat m) floor
  end.

(** An offer that a strategic rejector of player [k] finds worth taking
    (step 1 of its [respond]) and above its floor (step 2). *)
Definition punishable (g : Game) (k : PlayerRef) (epsilon floor offer : Q)
  : Prop :=
  floor + epsilon < offer /\ get_bad_utility g k false <= - offer.

(** The same game with every [TitForTatResponder] that has recorded
    nothing replaced by a [UtilitarianResponder]. *)
Definition as_utilitarian_strategy (s : ResponderStrategy)
  : ResponderStrategy :=
  match s with
  | TitForTatResponder None => UtilitarianResponder
  | _ => s
  end.

Definition as_utilitarian_player (q : Player) : Player :=
  set_responder_strategy q (as_utilitarian_strategy (responder_strategy q)).

Definition as_utilitarian (g : Game) : Game :=
  with_players g (as_utilitarian_player (player1 g))
    (as_utilitarian_player (player2 g)).

Definition map_result {A B : Type} (f : A -> B) (m : result A) : result B :=
  match m with
  | Ok a => Ok (f a)
  | Raise e => Raise e
  end.

(** Two learning proposers facing fresh tit-for-tat responders. *)
Definition tit_for_tat_responder_game : Game :=
  scenario_game
    (Player_init "Player 1" (LearningProposer_init 0 3) TitForTatResponder_init)
    (Player_init "Player 2" (LearningProposer_init 0 3) TitForTatResponder_init)
    false false.

(** ** Further notions: tallies and drivers *)

(** [sum(not r["accepted"] for r in game.history)], the tally taken by
    [run_tournament] (line 203). *)
Definition rejections (h : list RoundRecord) : nat :=
  List.length (filter (fun r => negb (rec_accepted r)) h).

(** The names of the two players. *)
Definition names (g : Game) : string * string :=
  (name (player1 g), name (player2 g)).

(** Every role-switch variate of the source lies in [[0, 1)]. *)
Definition switch_draws_in_range (rng : nat -> Draws) : Prop :=
  forall k, 0 <= switch_draw (rng k) /\ switch_draw (rng k) < 1.

(** The proposer after [n] switches. *)
Definition alternate (n : nat) (first second : PlayerRef) : PlayerRef :=
  if Nat.even n then first else second.

(** A proposer object driven as the engine drives it while its player keeps
    the proposer role: [propose], then [receive_feedback] with the answer
    to that very offer.  The result holds the offers made, in order. *)
Fixpoint negotiate (s : ProposerStrategy) (answers : list bool) (g : Game)
    (self_player : PlayerRef) (rng : nat -> Draws)
  : result (list Q * ProposerStrategy) :=
  match answers with
  | [] => Ok ([], s)
  | a :: rest =>
      '(offer, s1) <- propose s g self_player (rng O) ;;
      s2 <- receive_feedback s1 a offer g ;;
      '(offers, s3) <- negotiate s2 rest g self_player (fun k => rng (S k)) ;;
      Ok (offer :: offers, s3)
  end.

(** The number of answers equal to [b]. *)
Definition tally (b : bool) (answers : list bool) : nat :=
  List.length (filter (Bool.eqb b) answers).

(** Both players mirror each other's offers. *)
Definition mirror_game : Game :=
  scenario_game
    (Player_init "Player 1" TitForTatProposer_init UtilitarianResponder)
    (Player_init "Player 2" TitForTatProposer_init UtilitarianResponder)
    false false.

(** A conceding proposer facing a player who mirrors offers. *)
Definition mirrored_game : Game :=
  scenario_game
    (conceding_player "Player 1" 4)
    (Player_init "Player 2" TitForTatProposer_init UtilitarianResponder)
    false false.

(** The highest offer a utilitarian responder of player [k] turns down:
    it accepts exactly the offers below it. *)
Definition threshold (g : Game) (k : PlayerRef) : Q :=
  - respond_bad_utility g k.

(** The score a [RiskAwareProposer] gives to a level (the loop body of its
    [propose] without the comparison). *)
Definition risk_aware_score (stats : dict) (rejection_penalties : list Q)
    (default_reject_utility : Q) (offer : Q) : result Q :=
  match dict_get offer stats with
  | None => Raise KeyError
  | Some st =>
      let p_accept :=
        if Nat.eqb (trials st) 0 then 1 # 2
        else Q_of_nat (accepts st) / Q_of_nat (trials st) in
      let avg_reject_utility :=
        match rejection_penalties with
        | [] => default_reject_utility
        | _ => py_sum rejection_penalties / Q_of_nat (List.length rejection_penalties)
        end in
      Ok (p_accept * offer + (1 - p_accept) * avg_reject_utility)
  end.

(** The score a [ForwardLookingProposer] gives to a level. *)
Definition forward_looking_score (horizon : nat)
    (prior_accept_prob responder_utility_estimate : Q) (accept_stats : dict)
    (g : Game) (self_player : PlayerRef) (offer : Q) : result Q :=
  P_accept <- estimate_accept_prob accept_stats prior_accept_prob offer ;;
  Ok (simulate_expected_utility horizon responder_utility_estimate offer
        P_accept g self_player).

(** Every level of the grid has its counters. *)
Definition keyed (levels : list Q) (stats : dict) : Prop :=
  forall x, In x levels -> exists st, dict_get x stats = Some st.

(** The default rejection utility of [RiskAwareProposer.propose]. *)
Definition default_reject_utility (g : Game) (self_player : PlayerRef) : Q :=
  if PlayerRef_eqb self_player Player1
  then player_1_bad g + proposer_bad g
  else player_2_bad g + proposer_bad g.

(** A game between two risk-aware proposers on a small grid. *)
Definition small_grid_game : Game :=
  scenario_game
    (Player_init "Player 1" (RiskAwareProposer_init (Some [2; 8; 4]))
       UtilitarianResponder)
    (Player_init "Player 2" (RiskAwareProposer_init (Some [2; 8; 4]))
       UtilitarianResponder)
    false false.

(** Offers each lower than the one before by more than [epsilon]. *)
Fixpoint falls_from (epsilon prev : Q) (offers : list Q) : Prop :=
  match offers with
  | [] => True
  | o :: rest => o < prev - epsilon /\ falls_from epsilon o rest
  end.

(** An offer that skips the stagnation logic of a strategic rejector:
    worse than rejecting (step 1) or already at the floor (step 2). *)
Definition skips_stagnation (g : Game) (k : PlayerRef) (epsilon floor : Q)
    (offer : Q) : Prop :=
  - offer < get_bad_utility g k false \/ offer <= floor + epsilon.

(** A game whose second player holds no responder implementation. *)
Definition unanswered_game : Game :=
  scenario_game (conceding_player "Player 1" 100)
    (Player_init "Player 2" (ConcedingProposer_init 100 10)
       ResponderStrategyBase)
    false false.

(** ** [run_tournament] (core.py, lines 158-206)

    The keyword arguments passed on to [Game] are a record of optional
    values; the keys [player1], [player2], [p] and [verbose], which
    [run_tournament] passes itself, and unknown keys are not represented.
    A strategy factory is the instance it returns.  Every game draws from
    its own stream of variates, [rng i] for the [i]-th game played.  The
    data frame is the list of its rows; plotting is not modelled. *)

Record GameKwargs := mkGameKwargs {
  kw_player_1_bad : option Q;
  kw_player_2_bad : option Q;
  kw_proposer_bad : option Q;
  kw_receiver_bad : option Q;
  kw_min_offer : option Q;
  kw_max_offer : option Q;
  kw_plot : option bool;
  kw_proposer_random_penalty_range : option (Q * Q);
  kw_receiver_random_penalty_range : option (Q * Q);
  kw_p_reject_bump : option Q
}.

(** [{}] *)
Definition no_kwargs : GameKwargs :=
  mkGameKwargs None None None None None None None None None None.

Definition or_default {A : Type} (x : option A) (default : A) : A :=
  match x with
  | Some a => a
  | None => default
  end.

(** [Game(player1=.., player2=.., p=p, verbose=False, **game_kwargs)]: the
    four costs are keyword arguments without a default. *)
Definition Game_of_kwargs (player1 player2 : Player) (p : Q) (kw : GameKwargs)
  : result Game :=
  match kw_player_1_bad kw, kw_player_2_bad kw,
        kw_proposer_bad kw, kw_receiver_bad kw with
  | Some b1, Some b2, Some pb, Some rb =>
      Ok (Game_init player1 player2 p b1 b2 pb rb false
            (or_default (kw_min_offer kw) 0)
            (or_default (kw_max_offer kw) 100)
            (or_default (kw_plot kw) false)
            (or_default (kw_proposer_random_penalty_range kw) (0, 0))
            (or_default (kw_receiver_random_penalty_range kw) (0, 0))
            (or_default (kw_p_reject_bump kw) 0))
  | _, _, _, _ => Raise TypeError
  end.

(** One row of the data frame. *)
Record TournamentRow := mkTournamentRow {
  row_p1_proposer : string;
  row_p1_responder : string;
  row_p2_proposer : string;
  row_p2_responder : string;
  row_trial : nat;
  row_p1_utility : Q;
  row_p2_utility : Q;
  row_rejections : nat
}.

Definition NamedProposer : Type := string * ProposerStrategy.
Definition NamedResponder : Type := string * ResponderStrategy.
Definition Matchup : Type :=
  (NamedProposer * NamedResponder) * (NamedProposer * NamedResponder).

Section Tournament.

Variable math_exp : Q -> Q.

(** The body of the inner loop (lines 182-204); [q1] and [q2] are the
    players [player1] and [player2] of the source. *)
Definition play_trial (rng : nat -> Draws) (game_kwargs : GameKwargs) (p : Q)
    (rounds_per_game : nat) (m : Matchup) (trial : nat)
  : result TournamentRow :=
  let '(((p1_prop_name, p1_prop_fn), (p1_resp_name, p1_resp_fn)),
        ((p2_prop_name, p2_prop_fn), (p2_resp_name, p2_resp_fn))) := m in
  let q1 := Player_init "Player 1" p1_prop_fn p1_resp_fn in
  let q2 := Player_init "Player 2" p2_prop_fn p2_resp_fn in
  game <- Game_of_kwargs q1 q2 p game_kwargs ;;
  game <- run math_exp rounds_per_game rng game ;;
  Ok {| row_p1_proposer := p1_prop_name;
        row_p1_responder := p1_resp_name;
        row_p2_proposer := p2_prop_name;
        row_p2_responder := p2_resp_name;
        row_trial := trial;
        row_p1_utility := utility (player1 game);
        row_p2_utility := utility (player2 game);
        row_rejections := rejections (history game) |}.

(** The two nested loops, flattened: one step per matchup and trial.  The
    accumulator holds the rows so far and the number of games played. *)
Definition tournament_step (rng : nat -> nat -> Draws)
    (game_kwargs : GameKwargs) (p : Q) (rounds_per_game : nat)
    (acc : list TournamentRow * nat) (job : Matchup * nat)
  : result (list TournamentRow * nat) :=
  row <- play_trial (rng (snd acc)) game_kwargs p rounds_per_game
           (fst job) (snd job) ;;
  Ok (fst acc ++ [row], S (snd acc)).

(** [run_tournament] *)
Definition run_tournament (rng : nat -> nat -> Draws)
    (proposer_strategies : list NamedProposer)
    (responder_strategies : list NamedResponder)
    (rounds_per_game trials_per_match : nat) (p : Q)
    (game_kwargs : option GameKwargs) : result (list TournamentRow) :=
  let game_kwargs := or_default game_kwargs no_kwargs in
  let strategy_pairs := list_prod proposer_strategies responder_strategies in
  let matchups := list_prod strategy_pairs strategy_pairs in
  acc <- foldM (tournament_step rng game_kwargs p rounds_per_game)
           (list_prod matchups (seq 0 trials_per_match)) ([], O) ;;
  Ok (fst acc).

End Tournament.

(** The keyword arguments of the scenarios, and a small field. *)
Definition scenario_kwargs : GameKwargs :=
  mkGameKwargs (Some (-10)) (Some (-10)) (Some (-5)) (Some 5)
    None None None None None None.

Definition sample_proposers : list NamedProposer :=
  [("conceding"%string, ConcedingProposer_init 20 5);
   ("binary"%string, BinarySearchProposer_init 0 100)].

Definition sample_responders : list NamedResponder :=
  [("utilitarian"%string, UtilitarianResponder)].

Definition zero_rngs : nat -> nat -> Draws := fun _ => zero_rng.

(** The labels of a row, and the labels [run_tournament] gives to the row
    of a matchup and trial. *)
Definition row_labels (r : TournamentRow)
  : string * string * string * string * nat :=
  (row_p1_proposer r, row_p1_responder r, row_p2_proposer r,
   row_p2_responder r, row_trial r).

Definition job_labels (job : Matchup * nat)
  : string * string * string * string * nat :=
  let '((((p1_prop_name, _), (p1_resp_name, _)),
         ((p2_prop_name, _), (p2_resp_name, _))), trial) := job in
  (p1_prop_name, p1_resp_name, p2_prop_name, p2_resp_name, trial).

(** The games of a tournament, in the order they are played. *)
Definition tournament_jobs (proposer_strategies : list NamedProposer)
    (responder_strategies : list NamedResponder) (trials_per_match : nat)
  : list (Matchup * nat) :=
  let strategy_pairs := list_prod proposer_strategies responder_strategies in
  list_prod (list_prod strategy_pairs strategy_pairs) (seq 0 trials_per_match).

(** One of the four costs is not among the keyword arguments. *)
Definition lacks_a_cost (kw : GameKwargs) : Prop :=
  kw_player_1_bad kw = None \/ kw_player_2_bad kw = None
  \/ kw_proposer_bad kw = None \/ kw_receiver_bad kw = None.

(** * Properties *)

(** ** Comparison lemmas *)

Lemma Qltb_lt (x y : Q) : Qltb x y = true <-> x < y.
Proof.
  unfold Qltb. rewrite negb_true_iff, <- not_true_iff_false, Qle_bool_iff.
  split; [apply Qnot_le_lt | apply Qlt_not_le].
Qed.

Lemma Qltb_ge (x y : Q) : Qltb x y = false <-> y <= x.
Proof.
  unfold Qltb. rewrite negb_false_iff. apply Qle_bool_iff.
Qed.

Lemma Qle_bool_gt (x y : Q) : Qle_bool x y = false <-> y < x.
Proof.
  rewrite <- not_true_iff_false, Qle_bool_iff.
  split; [apply Qnot_le_lt | apply Qlt_not_le].
Qed.

Lemma py_min_spec (a b : Q) :
  (b < a /\ py_min a b = b) \/ (a <= b /\ py_min a b = a).
Proof.
  unfold py_min. destruct (Qltb b a) eqn:E.
  - left. split; [now apply Qltb_lt | reflexivity].
  - right. split; [now apply Qltb_ge | reflexivity].
Qed.

Lemma py_max_spec (a b : Q) :
  (a < b /\ py_max a b = b) \/ (b <= a /\ py_max a b = a).
Proof.
  unfold py_max. destruct (Qltb a b) eqn:E.
  - left. split; [now apply Qltb_lt | reflexivity].
  - right. split; [now apply Qltb_ge | reflexivity].
Qed.

(** ** Frame lemmas *)

Ltac by_cases_on_game :=
  repeat match goal with
         | r : PlayerRef |- _ => destruct r
         | b : bool |- _ => destruct b
         end;
  try reflexivity.

Lemma engine_state_update_player g r f :
  engine_state (update_player g r f) = engine_state g.
Proof. by_cases_on_game. Qed.

Lemma get_player_update_player g r f k :
  get_player (update_player g r f) k =
  if PlayerRef_eqb r k then f (get_player g r) else get_player g k.
Proof. by_cases_on_game. Qed.

Lemma engine_state_notify_receiver g offer :
  engine_state (notify_receiver g offer) = engine_state g.
Proof.
  unfold notify_receiver.
  destruct (proposer_strategy _); try reflexivity.
  apply engine_state_update_player.
Qed.

(** Notifying the receiver changes at most the [TitForTatProposer] it holds. *)
Lemma get_player_notify_receiver g offer k :
  let q := get_player g k in
  let q' := get_player (notify_receiver g offer) k in
  name q' = name q /\ utility q' = utility q
  /\ responder_strategy q' = responder_strategy q
  /\ (proposer_strategy q' = proposer_strategy q
      \/ exists last last',
           proposer_strategy q = TitForTatProposer last
           /\ proposer_strategy q' = TitForTatProposer last').
Proof.
  unfold notify_receiver.
  destruct (proposer_strategy (get_player g (receiver g))) eqn:E; cbn zeta;
    try (repeat split; now left).
  rewrite get_player_update_player.
  destruct (PlayerRef_eqb (receiver g) k) eqn:Ek.
  - assert (receiver g = k) as <- by (now destruct (receiver g), k).
    cbn. repeat split. right. eauto.
  - repeat split. now left.
Qed.

Lemma config_settle g offer accepted d :
  config (settle g offer accepted d) = config g.
Proof. destruct g; unfold settle; cbn; by_cases_on_game; repeat split. Qed.

Lemma roles_settle g offer accepted d :
  proposer (settle g offer accepted d) = proposer g
  /\ receiver (settle g offer accepted d) = receiver g
  /\ history (settle g offer accepted d) = history g.
Proof. destruct g; unfold settle; cbn; by_cases_on_game; repeat split. Qed.

Lemma p_current_settle g offer accepted d :
  p_current (settle g offer accepted d) =
  if accepted
  then (if p_reset_on_accept g then p_base g else p_current g)
  else py_min 1 (p_current g + p_reject_bump g).
Proof. destruct g; unfold settle; cbn; by_cases_on_game; repeat split. Qed.

(** Settling leaves names and strategies alone. *)
Lemma strategies_settle g offer accepted d k :
  let q := get_player g k in
  let q' := get_player (settle g offer accepted d) k in
  name q' = name q
  /\ proposer_strategy q' = proposer_strategy q
  /\ responder_strategy q' = responder_strategy q.
Proof. destruct g; unfold settle; cbn; by_cases_on_game; repeat split. Qed.

Lemma append_record_frame g offer accepted :
  config (append_record g offer accepted) = config g
  /\ proposer (append_record g offer accepted) = proposer g
  /\ receiver (append_record g offer accepted) = receiver g
  /\ p_current (append_record g offer accepted) = p_current g
  /\ (forall k, get_player (append_record g offer accepted) k = get_player g k).
Proof. repeat split. Qed.

Lemma maybe_switch_roles_frame g d :
  config (maybe_switch_roles g d) = config g
  /\ p_current (maybe_switch_roles g d) = p_current g
  /\ history (maybe_switch_roles g d) = history g
  /\ (forall k, get_player (maybe_switch_roles g d) k = get_player g k).
Proof.
  unfold maybe_switch_roles. destruct (Qltb _ _); repeat split.
Qed.

Lemma engine_state_eq g g' :
  engine_state g = engine_state g' ->
  config g = config g' /\ proposer g = proposer g'
  /\ receiver g = receiver g' /\ p_current g = p_current g'
  /\ history g = history g'.
Proof.
  unfold engine_state. intros H.
  pose proof (f_equal (fun t => fst (fst (fst (fst t)))) H) as H1.
  pose proof (f_equal (fun t => snd (fst (fst (fst t)))) H) as H2.
  pose proof (f_equal (fun t => snd (fst (fst t))) H) as H3.
  pose proof (f_equal (fun t => snd (fst t)) H) as H4.
  pose proof (f_equal (fun t => snd t) H) as H5.
  cbn [fst snd] in *. auto.
Qed.

(** The strategies read the game through its configuration only (and, for
    the feedback of the grid proposers, through the current proposer). *)
Lemma propose_config g g' s r d :
  config g = config g' -> propose s g r d = propose s g' r d.
Proof.
  destruct g, g'. unfold config. cbn. intros H.
  injection H as -> -> -> -> -> -> -> -> -> -> -> -> -> ->. reflexivity.
Qed.

Lemma respond_config math_exp g g' s offer r d :
  config g = config g' ->
  respond math_exp s offer g r d = respond math_exp s offer g' r d.
Proof.
  destruct g, g'. unfold config. cbn. intros H.
  injection H as -> -> -> -> -> -> -> -> -> -> -> -> -> ->. reflexivity.
Qed.

Lemma receive_feedback_config g g' s accepted offer :
  config g = config g' -> proposer g = proposer g' ->
  receive_feedback s accepted offer g = receive_feedback s accepted offer g'.
Proof.
  destruct g, g'. unfold config. cbn. intros H ->.
  injection H as -> -> -> -> -> -> -> -> -> -> -> -> -> ->. reflexivity.
Qed.

(** Inversion of a successful round: names the offer, the answer and the
    strategy objects returned by the three strategy calls. *)
Ltac round_inv H :=
  unfold play_round, make_offer, respond_to_offer in H;
  destruct (propose _ _ _ _) as [[?offer ?ps]|] eqn:?Hpropose;
    cbn [bind] in H; [|discriminate H];
  destruct (respond _ _ _ _ _ _) as [[?accepted ?rs]|] eqn:?Hrespond;
    cbn [bind] in H; [|discriminate H];
  destruct (receive_feedback _ _ _ _) as [?ps'|] eqn:?Hfeedback;
    cbn [bind] in H; [|discriminate H];
  injection H as H.

Section Round.

Variable math_exp : Q -> Q.
Variables (g : Game) (d : Draws).

Lemma engine_state_after_offer offer ps :
  engine_state (after_offer g offer ps) = engine_state g.
Proof.
  unfold after_offer.
  now rewrite engine_state_notify_receiver, engine_state_update_player.
Qed.

Lemma after_answer_frame offer ps accepted rs :
  let g4 := after_answer g d offer ps accepted rs in
  config g4 = config g /\ proposer g4 = proposer g /\ receiver g4 = receiver g
  /\ p_current g4 =
       (if accepted
        then (if p_reset_on_accept g then p_base g else p_current g)
        else py_min 1 (p_current g + p_reject_bump g))
  /\ exists r,
       history g4 = history g ++ [r]
       /\ rec_round r = (List.length (history g) + 1)%nat
       /\ rec_proposer r = name (get_player g4 (proposer g))
       /\ rec_offer r = offer
       /\ rec_accepted r = accepted
       /\ rec_player1_utility r = utility (player1 g4)
       /\ rec_player2_utility r = utility (player2 g4)
       /\ rec_next_round_switching_prob r = p_current g4.
Proof.
  cbn zeta. unfold after_answer.
  set (g3 := update_player _ _ _).
  assert (E3 : engine_state g3 = engine_state g).
  { unfold g3. rewrite engine_state_update_player.
    apply engine_state_after_offer. }
  apply engine_state_eq in E3. destruct E3 as (Ec & Ep & Er & Epc & Eh).
  destruct (roles_settle g3 offer accepted d) as (Sp & Sr & Sh).
  set (g3' := settle g3 offer accepted d) in *.
  assert (Ec' : config g3' = config g)
    by (unfold g3'; now rewrite config_settle).
  assert (Epc' : p_current g3' =
                 if accepted
                 then (if p_reset_on_accept g then p_base g else p_current g)
                 else py_min 1 (p_current g + p_reject_bump g)).
  { unfold g3'. rewrite p_current_settle. unfold config in Ec.
    injection Ec as _ Eb Ebump Ereset _ _ _ _ _ _ _ _ _ _.
    now rewrite Epc, Eb, Ereset, Ebump. }
  split; [exact Ec'|].
  split; [exact (eq_trans Sp Ep)|]. split; [exact (eq_trans Sr Er)|].
  split; [exact Epc'|].
  eexists. split.
  - unfold append_record. cbn [history set_history]. rewrite Sh, Eh.
    reflexivity.
  - cbn. rewrite Sp, Ep. repeat split.
Qed.

Lemma play_round_inv g' :
  play_round math_exp g d = Ok g' ->
  exists offer ps accepted rs ps',
    propose (proposer_strategy (get_player g (proposer g))) g (proposer g) d
      = Ok (offer, ps)
    /\ respond math_exp
         (responder_strategy (get_player (after_offer g offer ps) (receiver g)))
         offer g (receiver g) d = Ok (accepted, rs)
    /\ receive_feedback
         (proposer_strategy
            (get_player (after_answer g d offer ps accepted rs) (proposer g)))
         accepted offer g = Ok ps'
    /\ g' = maybe_switch_roles
              (update_player (after_answer g d offer ps accepted rs) (proposer g)
                 (fun q => set_proposer_strategy q ps')) d.
Proof.
  intros H. round_inv H.
  exists offer, ps, accepted, rs, ps'.
  fold (after_offer g offer ps) in *.
  destruct (engine_state_eq _ _ (engine_state_after_offer offer ps))
    as (Ec & Ep & Er & _).
  rewrite Er in *.
  fold (after_answer g d offer ps accepted rs) in *.
  destruct (after_answer_frame offer ps accepted rs) as (Ac & Ap & _).
  rewrite Ap in *.
  split; [reflexivity|]. split.
  - rewrite <- Hrespond. now apply respond_config.
  - split; [|rewrite <- H; do 2 f_equal; exact Ap].
    rewrite <- Hfeedback. apply receive_feedback_config; congruence.
Qed.

(** Up to the answer, only strategy objects have changed. *)
Lemma before_settle_players offer ps rs k :
  let q := get_player g k in
  let q' := get_player
              (update_player (after_offer g offer ps) (receiver g)
                 (fun q => set_responder_strategy q rs)) k in
  name q' = name q /\ utility q' = utility q.
Proof.
  cbn zeta. rewrite get_player_update_player. unfold after_offer.
  assert (F : forall k',
             name (get_player
                     (notify_receiver
                        (update_player g (proposer g)
                           (fun q => set_proposer_strategy q ps)) offer) k')
             = name (get_player g k')
             /\ utility (get_player
                     (notify_receiver
                        (update_player g (proposer g)
                           (fun q => set_proposer_strategy q ps)) offer) k')
                = utility (get_player g k')).
  { intros k'.
    destruct (get_player_notify_receiver
                (update_player g (proposer g)
                   (fun q => set_proposer_strategy q ps)) offer k')
      as (Hn & Hu & _).
    cbn zeta in Hn, Hu. rewrite Hn, Hu, get_player_update_player.
    destruct (PlayerRef_eqb (proposer g) k') eqn:E; [|now split].
    assert (proposer g = k') as <- by (now destruct (proposer g), k').
    now split. }
  destruct (PlayerRef_eqb (receiver g) k) eqn:E.
  - assert (receiver g = k) as <- by (now destruct (receiver g), k).
    cbn. apply F.
  - apply F.
Qed.

End Round.

(** The utility effect of settling, for two distinct players. *)
Lemma utility_settle g offer accepted d :
  proposer g <> receiver g ->
  utility (get_player (settle g offer accepted d) (proposer g)) =
    utility (get_player g (proposer g))
    + (if accepted then offer
       else get_bad_utility g (proposer g) true
            + random_uniform (proposer_random_penalty_range g)
                (proposer_penalty_draw d))
  /\ utility (get_player (settle g offer accepted d) (receiver g)) =
    utility (get_player g (receiver g))
    + (if accepted then - offer
       else get_bad_utility g (receiver g) false
            + random_uniform (receiver_random_penalty_range g)
                (receiver_penalty_draw d)).
Proof.
  destruct g. unfold settle. cbn.
  destruct proposer0, receiver0, accepted, p_reset_on_accept0; cbn;
    intros H; try (now split); now elim H.
Qed.

(** ** The engine-level effect of one round *)

(** Everything the engine itself does in a successful round, in terms of
    the offer and of the answer that the strategies returned. *)
Lemma play_round_engine math_exp g d g' :
  play_round math_exp g d = Ok g' ->
  exists offer ps accepted rs r,
    propose (proposer_strategy (get_player g (proposer g))) g (proposer g) d
      = Ok (offer, ps)
    /\ respond math_exp
         (responder_strategy (get_player (after_offer g offer ps) (receiver g)))
         offer g (receiver g) d = Ok (accepted, rs)
    /\ config g' = config g
    /\ p_current g' =
         (if accepted
          then (if p_reset_on_accept g then p_base g else p_current g)
          else py_min 1 (p_current g + p_reject_bump g))
    /\ history g' = history g ++ [r]
    /\ rec_round r = (List.length (history g) + 1)%nat
    /\ rec_offer r = offer
    /\ rec_accepted r = accepted
    /\ rec_player1_utility r = utility (player1 g')
    /\ rec_player2_utility r = utility (player2 g')
    /\ rec_next_round_switching_prob r = p_current g'
    /\ (proposer g', receiver g') =
         (if Qltb (switch_draw d) (p_current g')
          then (receiver g, proposer g) else (proposer g, receiver g))
    /\ forall k,
         utility (get_player g' k)
         = utility (get_player (after_answer g d offer ps accepted rs) k).
Proof.
  intros H. apply play_round_inv in H.
  destruct H as (offer & ps & accepted & rs & ps' & Hp & Hr & Hf & ->).
  destruct (after_answer_frame g d offer ps accepted rs)
    as (Ac & Ap & Ar & Apc & r & Ah & R1 & R2 & R3 & R4 & R5 & R6 & R7).
  exists offer, ps, accepted, rs, r.
  set (g4 := after_answer g d offer ps accepted rs) in *.
  set (g5 := update_player g4 (proposer g)
               (fun q => set_proposer_strategy q ps')).
  destruct (engine_state_eq _ _ (engine_state_update_player g4 (proposer g)
              (fun q => set_proposer_strategy q ps')))
    as (Uc & Up & Ur & Upc & Uh).
  fold g5 in Uc, Up, Ur, Upc, Uh.
  destruct (maybe_switch_roles_frame g5 d) as (Mc & Mpc & Mh & Mg).
  assert (Hu : forall k, utility (get_player g5 k) = utility (get_player g4 k)).
  { intros k. unfold g5. rewrite get_player_update_player.
    destruct (PlayerRef_eqb (proposer g) k) eqn:E; [|reflexivity].
    assert (proposer g = k) as <- by (now destruct (proposer g), k).
    reflexivity. }
  repeat split; try assumption; try congruence.
  - rewrite R5. etransitivity; [exact (eq_sym (Hu Player1))|].
    exact (f_equal utility (eq_sym (Mg Player1))).
  - rewrite R6. etransitivity; [exact (eq_sym (Hu Player2))|].
    exact (f_equal utility (eq_sym (Mg Player2))).
  - rewrite Mpc. unfold maybe_switch_roles.
    rewrite Upc, <- Ap, <- Ar, <- Up, <- Ur.
    now destruct (Qltb _ _).
Qed.

Lemma get_bad_utility_config g g' k b :
  config g = config g' -> get_bad_utility g k b = get_bad_utility g' k b.
Proof.
  unfold config, get_bad_utility. intros H.
  injection H as _ _ _ _ -> -> -> -> _ _ _ _ _ _. reflexivity.
Qed.

Lemma utility_after_answer g d offer ps accepted rs :
  proposer g <> receiver g ->
  let g4 := after_answer g d offer ps accepted rs in
  utility (get_player g4 (proposer g)) =
    utility (get_player g (proposer g))
    + (if accepted then offer
       else get_bad_utility g (proposer g) true
            + random_uniform (proposer_random_penalty_range g)
                (proposer_penalty_draw d))
  /\ utility (get_player g4 (receiver g)) =
    utility (get_player g (receiver g))
    + (if accepted then - offer
       else get_bad_utility g (receiver g) false
            + random_uniform (receiver_random_penalty_range g)
                (receiver_penalty_draw d)).
Proof.
  intros Hroles. cbn zeta. unfold after_answer.
  set (g3 := update_player _ _ _).
  assert (E3 : engine_state g3 = engine_state g).
  { unfold g3. rewrite engine_state_update_player.
    apply engine_state_after_offer. }
  apply engine_state_eq in E3. destruct E3 as (Ec & Ep & Er & _).
  assert (Hroles3 : proposer g3 <> receiver g3) by congruence.
  destruct (utility_settle g3 offer accepted d Hroles3) as (Hp & Hr).
  rewrite Ep, Er in *.
  destruct (before_settle_players g offer ps rs (proposer g)) as (_ & Up).
  destruct (before_settle_players g offer ps rs (receiver g)) as (_ & Ur).
  cbn zeta in Up, Ur. fold g3 in Up, Ur.
  rewrite Up in Hp. rewrite Ur in Hr.
  rewrite !(get_bad_utility_config _ _ _ _ Ec) in *.
  unfold config in Ec. injection Ec as _ _ _ _ _ _ _ _ _ _ _ _ Rp Rr.
  rewrite Rp in Hp. rewrite Rr in Hr.
  split; [exact Hp | exact Hr].
Qed.

(** ** The switching probability (C9) *)

(** C9.  In every round, an accepted offer resets [p_current] to [p_base]
    when [p_reset_on_accept] is set, a rejected offer makes it
    [min(1, p_current + p_reject_bump)]; the record appended by the round
    stores the updated value, and the role switch that closes the round
    (and fixes the roles of the next one) draws against that same value. *)
Theorem round_updates_switching_probability :
  forall (math_exp : Q -> Q) (g : Game) (d : Draws) (g' : Game),
  play_round math_exp g d = Ok g' ->
  exists r,
    history g' = history g ++ [r]
    /\ (rec_accepted r = true ->
        p_current g' = if p_reset_on_accept g then p_base g else p_current g)
    /\ (rec_accepted r = false ->
        p_current g' = py_min 1 (p_current g + p_reject_bump g))
    /\ rec_next_round_switching_prob r = p_current g'
    /\ (proposer g', receiver g') =
         (if Qltb (switch_draw d) (p_current g')
          then (receiver g, proposer g) else (proposer g, receiver g)).
Proof.
  intros math_exp g d g' H.
  destruct (play_round_engine _ _ _ _ H)
    as (offer & ps & accepted & rs & r & _ & _ & _ & Hpc & Hh & _ & _ & Ha
        & _ & _ & Hn & Hroles & _).
  exists r. rewrite Ha.
  repeat split; try assumption; intros ->; exact Hpc.
Qed.

Lemma round_updates_switching_probability_witness :
  exists g',
    play_round sample_exp (conceding_game 100) zero_draws = Ok g'
    /\ exists r,
         history g' = history (conceding_game 100) ++ [r]
         /\ (rec_accepted r = true ->
             p_current g' = if p_reset_on_accept (conceding_game 100)
                            then p_base (conceding_game 100)
                            else p_current (conceding_game 100))
         /\ (rec_accepted r = false ->
             p_current g' =
             py_min 1 (p_current (conceding_game 100)
                       + p_reject_bump (conceding_game 100)))
         /\ rec_next_round_switching_prob r = p_current g'
         /\ (proposer g', receiver g') =
              (if Qltb (switch_draw zero_draws) (p_current g')
               then (receiver (conceding_game 100), proposer (conceding_game 100))
               else (proposer (conceding_game 100), receiver (conceding_game 100))).
Proof.
  eexists. split.
  - vm_compute. reflexivity.
  - apply (round_updates_switching_probability sample_exp (conceding_game 100)
             zero_draws).
    vm_compute. reflexivity.
Defined.

(** ** Utilities (C1, C2) *)

(** The two roles are held by distinct players: true of a new game, and
    kept by every round. *)
Lemma Game_init_roles q1 q2 p0 b1 b2 pb rb v lo hi pl r1 r2 bump :
  proposer (Game_init q1 q2 p0 b1 b2 pb rb v lo hi pl r1 r2 bump)
  <> receiver (Game_init q1 q2 p0 b1 b2 pb rb v lo hi pl r1 r2 bump).
Proof. discriminate. Qed.

Lemma play_round_roles math_exp g d g' :
  proposer g <> receiver g -> play_round math_exp g d = Ok g' ->
  proposer g' <> receiver g'.
Proof.
  intros Hroles H.
  destruct (play_round_engine _ _ _ _ H)
    as (offer & ps & accepted & rs & r & _ & _ & _ & _ & _ & _ & _ & _
        & _ & _ & _ & Hsw & _).
  destruct (Qltb _ _); injection Hsw as -> ->; congruence.
Qed.

(** C2.  In an accepted round the amount added to the proposer's utility
    is the offer and the amount added to the responder's utility is its
    negation, so the two amounts are opposite; in a rejected round the
    amount added to each player's utility is that player's own penalty
    (flat cost, role cost and random part), and there are rejected rounds
    whose two amounts do not sum to zero.  The new utility is the old one
    plus the amount, as the assignments [utility += ...] compute it. *)
Theorem accepted_round_is_zero_sum :
  forall (math_exp : Q -> Q) (g : Game) (d : Draws) (g' : Game),
  proposer g <> receiver g ->
  play_round math_exp g d = Ok g' ->
  (exists r to_proposer to_receiver,
     history g' = history g ++ [r]
     /\ utility (get_player g' (proposer g))
        == utility (get_player g (proposer g)) + to_proposer
     /\ utility (get_player g' (receiver g))
        == utility (get_player g (receiver g)) + to_receiver
     /\ (rec_accepted r = true ->
         to_proposer = rec_offer r /\ to_receiver = - rec_offer r
         /\ to_proposer == - to_receiver)
     /\ (rec_accepted r = false ->
         to_proposer = get_bad_utility g (proposer g) true
                       + random_uniform (proposer_random_penalty_range g)
                           (proposer_penalty_draw d)
         /\ to_receiver = get_bad_utility g (receiver g) false
                          + random_uniform (receiver_random_penalty_range g)
                              (receiver_penalty_draw d)))
  /\ (exists g0 d0 g0' r0,
        proposer g0 <> receiver g0
        /\ play_round math_exp g0 d0 = Ok g0'
        /\ history g0' = history g0 ++ [r0]
        /\ rec_accepted r0 = false
        /\ ~ (get_bad_utility g0 (proposer g0) true
              + random_uniform (proposer_random_penalty_range g0)
                  (proposer_penalty_draw d0))
             + (get_bad_utility g0 (receiver g0) false
                + random_uniform (receiver_random_penalty_range g0)
                    (receiver_penalty_draw d0)) == 0).
Proof.
  intros math_exp g d g' Hroles H. split.
  - destruct (play_round_engine _ _ _ _ H)
      as (offer & ps & accepted & rs & r & _ & _ & _ & _ & Hh & _ & Ho & Ha
          & _ & _ & _ & _ & Hu).
    destruct (utility_after_answer g d offer ps accepted rs Hroles)
      as (Up & Ur).
    cbn zeta in Up, Ur.
    exists r,
      (if accepted then offer
       else get_bad_utility g (proposer g) true
            + random_uniform (proposer_random_penalty_range g)
                (proposer_penalty_draw d)),
      (if accepted then - offer
       else get_bad_utility g (receiver g) false
            + random_uniform (receiver_random_penalty_range g)
                (receiver_penalty_draw d)).
    split; [exact Hh|].
    split; [rewrite Hu, Up; reflexivity|].
    split; [rewrite Hu, Ur; reflexivity|].
    rewrite Ho, Ha.
    split; intros ->; repeat split; lra.
  - exists (conceding_game 100), zero_draws.
    let t := eval vm_compute in
               (play_round math_exp (conceding_game 100) zero_draws) in
    match t with
    | Ok ?x => exists x;
               match eval vm_compute in (history x) with
               | [?r] => exists r
               end
    end.
    split; [discriminate|].
    split; [vm_compute; reflexivity|].
    split; [reflexivity|].
    split; [reflexivity|].
    vm_compute. discriminate.
Qed.

Lemma accepted_round_is_zero_sum_witness :
  exists g',
    proposer (conceding_game 0) <> receiver (conceding_game 0)
    /\ play_round sample_exp (conceding_game 0) zero_draws = Ok g'
    /\ exists r,
         history g' = history (conceding_game 0) ++ [r]
         /\ rec_accepted r = true
         /\ utility (get_player g' Player1)
            == utility (get_player (conceding_game 0) Player1) + rec_offer r
         /\ utility (get_player g' Player2)
            == utility (get_player (conceding_game 0) Player2)
               + - rec_offer r.
Proof.
  let t := eval vm_compute in
             (play_round sample_exp (conceding_game 0) zero_draws) in
  match t with Ok ?x => exists x end.
  split; [discriminate|].
  split; [vm_compute; reflexivity|].
  match goal with
  | |- exists r, history ?x = _ /\ _ =>
      destruct (accepted_round_is_zero_sum sample_exp (conceding_game 0)
                  zero_draws x)
        as [(r & ap & ar & Hh & Hp & Hr & Hacc & _) _];
        [discriminate | vm_compute; reflexivity |]
  end.
  exists r. split; [exact Hh|].
  assert (Ha : rec_accepted r = true).
  { apply (f_equal (fun h => map rec_accepted h)) in Hh.
    cbn in Hh. now injection Hh as <-. }
  split; [exact Ha|].
  destruct (Hacc Ha) as (Ep & Er & _).
  rewrite Ep in Hp. rewrite Er in Hr.
  split; [exact Hp | exact Hr].
Defined.

(** ** Which strategy objects a round replaces *)

Lemma strategies_after_answer g d offer ps accepted rs :
  proposer g <> receiver g ->
  let g4 := after_answer g d offer ps accepted rs in
  proposer_strategy (get_player g4 (proposer g)) = ps
  /\ responder_strategy (get_player g4 (proposer g))
     = responder_strategy (get_player g (proposer g))
  /\ responder_strategy (get_player g4 (receiver g)) = rs
  /\ proposer_strategy (get_player g4 (receiver g))
     = match proposer_strategy (get_player g (receiver g)) with
       | TitForTatProposer last =>
           TitForTatProposer (observe_offer_from_opponent last offer)
       | s => s
       end.
Proof.
  intros Hroles. cbn zeta.
  unfold after_answer.
  set (g3 := update_player _ _ _).
  assert (G3 : forall k,
             proposer_strategy (get_player g3 k)
             = (if PlayerRef_eqb (proposer g) k then ps
                else match proposer_strategy (get_player g k) with
                     | TitForTatProposer last =>
                         if PlayerRef_eqb (receiver g) k
                         then TitForTatProposer
                                (observe_offer_from_opponent last offer)
                         else TitForTatProposer last
                     | s => s
                     end)
             /\ responder_strategy (get_player g3 k)
                = (if PlayerRef_eqb (receiver g) k then rs
                   else responder_strategy (get_player g k))).
  { intros k. unfold g3, after_offer, notify_receiver, update_player.
    destruct g as [[? s1 ? ?] [? s2 ? ?] ? ? ? ? ? ? ? ? ? pr rc ? ? ? ? ? ? ?].
    cbn in Hroles |- *.
    destruct pr, rc; try (now elim Hroles); cbn;
      [destruct s2 | destruct s1]; destruct k; cbn; split; try reflexivity;
      match goal with |- context [match ?s with _ => _ end] => now destruct s end. }
  destruct (strategies_settle g3 offer accepted d (proposer g)) as (_ & Sp & Sr).
  destruct (strategies_settle g3 offer accepted d (receiver g)) as (_ & Sp' & Sr').
  cbn zeta in Sp, Sr, Sp', Sr'.
  change (get_player (append_record ?x _ _) ?k) with (get_player x k).
  rewrite Sp, Sr, Sp', Sr'.
  destruct (G3 (proposer g)) as (-> & ->).
  destruct (G3 (receiver g)) as (-> & ->).
  assert (E1 : PlayerRef_eqb (proposer g) (proposer g) = true)
    by now destruct (proposer g).
  assert (E2 : PlayerRef_eqb (receiver g) (receiver g) = true)
    by now destruct (receiver g).
  assert (E3 : PlayerRef_eqb (receiver g) (proposer g) = false)
    by (destruct (proposer g), (receiver g); try reflexivity; now elim Hroles).
  assert (E4 : PlayerRef_eqb (proposer g) (receiver g) = false)
    by (destruct (proposer g), (receiver g); try reflexivity; now elim Hroles).
  rewrite E1, E2, E3, E4. repeat split.
Qed.

(** A round succeeds as soon as its three strategy calls do. *)
Lemma play_round_intro math_exp g d offer ps accepted rs ps' :
  propose (proposer_strategy (get_player g (proposer g))) g (proposer g) d
    = Ok (offer, ps) ->
  respond math_exp
    (responder_strategy (get_player (after_offer g offer ps) (receiver g)))
    offer g (receiver g) d = Ok (accepted, rs) ->
  receive_feedback
    (proposer_strategy
       (get_player (after_answer g d offer ps accepted rs) (proposer g)))
    accepted offer g = Ok ps' ->
  play_round math_exp g d =
  Ok (maybe_switch_roles
        (update_player (after_answer g d offer ps accepted rs) (proposer g)
           (fun q => set_proposer_strategy q ps')) d).
Proof.
  intros Hp Hr Hf.
  destruct (engine_state_eq _ _ (engine_state_after_offer g offer ps))
    as (Ec & Ep & Er & _).
  destruct (after_answer_frame g d offer ps accepted rs) as (Ac & Ap & _).
  unfold play_round, make_offer, respond_to_offer.
  rewrite Hp. cbn [bind]. fold (after_offer g offer ps).
  rewrite Er, (respond_config math_exp _ _ _ _ _ _ Ec), Hr. cbn [bind].
  fold (after_answer g d offer ps accepted rs).
  rewrite Ap, (receive_feedback_config _ _ _ _ _ Ac Ap), Hf.
  reflexivity.
Qed.

Lemma play_round_succeeds math_exp g d offer ps accepted rs ps' :
  propose (proposer_strategy (get_player g (proposer g))) g (proposer g) d
    = Ok (offer, ps) ->
  respond math_exp
    (responder_strategy (get_player (after_offer g offer ps) (receiver g)))
    offer g (receiver g) d = Ok (accepted, rs) ->
  receive_feedback
    (proposer_strategy
       (get_player (after_answer g d offer ps accepted rs) (proposer g)))
    accepted offer g = Ok ps' ->
  exists g', play_round math_exp g d = Ok g'.
Proof.
  intros Hp Hr Hf. eexists.
  exact (play_round_intro math_exp g d offer ps accepted rs ps' Hp Hr Hf).
Qed.

Lemma responder_strategy_after_offer g offer ps k :
  responder_strategy (get_player (after_offer g offer ps) k)
  = responder_strategy (get_player g k).
Proof.
  unfold after_offer.
  destruct (get_player_notify_receiver
              (update_player g (proposer g)
                 (fun q => set_proposer_strategy q ps)) offer k)
    as (_ & _ & -> & _).
  rewrite get_player_update_player.
  destruct (PlayerRef_eqb (proposer g) k) eqn:E; [|reflexivity].
  assert (proposer g = k) as <- by (now destruct (proposer g), k).
  reflexivity.
Qed.

(** C1.  The first scenario of the specification: with [p = 0], flat costs
    [-10], role costs [-5] and [5], bounds [0] and [100], player 1
    proposing with [ConcedingProposer(100, 10)] and player 2 answering with
    [UtilitarianResponder], one round is a rejection that leaves player 1
    at [-15] and player 2 at [-5]; the only history record has round 1,
    [accepted] false and these two utilities.  This holds whatever the
    other two strategies, the names, the flags and the variates are. *)
Theorem scenario_one_round_reject :
  forall (math_exp : Q -> Q) (n1 n2 : string) (rs1 : ResponderStrategy)
         (ps2 : ProposerStrategy) (verbose plot : bool) (rng : nat -> Draws),
  exists g' r,
    run math_exp 1 rng
      (scenario_game
         (Player_init n1 (ConcedingProposer_init 100 10) rs1)
         (Player_init n2 ps2 UtilitarianResponder) verbose plot) = Ok g'
    /\ history g' = [r]
    /\ rec_round r = 1%nat
    /\ rec_offer r == 100
    /\ rec_accepted r = false
    /\ rec_player1_utility r == -15
    /\ rec_player2_utility r == -5
    /\ utility (player1 g') == -15
    /\ utility (player2 g') == -5.
Proof.
  intros math_exp n1 n2 rs1 ps2 verbose plot rng.
  set (g := scenario_game _ _ verbose plot).
  assert (Hroles : proposer g <> receiver g) by discriminate.
  assert (Hp : propose (proposer_strategy (get_player g (proposer g))) g
                 (proposer g) (rng O)
               = Ok (100, ConcedingProposer 100 10)) by reflexivity.
  assert (Hr : respond math_exp
                 (responder_strategy
                    (get_player (after_offer g 100 (ConcedingProposer 100 10))
                       (receiver g)))
                 100 g (receiver g) (rng O)
               = Ok (false, UtilitarianResponder)).
  { rewrite responder_strategy_after_offer. reflexivity. }
  assert (Hf : receive_feedback
                 (proposer_strategy
                    (get_player
                       (after_answer g (rng O) 100 (ConcedingProposer 100 10)
                          false UtilitarianResponder) (proposer g)))
                 false 100 g
               = Ok (ConcedingProposer (100 - 10) 10)).
  { destruct (strategies_after_answer g (rng O) 100 (ConcedingProposer 100 10)
                false UtilitarianResponder Hroles) as (-> & _).
    reflexivity. }
  destruct (play_round_succeeds math_exp g (rng O) _ _ _ _ _ Hp Hr Hf)
    as (g' & Hround).
  destruct (play_round_engine _ _ _ _ Hround)
    as (offer & ps & accepted & rs & r & Hp' & Hr' & _ & _ & Hh & Hn & Ho & Ha
        & H1 & H2 & _ & _ & Hu).
  rewrite Hp in Hp'. injection Hp' as <- <-.
  rewrite Hr in Hr'. injection Hr' as <- <-.
  destruct (utility_after_answer g (rng O) 100 (ConcedingProposer 100 10)
              false UtilitarianResponder Hroles) as (U1 & U2).
  cbn zeta in U1, U2.
  assert (E1 : utility (get_player g' Player1) == -15).
  { rewrite Hu. change Player1 with (proposer g). rewrite U1.
    unfold random_uniform. cbn. lra. }
  assert (E2 : utility (get_player g' Player2) == -5).
  { rewrite Hu. change Player2 with (receiver g). rewrite U2.
    unfold random_uniform. cbn. lra. }
  exists g', r.
  split; [cbn [run]; rewrite Hround; reflexivity|].
  split; [exact Hh|]. split; [exact Hn|].
  split; [now rewrite Ho|]. split; [exact Ha|].
  split; [exact (eq_ind_r (fun x => x == -15) E1 H1)|].
  split; [exact (eq_ind_r (fun x => x == -5) E2 H2)|].
  split; [exact E1 | exact E2].
Qed.

(** ** The switching probability stays a probability (C3) *)

Lemma config_p_fields g g' :
  config g = config g' ->
  p_base g = p_base g' /\ p_reject_bump g = p_reject_bump g'
  /\ p_reset_on_accept g = p_reset_on_accept g'.
Proof.
  unfold config. intros H.
  injection H as _ Hb Hbump Hr _ _ _ _ _ _ _ _ _ _. auto.
Qed.

Lemma play_round_p_invariant math_exp g d g' :
  p_invariant g -> play_round math_exp g d = Ok g' -> p_invariant g'.
Proof.
  intros (Hb0 & Hb1 & Hbump & Hc0 & Hc1) H.
  destruct (play_round_engine _ _ _ _ H)
    as (offer & ps & accepted & rs & r & _ & _ & Hc & Hpc & _).
  destruct (config_p_fields _ _ Hc) as (Eb & Ebump & _).
  unfold p_invariant. rewrite Eb, Ebump, Hpc.
  repeat split; try assumption.
  - destruct accepted; [now destruct (p_reset_on_accept g)|].
    destruct (py_min_spec 1 (p_current g + p_reject_bump g)) as [[_ ->]|[_ ->]];
      lra.
  - destruct accepted; [now destruct (p_reset_on_accept g)|].
    destruct (py_min_spec 1 (p_current g + p_reject_bump g)) as [[? ->]|[_ ->]];
      lra.
Qed.

Lemma run_p_invariant math_exp n :
  forall rng g g',
  p_invariant g -> run math_exp n rng g = Ok g' -> p_invariant g'.
Proof.
  induction n as [|n IH]; intros rng g g' Hinv H; cbn [run] in H.
  - now injection H as <-.
  - destruct (play_round math_exp g (rng O)) as [g1|e] eqn:E;
      cbn [bind] in H; [|discriminate H].
    apply (IH _ g1 g' (play_round_p_invariant math_exp g (rng O) g1 Hinv E) H).
Qed.

(** C3, as amended.  In a game created with [0 <= p <= 1] and a
    non-negative [p_reject_bump], [p_current] lies in [[0, 1]] after every
    round, accepted or rejected. *)
Theorem p_current_stays_a_probability :
  forall (math_exp : Q -> Q) (q1 q2 : Player)
         (p player_1_bad player_2_bad proposer_bad receiver_bad : Q)
         (verbose : bool) (min_offer max_offer : Q) (plot : bool)
         (proposer_range receiver_range : Q * Q) (p_reject_bump : Q)
         (n_rounds : nat) (rng : nat -> Draws) (g' : Game),
  0 <= p -> p <= 1 -> 0 <= p_reject_bump ->
  run math_exp n_rounds rng
    (Game_init q1 q2 p player_1_bad player_2_bad proposer_bad receiver_bad
       verbose min_offer max_offer plot proposer_range receiver_range
       p_reject_bump) = Ok g' ->
  0 <= p_current g' /\ p_current g' <= 1.
Proof.
  intros math_exp q1 q2 p0 b1 b2 pb rb v lo hi pl r1 r2 bump n rng g'
         Hp0 Hp1 Hbump H.
  apply run_p_invariant in H.
  - destruct H as (_ & _ & _ & H0 & H1). now split.
  - unfold p_invariant. cbn. repeat split; assumption.
Qed.

Lemma p_current_stays_a_probability_witness :
  exists g',
    0 <= 1 # 2 /\ 1 # 2 <= 1 /\ 0 <= 3 # 10
    /\ run sample_exp 4 zero_rng (drifting_game (1 # 2) (3 # 10) 100) = Ok g'
    /\ 0 <= p_current g' /\ p_current g' <= 1.
Proof.
  let t := eval vm_compute in
             (run sample_exp 4 zero_rng (drifting_game (1 # 2) (3 # 10) 100)) in
  match t with Ok ?x => exists x end.
  assert (H0 : 0 <= 1 # 2) by (vm_compute; discriminate).
  assert (H1 : 1 # 2 <= 1) by (vm_compute; discriminate).
  assert (H2 : 0 <= 3 # 10) by (vm_compute; discriminate).
  split; [exact H0|]. split; [exact H1|]. split; [exact H2|].
  split; [vm_compute; reflexivity|].
  apply (p_current_stays_a_probability sample_exp
           (conceding_player "Player 1" 100) (conceding_player "Player 2" 100)
           (1 # 2) (-10) (-10) (-5) 5 false 0 100 false (0, 0) (0, 0) (3 # 10)
           4%nat zero_rng _ H0 H1 H2).
  vm_compute. reflexivity.
Defined.

(** The claim as stated fails: nothing validates [p] or [p_reject_bump].
    With [p = 2] an accepted round leaves [p_current = 2]; with
    [p_reject_bump = -1] a rejected round leaves [p_current = -1]. *)
Lemma p_current_can_leave_unit_interval :
  (exists g',
     run sample_exp 1 zero_rng (drifting_game 2 0 0) = Ok g'
     /\ ~ (0 <= p_current g' /\ p_current g' <= 1))
  /\ (exists g',
        run sample_exp 1 zero_rng (drifting_game 0 (-1) 100) = Ok g'
        /\ ~ (0 <= p_current g' /\ p_current g' <= 1)).
Proof.
  split.
  - let t := eval vm_compute in
               (run sample_exp 1 zero_rng (drifting_game 2 0 0)) in
    match t with Ok ?x => exists x end.
    split; [vm_compute; reflexivity|].
    intros [_ H]. vm_compute in H. now apply H.
  - let t := eval vm_compute in
               (run sample_exp 1 zero_rng (drifting_game 0 (-1) 100)) in
    match t with Ok ?x => exists x end.
    split; [vm_compute; reflexivity|].
    intros [H _]. vm_compute in H. now apply H.
Qed.

(** ** Offer bounds (C4) *)

Lemma clamp_within lo hi x :
  lo <= hi ->
  lo <= py_max lo (py_min x hi) /\ py_max lo (py_min x hi) <= hi.
Proof.
  intros Hb.
  destruct (py_min_spec x hi) as [[H1 ->]|[H1 ->]];
    [destruct (py_max_spec lo hi) as [[H2 ->]|[H2 ->]]
    |destruct (py_max_spec lo x) as [[H2 ->]|[H2 ->]]];
    split; lra.
Qed.

Lemma propose_clamped s g r d offer s' :
  clamps_to_bounds s = true ->
  min_offer g <= max_offer g ->
  propose s g r d = Ok (offer, s') ->
  min_offer g <= offer /\ offer <= max_offer g.
Proof.
  intros Hs Hb H. destruct s; try discriminate Hs; cbn in H.
  - injection H as <- _. now apply clamp_within.
  - match type of H with
    | bind ?m _ = _ => destruct m as [x|e]; cbn [bind] in H; [|discriminate H]
    end.
    injection H as <- _. now apply clamp_within.
  - injection H as <- _. now apply clamp_within.
Qed.

(** C4, as amended.  The engine records the offer exactly as the
    proposer's strategy returned it: it never clamps.  The recorded offer
    lies within [[min_offer, max_offer]] when the strategy is one of the
    clamping ones (Conceding, Random, Learning) and the bounds are ordered. *)
Theorem recorded_offer_is_the_strategy_offer :
  forall (math_exp : Q -> Q) (g : Game) (d : Draws) (g' : Game),
  play_round math_exp g d = Ok g' ->
  exists r s',
    history g' = history g ++ [r]
    /\ propose (proposer_strategy (get_player g (proposer g))) g
         (proposer g) d = Ok (rec_offer r, s')
    /\ (clamps_to_bounds (proposer_strategy (get_player g (proposer g))) = true ->
        min_offer g <= max_offer g ->
        min_offer g <= rec_offer r /\ rec_offer r <= max_offer g).
Proof.
  intros math_exp g d g' H.
  destruct (play_round_engine _ _ _ _ H)
    as (offer & ps & accepted & rs & r & Hp & _ & _ & _ & Hh & _ & Ho & _).
  exists r, ps. rewrite Ho.
  split; [exact Hh|]. split; [exact Hp|].
  intros Hs Hb. exact (propose_clamped _ _ _ _ _ _ Hs Hb Hp).
Qed.

Lemma recorded_offer_is_the_strategy_offer_witness :
  exists g' r,
    play_round sample_exp (conceding_game 250) zero_draws = Ok g'
    /\ history g' = history (conceding_game 250) ++ [r]
    /\ rec_offer r == 100
    /\ min_offer (conceding_game 250) <= rec_offer r
    /\ rec_offer r <= max_offer (conceding_game 250).
Proof.
  let t := eval vm_compute in
             (play_round sample_exp (conceding_game 250) zero_draws) in
  match t with Ok ?x => exists x end.
  match goal with
  | |- exists r, play_round _ _ _ = Ok ?x /\ _ =>
      destruct (recorded_offer_is_the_strategy_offer sample_exp
                  (conceding_game 250) zero_draws x)
        as (r & s' & Hh & Hp & Hb); [vm_compute; reflexivity|]
  end.
  exists r.
  split; [vm_compute; reflexivity|]. split; [exact Hh|].
  split.
  - match type of Hp with
    | ?lhs = _ =>
        assert (E : lhs = Ok (100, ConcedingProposer 250 10))
          by (vm_compute; reflexivity)
    end.
    rewrite E in Hp. injection Hp as Ho _. rewrite <- Ho. reflexivity.
  - apply Hb; [reflexivity | vm_compute; discriminate].
Defined.

(** The claim as stated fails.  A [TitForTatProposer] that has observed
    nothing offers 0 under [min_offer = 10]; a [RiskAwareProposer] on its
    default grid offers 100 under [max_offer = 50]; the engine records both
    offers unchanged. *)
Lemma unclamped_offer_is_recorded :
  (exists g' r,
     run sample_exp 1 zero_rng tit_for_tat_game = Ok g'
     /\ history g' = [r]
     /\ rec_offer r == 0
     /\ ~ (min_offer g' <= rec_offer r /\ rec_offer r <= max_offer g'))
  /\ (exists g' r,
        run sample_exp 1 zero_rng risk_aware_game = Ok g'
        /\ history g' = [r]
        /\ rec_offer r == 100
        /\ ~ (min_offer g' <= rec_offer r /\ rec_offer r <= max_offer g')).
Proof.
  split.
  - let t := eval vm_compute in (run sample_exp 1 zero_rng tit_for_tat_game) in
    match t with
    | Ok ?x => exists x;
               match eval vm_compute in (history x) with
               | [?r] => exists r
               end
    end.
    split; [vm_compute; reflexivity|]. split; [reflexivity|].
    split; [reflexivity|].
    intros [H _]. vm_compute in H. now apply H.
  - let t := eval vm_compute in (run sample_exp 1 zero_rng risk_aware_game) in
    match t with
    | Ok ?x => exists x;
               match eval vm_compute in (history x) with
               | [?r] => exists r
               end
    end.
    split; [vm_compute; reflexivity|]. split; [reflexivity|].
    split; [reflexivity|].
    intros [_ H]. vm_compute in H. now apply H.
Qed.

(** ** Configuration errors of the random proposer (C6) *)

Lemma play_round_propose_raises math_exp g d e :
  propose (proposer_strategy (get_player g (proposer g))) g (proposer g) d
    = Raise e ->
  play_round math_exp g d = Raise e.
Proof.
  intros H. unfold play_round, make_offer. rewrite H. reflexivity.
Qed.

(** C6.  [RandomProposer.propose] fails when the distribution is
    ["normal"] and [mean] or [stddev] is absent (the [assert] of line 38
    raises [AssertionError]) and when the distribution name is neither
    ["uniform"] nor ["normal"] ([ValueError]); these are the configuration
    errors of the specification.  The constructor accepts such parameters:
    the failure occurs in the call to [propose], before any variate is
    drawn, and ends the round that made the call. *)
Theorem random_proposer_configuration_errors :
  forall (math_exp : Q -> Q) (g : Game) (d : Draws) (distribution : string)
         (mean stddev : option Q),
  proposer_strategy (get_player g (proposer g))
    = RandomProposer_init distribution mean stddev ->
  (distribution = "normal"%string -> mean = None \/ stddev = None ->
   (forall g0 self_player d0,
      propose (RandomProposer_init distribution mean stddev) g0 self_player d0
      = Raise (AssertionError "Normal distribution requires mean and stddev"))
   /\ play_round math_exp g d
      = Raise (AssertionError "Normal distribution requires mean and stddev"))
  /\ (distribution <> "uniform"%string -> distribution <> "normal"%string ->
      (forall g0 self_player d0,
         propose (RandomProposer_init distribution mean stddev) g0
           self_player d0
         = Raise (ValueError
                    (String.append "Unknown distribution: " distribution)))
      /\ play_round math_exp g d
         = Raise (ValueError
                    (String.append "Unknown distribution: " distribution))).
Proof.
  intros math_exp g d distribution mean stddev Hs. split.
  - intros -> Hnone.
    assert (P : forall g0 self_player d0,
               propose (RandomProposer_init "normal" mean stddev) g0
                 self_player d0
               = Raise (AssertionError
                          "Normal distribution requires mean and stddev")).
    { intros g0 self_player d0. cbn.
      destruct Hnone as [-> | ->]; [reflexivity | now destruct mean]. }
    split; [exact P|].
    apply play_round_propose_raises. rewrite Hs. apply P.
  - intros Hu Hn.
    assert (P : forall g0 self_player d0,
               propose (RandomProposer_init distribution mean stddev) g0
                 self_player d0
               = Raise (ValueError
                          (String.append "Unknown distribution: "
                             distribution))).
    { intros g0 self_player d0. unfold RandomProposer_init, propose.
      apply String.eqb_neq in Hu, Hn. rewrite Hu, Hn. reflexivity. }
    split; [exact P|].
    apply play_round_propose_raises. rewrite Hs. apply P.
Qed.

Lemma random_proposer_configuration_errors_witness :
  (proposer_strategy
     (get_player (random_game "normal" (Some 50) None)
        (proposer (random_game "normal" (Some 50) None)))
   = RandomProposer_init "normal" (Some 50) None
   /\ play_round sample_exp (random_game "normal" (Some 50) None) zero_draws
      = Raise (AssertionError "Normal distribution requires mean and stddev"))
  /\ (proposer_strategy
        (get_player (random_game "beta" None None)
           (proposer (random_game "beta" None None)))
      = RandomProposer_init "beta" None None
      /\ "beta"%string <> "uniform"%string
      /\ "beta"%string <> "normal"%string
      /\ play_round sample_exp (random_game "beta" None None) zero_draws
         = Raise (ValueError "Unknown distribution: beta")).
Proof.
  split.
  - split; [reflexivity|].
    apply (random_proposer_configuration_errors sample_exp
             (random_game "normal" (Some 50) None) zero_draws
             "normal" (Some 50) None eq_refl);
      [reflexivity | now right].
  - split; [reflexivity|].
    split; [discriminate|]. split; [discriminate|].
    apply (random_proposer_configuration_errors sample_exp
             (random_game "beta" None None) zero_draws
             "beta" None None eq_refl); discriminate.
Defined.

(** ** The strategy objects after a round *)

Lemma other_player g k :
  proposer g <> receiver g -> k = proposer g \/ k = receiver g.
Proof. destruct k, (proposer g), (receiver g); intuition congruence. Qed.

(** With two distinct players, a successful round replaces the proposer's
    proposer strategy by the outcome of [propose] followed by
    [receive_feedback], the receiver's responder strategy by the outcome of
    [respond], lets a receiving [TitForTatProposer] observe the offer, and
    leaves the proposer's responder strategy alone. *)
Lemma play_round_strategies math_exp g d g' :
  proposer g <> receiver g ->
  play_round math_exp g d = Ok g' ->
  exists offer ps accepted rs ps',
    propose (proposer_strategy (get_player g (proposer g))) g (proposer g) d
      = Ok (offer, ps)
    /\ respond math_exp (responder_strategy (get_player g (receiver g)))
         offer g (receiver g) d = Ok (accepted, rs)
    /\ receive_feedback ps accepted offer g = Ok ps'
    /\ proposer_strategy (get_player g' (proposer g)) = ps'
    /\ responder_strategy (get_player g' (proposer g))
       = responder_strategy (get_player g (proposer g))
    /\ responder_strategy (get_player g' (receiver g)) = rs
    /\ proposer_strategy (get_player g' (receiver g))
       = match proposer_strategy (get_player g (receiver g)) with
         | TitForTatProposer last =>
             TitForTatProposer (observe_offer_from_opponent last offer)
         | s => s
         end.
Proof.
  intros Hroles H. apply play_round_inv in H.
  destruct H as (offer & ps & accepted & rs & ps' & Hp & Hr & Hf & ->).
  exists offer, ps, accepted, rs, ps'.
  destruct (strategies_after_answer g d offer ps accepted rs Hroles)
    as (S1 & S2 & S3 & S4).
  cbn zeta in S1, S2, S3, S4.
  rewrite responder_strategy_after_offer in Hr. rewrite S1 in Hf.
  split; [exact Hp|]. split; [exact Hr|]. split; [exact Hf|].
  set (g4 := after_answer g d offer ps accepted rs) in *.
  destruct (maybe_switch_roles_frame
              (update_player g4 (proposer g)
                 (fun q => set_proposer_strategy q ps')) d)
    as (_ & _ & _ & Mg).
  rewrite !Mg, !get_player_update_player.
  assert (E1 : PlayerRef_eqb (proposer g) (proposer g) = true)
    by now destruct (proposer g).
  assert (E2 : PlayerRef_eqb (proposer g) (receiver g) = false)
    by (destruct (proposer g), (receiver g); try reflexivity; now elim Hroles).
  rewrite E1, E2. cbn.
  repeat split; assumption.
Qed.

(** ** The bracket of the binary-search proposer (C8) *)

(** One [propose] followed by the feedback for the offer it returned. *)
Lemma binary_search_step low high last g r d accepted :
  low <= high ->
  exists offer low' high',
    propose (BinarySearchProposer low high last) g r d
      = Ok (offer, BinarySearchProposer low high offer)
    /\ receive_feedback (BinarySearchProposer low high offer) accepted offer g
       = Ok (BinarySearchProposer low' high' offer)
    /\ low <= low' /\ low' <= high' /\ high' <= high.
Proof.
  intros Hb. exists ((low + high) / 2).
  assert (Hm : low <= (low + high) / 2 /\ (low + high) / 2 <= high).
  { unfold Qdiv. change (/ 2) with (1 # 2). split; lra. }
  destruct Hm as [Hm1 Hm2].
  destruct accepted.
  - exists (py_max low ((low + high) / 2)), high.
    split; [reflexivity|]. split; [reflexivity|].
    destruct (py_max_spec low ((low + high) / 2)) as [[_ ->]|[_ ->]];
      repeat split; lra.
  - exists low, (py_min high ((low + high) / 2)).
    split; [reflexivity|]. split; [reflexivity|].
    destruct (py_min_spec high ((low + high) / 2)) as [[_ ->]|[_ ->]];
      repeat split; lra.
Qed.

Lemma binary_search_round math_exp g d g' k low high last :
  proposer g <> receiver g ->
  proposer_strategy (get_player g k) = BinarySearchProposer low high last ->
  low <= high ->
  play_round math_exp g d = Ok g' ->
  exists low' high' last',
    proposer_strategy (get_player g' k) = BinarySearchProposer low' high' last'
    /\ low <= low' /\ low' <= high' /\ high' <= high.
Proof.
  intros Hroles Hk Hb H.
  destruct (play_round_strategies _ _ _ _ Hroles H)
    as (offer & ps & accepted & rs & ps' & Hp & _ & Hf & S1 & _ & _ & S4).
  destruct (other_player g k Hroles) as [-> | ->].
  - rewrite Hk in Hp.
    destruct (binary_search_step low high last g (proposer g) d accepted Hb)
      as (offer0 & low' & high' & Hp0 & Hf0 & B).
    rewrite Hp0 in Hp. injection Hp as <- <-.
    rewrite Hf0 in Hf. injection Hf as <-.
    exists low', high', offer0. split; [exact S1 | exact B].
  - rewrite Hk in S4. exists low, high, last.
    split; [exact S4|]. repeat split; lra.
Qed.

(** C8.  Under engine-driven play a [BinarySearchProposer] whose bracket
    is well formed ([low <= high], as after construction with
    [min_offer <= max_offer]) keeps [low <= high] after every round, hence
    after every feedback call, and its width [high - low] never grows from
    one round to a later one. *)
Theorem binary_search_bracket_narrows :
  forall (math_exp : Q -> Q) (n_rounds : nat) (rng : nat -> Draws)
         (g g' : Game) (k : PlayerRef) (low high last : Q),
  proposer g <> receiver g ->
  proposer_strategy (get_player g k) = BinarySearchProposer low high last ->
  low <= high ->
  run math_exp n_rounds rng g = Ok g' ->
  exists low' high' last',
    proposer_strategy (get_player g' k) = BinarySearchProposer low' high' last'
    /\ low' <= high'
    /\ high' - low' <= high - low.
Proof.
  intros math_exp n. induction n as [|n IH];
    intros rng g g' k low high last Hroles Hk Hb H; cbn [run] in H.
  - injection H as <-. exists low, high, last.
    split; [exact Hk|]. split; lra.
  - destruct (play_round math_exp g (rng O)) as [g1|e] eqn:E;
      cbn [bind] in H; [|discriminate H].
    destruct (binary_search_round _ _ _ _ _ _ _ _ Hroles Hk Hb E)
      as (low1 & high1 & last1 & Hk1 & B1 & B2 & B3).
    destruct (IH _ g1 g' k low1 high1 last1
                (play_round_roles _ _ _ _ Hroles E) Hk1 B2 H)
      as (low' & high' & last' & Hk' & B1' & B2').
    exists low', high', last'.
    split; [exact Hk'|]. split; lra.
Qed.

Lemma binary_search_bracket_narrows_witness :
  exists g' low' high' last',
    proposer binary_search_game <> receiver binary_search_game
    /\ proposer_strategy (get_player binary_search_game Player1)
       = BinarySearchProposer 0 100 ((0 + 100) / 2)
    /\ 0 <= 100
    /\ run sample_exp 3 zero_rng binary_search_game = Ok g'
    /\ proposer_strategy (get_player g' Player1)
       = BinarySearchProposer low' high' last'
    /\ low' <= high'
    /\ high' - low' <= 100 - 0.
Proof.
  let t := eval vm_compute in (run sample_exp 3 zero_rng binary_search_game) in
  match t with Ok ?x => exists x end.
  assert (Hb : 0 <= 100) by (vm_compute; discriminate).
  match goal with
  | |- exists low' high' last', _ /\ _ /\ _ /\ run _ _ _ _ = Ok ?x /\ _ =>
      destruct (binary_search_bracket_narrows sample_exp 3 zero_rng
                  binary_search_game x Player1 0 100 ((0 + 100) / 2))
        as (low' & high' & last' & Hk & B1 & B2);
        [discriminate | reflexivity | exact Hb | vm_compute; reflexivity |]
  end.
  exists low', high', last'.
  split; [discriminate|]. split; [reflexivity|]. split; [exact Hb|].
  split; [vm_compute; reflexivity|].
  split; [exact Hk|]. split; [exact B1 | exact B2].
Defined.

(** ** Stagnation (C7) *)

Section Stagnation.

Variable math_exp : Q -> Q.
Variables (g : Game) (k : PlayerRef) (d : Draws).
Variables (tolerance : Z) (epsilon floor : Q).
Hypothesis epsilon_nonneg : 0 <= epsilon.

Lemma respond_first offer streak :
  punishable g k epsilon floor offer ->
  respond math_exp
    (StrategicRejectorResponder tolerance epsilon None streak floor)
    offer g k d
  = Ok (true,
        StrategicRejectorResponder tolerance epsilon (Some offer) streak floor).
Proof.
  intros [Hf Hu]. cbn.
  apply Qltb_ge in Hu. apply Qle_bool_gt in Hf. now rewrite Hu, Hf.
Qed.

Lemma respond_not_lower prev offer streak :
  punishable g k epsilon floor offer -> prev - epsilon <= offer ->
  respond math_exp
    (StrategicRejectorResponder tolerance epsilon (Some prev) streak floor)
    offer g k d
  = Ok (Z.ltb (streak + 1) tolerance,
        StrategicRejectorResponder tolerance epsilon (Some offer)
          (streak + 1) floor).
Proof.
  intros [Hf Hu] Hprev. cbn.
  apply Qltb_ge in Hu. apply Qle_bool_gt in Hf. apply Qle_bool_iff in Hprev.
  now rewrite Hu, Hf, Hprev.
Qed.

Lemma respond_lower prev offer streak :
  punishable g k epsilon floor offer -> offer < prev - epsilon ->
  respond math_exp
    (StrategicRejectorResponder tolerance epsilon (Some prev) streak floor)
    offer g k d
  = Ok (Z.ltb 0 tolerance,
        StrategicRejectorResponder tolerance epsilon (Some offer) 0 floor).
Proof.
  intros [Hf Hu] Hprev. cbn.
  apply Qltb_ge in Hu. apply Qle_bool_gt in Hf. apply Qle_bool_gt in Hprev.
  now rewrite Hu, Hf, Hprev.
Qed.

Lemma respond_all_repeat offer (Hoffer : punishable g k epsilon floor offer) m :
  forall streak,
  respond_all math_exp
    (StrategicRejectorResponder tolerance epsilon (Some offer) streak floor)
    (repeat offer m) g k d
  = Ok (map (fun j => Z.ltb (streak + 1 + Z.of_nat j) tolerance) (seq 0 m),
        StrategicRejectorResponder tolerance epsilon (Some offer)
          (streak + Z.of_nat m) floor).
Proof.
  induction m as [|m IH]; intros streak.
  - cbn. now rewrite Z.add_0_r.
  - cbn [repeat respond_all].
    rewrite respond_not_lower by (trivial; lra).
    cbn [bind]. rewrite IH. cbn [bind seq map].
    rewrite <- seq_shift, map_map.
    replace (streak + 1 + Z.of_nat 0)%Z with (streak + 1)%Z by lia.
    replace (streak + 1 + Z.of_nat m)%Z with (streak + Z.of_nat (S m))%Z by lia.
    do 2 f_equal. f_equal.
    apply map_ext. intros j. f_equal. lia.
Qed.

End Stagnation.

(** C7, as amended.  A [StrategicRejectorResponder] of tolerance 4 and
    non-negative epsilon that is offered the same amount again and again
    (above its floor plus epsilon, and no worse than rejecting) accepts the
    first 4 offers and rejects the 5th and all later ones.  After that, an
    offer lower by more than epsilon resets the streak and is accepted; an
    offer that is not lower by more than epsilon, changed or not, lengthens
    the streak and is rejected. *)
Theorem strategic_rejector_stagnation :
  forall (math_exp : Q -> Q) (g : Game) (k : PlayerRef) (d : Draws)
         (epsilon floor offer : Q),
  0 <= epsilon ->
  punishable g k epsilon floor offer ->
  (forall n,
     respond_all math_exp (StrategicRejectorResponder_init 4 epsilon floor)
       (repeat offer n) g k d
     = Ok (map (fun i => Nat.ltb i 4) (seq 0 n),
           stagnating epsilon floor offer n))
  /\ (forall n offer',
        (5 <= n)%nat -> punishable g k epsilon floor offer' ->
        offer' < offer - epsilon ->
        respond math_exp (stagnating epsilon floor offer n) offer' g k d
        = Ok (true,
              StrategicRejectorResponder 4 epsilon (Some offer') 0 floor))
  /\ (forall n offer',
        (5 <= n)%nat -> punishable g k epsilon floor offer' ->
        offer - epsilon <= offer' ->
        respond math_exp (stagnating epsilon floor offer n) offer' g k d
        = Ok (false,
              StrategicRejectorResponder 4 epsilon (Some offer')
                (Z.of_nat n) floor)).
Proof.
  intros math_exp g k d epsilon floor offer Heps Hoffer.
  split; [|split].
  - intros [|n]; [reflexivity|].
    cbn [repeat respond_all].
    unfold StrategicRejectorResponder_init.
    rewrite respond_first by exact Hoffer. cbn [bind].
    rewrite (respond_all_repeat math_exp g k d 4 epsilon floor Heps offer Hoffer).
    cbn [bind seq map stagnating].
    rewrite <- seq_shift, map_map. do 3 f_equal.
    apply map_ext. intros j.
    destruct (Z.ltb_spec (0 + 1 + Z.of_nat j) 4),
             (Nat.ltb_spec (S j) 4); try reflexivity; lia.
  - intros [|n] offer' Hn Hoffer' Hlow; [lia|].
    cbn [stagnating]. now rewrite respond_lower.
  - intros [|n] offer' Hn Hoffer' Hhigh; [lia|].
    cbn [stagnating]. rewrite respond_not_lower by assumption.
    do 2 f_equal.
    + apply Z.ltb_ge. lia.
    + f_equal. lia.
Qed.

Lemma strategic_rejector_stagnation_witness :
  0 <= 1 # 100
  /\ punishable (conceding_game 100) Player2 (1 # 100) 0 2
  /\ respond_all sample_exp (StrategicRejectorResponder_init 4 (1 # 100) 0)
       (repeat 2 7) (conceding_game 100) Player2 zero_draws
     = Ok ([true; true; true; true; false; false; false],
           StrategicRejectorResponder 4 (1 # 100) (Some 2) 6 0)
  /\ respond sample_exp (stagnating (1 # 100) 0 2 7) 1 (conceding_game 100)
       Player2 zero_draws
     = Ok (true, StrategicRejectorResponder 4 (1 # 100) (Some 1) 0 0).
Proof.
  assert (He : 0 <= 1 # 100) by (vm_compute; discriminate).
  assert (Ho : punishable (conceding_game 100) Player2 (1 # 100) 0 2)
    by (split; vm_compute; [reflexivity | discriminate]).
  destruct (strategic_rejector_stagnation sample_exp (conceding_game 100)
              Player2 zero_draws (1 # 100) 0 2 He Ho) as (H1 & H2 & _).
  split; [exact He|]. split; [exact Ho|]. split.
  - exact (H1 7%nat).
  - apply (H2 7%nat 1).
    + apply Nat.leb_le. reflexivity.
    + split; vm_compute; [reflexivity | discriminate].
    + vm_compute. reflexivity.
Defined.

(** The claim as stated fails in its last part: a changed offer resets the
    streak only when it is lower by more than epsilon.  After five offers
    of 2, an offer of 3 is rejected and the streak goes on to 5. *)
Lemma changed_offer_does_not_reset_streak :
  punishable (conceding_game 100) Player2 (1 # 100) 0 2
  /\ punishable (conceding_game 100) Player2 (1 # 100) 0 3
  /\ respond_all sample_exp (StrategicRejectorResponder_init 4 (1 # 100) 0)
       [2; 2; 2; 2; 2; 3] (conceding_game 100) Player2 zero_draws
     = Ok ([true; true; true; true; false; false],
           StrategicRejectorResponder 4 (1 # 100) (Some 3) 5 0).
Proof.
  split; [split; vm_compute; [reflexivity | discriminate]|].
  split; [split; vm_compute; [reflexivity | discriminate]|].
  vm_compute. reflexivity.
Qed.

(** ** The tit-for-tat responder under the engine (C5, C10) *)

Lemma as_utilitarian_get_player g k :
  get_player (as_utilitarian g) k = as_utilitarian_player (get_player g k).
Proof. now destruct k. Qed.

Lemma as_utilitarian_update_proposer g r ps :
  update_player (as_utilitarian g) r (fun q => set_proposer_strategy q ps)
  = as_utilitarian (update_player g r (fun q => set_proposer_strategy q ps)).
Proof. now destruct r. Qed.

Lemma as_utilitarian_update_responder g r rs :
  update_player (as_utilitarian g) r
    (fun q => set_responder_strategy q (as_utilitarian_strategy rs))
  = as_utilitarian (update_player g r (fun q => set_responder_strategy q rs)).
Proof. now destruct r. Qed.

Lemma as_utilitarian_notify_receiver g offer :
  notify_receiver (as_utilitarian g) offer
  = as_utilitarian (notify_receiver g offer).
Proof.
  unfold notify_receiver.
  change (receiver (as_utilitarian g)) with (receiver g).
  rewrite as_utilitarian_get_player.
  change (proposer_strategy (as_utilitarian_player ?q))
    with (proposer_strategy q).
  destruct (proposer_strategy (get_player g (receiver g))); try reflexivity.
  apply as_utilitarian_update_proposer.
Qed.

Lemma as_utilitarian_settle g offer accepted d :
  settle (as_utilitarian g) offer accepted d
  = as_utilitarian (settle g offer accepted d).
Proof.
  destruct g as [? ? ? ? ? ? reset ? ? ? ? pr rc ? ? ? ? ? ? ?].
  unfold settle. destruct accepted, reset, pr, rc; reflexivity.
Qed.

Lemma as_utilitarian_append_record g offer accepted :
  append_record (as_utilitarian g) offer accepted
  = as_utilitarian (append_record g offer accepted).
Proof.
  destruct g as [? ? ? ? ? ? ? ? ? ? ? pr ? ? ? ? ? ? ? ?].
  destruct pr; reflexivity.
Qed.

Lemma as_utilitarian_maybe_switch_roles g d :
  maybe_switch_roles (as_utilitarian g) d
  = as_utilitarian (maybe_switch_roles g d).
Proof.
  unfold maybe_switch_roles.
  change (p_current (as_utilitarian g)) with (p_current g).
  now destruct (Qltb _ _).
Qed.

(** A fresh [TitForTatResponder] answers as a [UtilitarianResponder], and
    neither changes. *)
Lemma as_utilitarian_respond math_exp s offer g r d :
  respond math_exp (as_utilitarian_strategy s) offer g r d
  = map_result (fun x => (fst x, as_utilitarian_strategy (snd x)))
      (respond math_exp s offer g r d).
Proof.
  destruct s as [| |[lo|]| |tol eps [prev|] streak floor]; cbn;
    try reflexivity.
  - destruct (Qltb _ _); [reflexivity|]. destruct (Qle_bool _ _); reflexivity.
  - destruct (Qltb _ _); [reflexivity|]. destruct (Qle_bool _ _); reflexivity.
Qed.

Lemma as_utilitarian_play_round math_exp g d :
  play_round math_exp (as_utilitarian g) d
  = map_result as_utilitarian (play_round math_exp g d).
Proof.
  unfold play_round, make_offer, respond_to_offer.
  change (proposer (as_utilitarian g)) with (proposer g).
  rewrite as_utilitarian_get_player.
  change (proposer_strategy (as_utilitarian_player ?q))
    with (proposer_strategy q).
  rewrite (propose_config (as_utilitarian g) g) by reflexivity.
  destruct (propose _ g _ d) as [[offer ps]|e]; cbn [bind map_result];
    [|reflexivity].
  rewrite as_utilitarian_update_proposer, as_utilitarian_notify_receiver.
  set (g2 := notify_receiver _ offer).
  change (receiver (as_utilitarian g2)) with (receiver g2).
  rewrite as_utilitarian_get_player.
  change (responder_strategy (as_utilitarian_player ?q))
    with (as_utilitarian_strategy (responder_strategy q)).
  rewrite (respond_config math_exp (as_utilitarian g2) g2) by reflexivity.
  rewrite as_utilitarian_respond.
  destruct (respond math_exp _ offer g2 _ d) as [[accepted rs]|e];
    cbn [bind map_result fst snd]; [|reflexivity].
  rewrite as_utilitarian_update_responder, as_utilitarian_settle,
    as_utilitarian_append_record.
  set (g5 := append_record _ offer accepted).
  change (proposer (as_utilitarian g5)) with (proposer g5).
  rewrite as_utilitarian_get_player.
  change (proposer_strategy (as_utilitarian_player ?q))
    with (proposer_strategy q).
  rewrite (receive_feedback_config (as_utilitarian g5) g5) by reflexivity.
  destruct (receive_feedback _ accepted offer g5) as [ps'|e];
    cbn [bind map_result]; [|reflexivity].
  now rewrite as_utilitarian_update_proposer,
    as_utilitarian_maybe_switch_roles.
Qed.

Lemma as_utilitarian_run math_exp n :
  forall rng g,
  run math_exp n rng (as_utilitarian g)
  = map_result as_utilitarian (run math_exp n rng g).
Proof.
  induction n as [|n IH]; intros rng g; cbn [run]; [reflexivity|].
  rewrite as_utilitarian_play_round.
  destruct (play_round math_exp g (rng O)) as [g1|e];
    cbn [bind map_result]; [apply IH | reflexivity].
Qed.

Lemma play_round_keeps_fresh_tit_for_tat math_exp g d g' k :
  proposer g <> receiver g ->
  responder_strategy (get_player g k) = TitForTatResponder None ->
  play_round math_exp g d = Ok g' ->
  responder_strategy (get_player g' k) = TitForTatResponder None.
Proof.
  intros Hroles Hk H.
  destruct (play_round_strategies _ _ _ _ Hroles H)
    as (offer & ps & accepted & rs & ps' & _ & Hr & _ & _ & S2 & S3 & _).
  destruct (other_player g k Hroles) as [-> | ->].
  - now rewrite S2.
  - rewrite Hk in Hr. cbn in Hr. injection Hr as _ <-. exact S3.
Qed.

(** C10.  The engine never calls the [receive_feedback] of a responder
    strategy.  So the [last_offer] of a [TitForTatResponder] created for a
    game stays [None] for the whole game, each of its answers is "accept
    iff the negated offer exceeds the player's flat cost plus
    [receiver_bad]", which is also the answer of a [UtilitarianResponder],
    and replacing it by a [UtilitarianResponder] changes nothing else in
    any run, successful or not. *)
Theorem tit_for_tat_responder_is_utilitarian_under_engine :
  forall (math_exp : Q -> Q) (n_rounds : nat) (rng : nat -> Draws)
         (g g' : Game) (k : PlayerRef),
  proposer g <> receiver g ->
  responder_strategy (get_player g k) = TitForTatResponder_init ->
  run math_exp n_rounds rng g = Ok g' ->
  responder_strategy (get_player g' k) = TitForTatResponder None
  /\ (forall (g0 : Game) (offer : Q) (d : Draws),
        exists accepted,
          respond math_exp (TitForTatResponder None) offer g0 k d
            = Ok (accepted, TitForTatResponder None)
          /\ respond math_exp UtilitarianResponder offer g0 k d
             = Ok (accepted, UtilitarianResponder)
          /\ (accepted = true <->
              (if PlayerRef_eqb k Player1 then player_1_bad g0
               else player_2_bad g0) + receiver_bad g0 < - offer))
  /\ (forall m rng0,
        run math_exp m rng0 (as_utilitarian g)
        = map_result as_utilitarian (run math_exp m rng0 g)).
Proof.
  intros math_exp n rng g g' k Hroles Hk H.
  split; [|split].
  - revert rng g Hroles Hk H.
    induction n as [|n IH]; intros rng g Hroles Hk H; cbn [run] in H.
    + now injection H as <-.
    + destruct (play_round math_exp g (rng O)) as [g1|e] eqn:E;
        cbn [bind] in H; [|discriminate H].
      exact (IH _ g1 (play_round_roles _ _ _ _ Hroles E)
               (play_round_keeps_fresh_tit_for_tat _ _ _ _ _ Hroles Hk E) H).
  - intros g0 offer d.
    exists (Qltb (respond_bad_utility g0 k) (- offer)).
    split; [reflexivity|]. split; [reflexivity|].
    unfold respond_bad_utility. rewrite Qltb_lt.
    destruct (PlayerRef_eqb k Player1); reflexivity.
  - intros m rng0. apply as_utilitarian_run.
Qed.

Lemma tit_for_tat_responder_is_utilitarian_under_engine_witness :
  exists g',
    proposer tit_for_tat_responder_game <> receiver tit_for_tat_responder_game
    /\ responder_strategy (get_player tit_for_tat_responder_game Player2)
       = TitForTatResponder_init
    /\ run sample_exp 3 zero_rng tit_for_tat_responder_game = Ok g'
    /\ responder_strategy (get_player g' Player2) = TitForTatResponder None
    /\ run sample_exp 3 zero_rng (as_utilitarian tit_for_tat_responder_game)
       = Ok (as_utilitarian g').
Proof.
  let t := eval vm_compute in
             (run sample_exp 3 zero_rng tit_for_tat_responder_game) in
  match t with Ok ?x => exists x end.
  match goal with
  | |- _ /\ _ /\ run _ _ _ _ = Ok ?x /\ _ =>
      destruct (tit_for_tat_responder_is_utilitarian_under_engine sample_exp
                  3 zero_rng tit_for_tat_responder_game x Player2)
        as (H1 & _ & H3);
        [discriminate | reflexivity | vm_compute; reflexivity |]
  end.
  split; [discriminate|]. split; [reflexivity|].
  split; [vm_compute; reflexivity|]. split; [exact H1|].
  rewrite H3. vm_compute. reflexivity.
Defined.

(** C5: the code at a failing input.  With a proposer that raises its
    offer after every acceptance, the [TitForTatResponder] of player 2
    accepts an offer of 0 (utility 0) in round 1 and then an offer of 3
    (utility -3) in round 2: the floor promised by its docstring is never
    set, because [last_offer] is still [None]. *)
Theorem tit_for_tat_responder_accepts_worse_offer :
  exists g' r1 r2,
    run sample_exp 2 zero_rng tit_for_tat_responder_game = Ok g'
    /\ history g' = [r1; r2]
    /\ rec_proposer r1 = "Player 1"%string /\ rec_accepted r1 = true
    /\ rec_proposer r2 = "Player 1"%string /\ rec_accepted r2 = true
    /\ rec_offer r1 == 0 /\ rec_offer r2 == 3
    /\ - rec_offer r2 < - rec_offer r1
    /\ responder_strategy (player2 g') = TitForTatResponder None.
Proof.
  let t := eval vm_compute in
             (run sample_exp 2 zero_rng tit_for_tat_responder_game) in
  match t with
  | Ok ?x => exists x;
             match eval vm_compute in (history x) with
             | [?r1; ?r2] => exists r1, r2
             end
  end.
  split; [vm_compute; reflexivity|].
  repeat split.
Qed.

(** * Further properties of the engine *)

(** ** Runs *)

(** A property kept by every successful round holds after every successful
    run. *)
Lemma run_invariant math_exp (P : Game -> Prop) :
  (forall g d g', P g -> play_round math_exp g d = Ok g' -> P g') ->
  forall n rng g g', P g -> run math_exp n rng g = Ok g' -> P g'.
Proof.
  intros Hstep n. induction n as [|n IH]; intros rng g g' HP H; cbn [run] in H.
  - now injection H as <-.
  - destruct (play_round math_exp g (rng O)) as [g1|e] eqn:E;
      cbn [bind] in H; [|discriminate H].
    exact (IH _ g1 g' (Hstep g (rng O) g1 HP E) H).
Qed.

(** The last round of a run. *)
Lemma run_snoc math_exp n :
  forall rng g,
  run math_exp (S n) rng g
  = bind (run math_exp n rng g) (fun g1 => play_round math_exp g1 (rng n)).
Proof.
  induction n as [|n IH]; intros rng g.
  - cbn [run bind]. now destruct (play_round math_exp g (rng O)).
  - change (run math_exp (S (S n)) rng g)
      with (bind (play_round math_exp g (rng O))
              (fun g1 => run math_exp (S n) (fun k => rng (S k)) g1)).
    change (run math_exp (S n) rng g)
      with (bind (play_round math_exp g (rng O))
              (fun g1 => run math_exp n (fun k => rng (S k)) g1)).
    destruct (play_round math_exp g (rng O)) as [g1|e]; cbn [bind];
      [|reflexivity].
    apply (IH (fun k => rng (S k)) g1).
Qed.

(** Runs compose. *)
Lemma run_add math_exp n m :
  forall rng g,
  run math_exp (n + m) rng g
  = bind (run math_exp n rng g)
      (fun g1 => run math_exp m (fun k => rng (n + k)%nat) g1).
Proof.
  induction n as [|n IH]; intros rng g.
  - reflexivity.
  - cbn [Nat.add run].
    destruct (play_round math_exp g (rng O)) as [g1|e]; cbn [bind];
      [|reflexivity].
    apply IH.
Qed.

(** ** What a run keeps: configuration, names, distinct roles *)

Lemma play_round_names math_exp g d g' :
  play_round math_exp g d = Ok g' -> names g' = names g.
Proof.
  intros H. apply play_round_inv in H.
  destruct H as (offer & ps & accepted & rs & ps' & _ & _ & _ & ->).
  set (g4 := after_answer g d offer ps accepted rs).
  assert (N4 : forall k, name (get_player g4 k) = name (get_player g k)).
  { intros k. unfold g4, after_answer.
    change (get_player (append_record ?x _ _) k) with (get_player x k).
    destruct (strategies_settle
                (update_player (after_offer g offer ps) (receiver g)
                   (fun q => set_responder_strategy q rs))
                offer accepted d k) as (-> & _).
    apply before_settle_players. }
  destruct (maybe_switch_roles_frame
              (update_player g4 (proposer g)
                 (fun q => set_proposer_strategy q ps')) d)
    as (_ & _ & _ & Mg).
  assert (N : forall k,
             name (get_player
                     (maybe_switch_roles
                        (update_player g4 (proposer g)
                           (fun q => set_proposer_strategy q ps')) d) k)
             = name (get_player g k)).
  { intros k. rewrite Mg, get_player_update_player, <- N4.
    destruct (PlayerRef_eqb (proposer g) k) eqn:E; [|reflexivity].
    assert (proposer g = k) as <- by (now destruct (proposer g), k).
    reflexivity. }
  unfold names. exact (f_equal2 pair (N Player1) (N Player2)).
Qed.

(** X1.  A run never changes the configuration of the game (switching
    base and bump, costs, bounds, penalty ranges, flags) nor the names of
    the players, and the two roles stay with two distinct players. *)
Theorem run_keeps_configuration :
  forall (math_exp : Q -> Q) (n_rounds : nat) (rng : nat -> Draws)
         (g g' : Game),
  run math_exp n_rounds rng g = Ok g' ->
  config g' = config g
  /\ names g' = names g
  /\ (proposer g <> receiver g -> proposer g' <> receiver g').
Proof.
  intros math_exp n rng g g' H.
  refine (run_invariant math_exp
            (fun x => config x = config g /\ names x = names g
                      /\ (proposer g <> receiver g ->
                          proposer x <> receiver x))
            _ n rng g g' _ H); [|auto].
  intros g0 d g1 (Hc & Hn & Hr) E.
  destruct (play_round_engine _ _ _ _ E)
    as (offer & ps & accepted & rs & r & _ & _ & Hc1 & _).
  split; [congruence|]. split.
  - rewrite (play_round_names _ _ _ _ E). exact Hn.
  - intros Hroles. exact (play_round_roles _ _ _ _ (Hr Hroles) E).
Qed.

Lemma run_keeps_configuration_witness :
  exists g',
    run sample_exp 4 zero_rng (drifting_game (1 # 2) (3 # 10) 100) = Ok g'
    /\ config g' = config (drifting_game (1 # 2) (3 # 10) 100)
    /\ names g' = names (drifting_game (1 # 2) (3 # 10) 100).
Proof.
  let t := eval vm_compute in
             (run sample_exp 4 zero_rng (drifting_game (1 # 2) (3 # 10) 100)) in
  match t with Ok ?x => exists x end.
  match goal with
  | |- run _ _ _ _ = Ok ?x /\ _ =>
      destruct (run_keeps_configuration sample_exp 4 zero_rng
                  (drifting_game (1 # 2) (3 # 10) 100) x)
        as (Hc & Hn & _); [vm_compute; reflexivity|]
  end.
  split; [vm_compute; reflexivity|]. split; [exact Hc | exact Hn].
Defined.

(** ** The history *)

(** X2.  The history is append-only: a run of [n] rounds adds exactly [n]
    records after the existing ones, numbered consecutively from the old
    length plus one. *)
Theorem run_appends_numbered_records :
  forall (math_exp : Q -> Q) (n_rounds : nat) (rng : nat -> Draws)
         (g g' : Game),
  run math_exp n_rounds rng g = Ok g' ->
  exists new,
    history g' = history g ++ new
    /\ List.length new = n_rounds
    /\ forall i r,
         nth_error new i = Some r ->
         rec_round r = (List.length (history g) + i + 1)%nat.
Proof.
  intros math_exp n. induction n as [|n IH]; intros rng g g' H; cbn [run] in H.
  - injection H as <-. exists []. rewrite app_nil_r.
    split; [reflexivity|]. split; [reflexivity|].
    intros [|i] r Hr; discriminate Hr.
  - destruct (play_round math_exp g (rng O)) as [g1|e] eqn:E;
      cbn [bind] in H; [|discriminate H].
    destruct (play_round_engine _ _ _ _ E)
      as (offer & ps & accepted & rs & r & _ & _ & _ & _ & Hh & Hn & _).
    destruct (IH _ g1 g' H) as (new & Hh' & Hlen & Hnum).
    exists (r :: new). rewrite Hh', Hh, <- app_assoc.
    split; [reflexivity|]. split; [cbn; now rewrite Hlen|].
    intros [|i] r' Hr'; cbn in Hr'.
    + injection Hr' as <-. rewrite Hn. lia.
    + rewrite (Hnum i r' Hr'), Hh, length_app. cbn. lia.
Qed.

Lemma run_appends_numbered_records_witness :
  exists g' new,
    run sample_exp 3 zero_rng (conceding_game 100) = Ok g'
    /\ history g' = history (conceding_game 100) ++ new
    /\ List.length new = 3%nat
    /\ map rec_round new = [1; 2; 3]%nat.
Proof.
  let t := eval vm_compute in (run sample_exp 3 zero_rng (conceding_game 100)) in
  match t with Ok ?x => exists x end.
  match goal with
  | |- exists new, run _ _ _ _ = Ok ?x /\ _ =>
      destruct (run_appends_numbered_records sample_exp 3 zero_rng
                  (conceding_game 100) x)
        as (new & Hh & Hlen & Hnum); [vm_compute; reflexivity|]
  end.
  exists new.
  split; [vm_compute; reflexivity|]. split; [exact Hh|]. split; [exact Hlen|].
  destruct new as [|r1 [|r2 [|r3 [|r4 new]]]]; try discriminate Hlen.
  cbn [map].
  rewrite (Hnum 0%nat r1 eq_refl), (Hnum 1%nat r2 eq_refl),
    (Hnum 2%nat r3 eq_refl).
  reflexivity.
Defined.

(** X3.  After a run of at least one round the last history record holds
    the final utilities of both players and the current switching
    probability: the totals can be read off the history. *)
Theorem last_record_holds_final_state :
  forall (math_exp : Q -> Q) (n : nat) (rng : nat -> Draws) (g g' : Game),
  run math_exp (S n) rng g = Ok g' ->
  exists h r,
    history g' = h ++ [r]
    /\ rec_player1_utility r = utility (player1 g')
    /\ rec_player2_utility r = utility (player2 g')
    /\ rec_next_round_switching_prob r = p_current g'.
Proof.
  intros math_exp n rng g g' H. rewrite run_snoc in H.
  destruct (run math_exp n rng g) as [g1|e]; cbn [bind] in H;
    [|discriminate H].
  destruct (play_round_engine _ _ _ _ H)
    as (offer & ps & accepted & rs & r & _ & _ & _ & _ & Hh & _ & _ & _
        & H1 & H2 & H3 & _).
  exists (history g1), r. auto.
Qed.

Lemma last_record_holds_final_state_witness :
  exists g' h r,
    run sample_exp 3 zero_rng (conceding_game 100) = Ok g'
    /\ history g' = h ++ [r]
    /\ rec_player1_utility r = utility (player1 g')
    /\ rec_player2_utility r = utility (player2 g').
Proof.
  let t := eval vm_compute in (run sample_exp 3 zero_rng (conceding_game 100)) in
  match t with Ok ?x => exists x end.
  match goal with
  | |- exists h r, run _ _ _ _ = Ok ?x /\ _ =>
      destruct (last_record_holds_final_state sample_exp 2 zero_rng
                  (conceding_game 100) x)
        as (h & r & Hh & H1 & H2 & _); [vm_compute; reflexivity|]
  end.
  exists h, r.
  split; [vm_compute; reflexivity|]. auto.
Defined.

(** ** Role switching *)

Lemma play_round_proposer_name math_exp g d g' :
  play_round math_exp g d = Ok g' ->
  exists r,
    history g' = history g ++ [r]
    /\ rec_proposer r = name (get_player g (proposer g)).
Proof.
  intros H. apply play_round_inv in H.
  destruct H as (offer & ps & accepted & rs & ps' & _ & _ & _ & ->).
  destruct (after_answer_frame g d offer ps accepted rs)
    as (_ & _ & _ & _ & r & Hh & _ & Hn & _).
  destruct (maybe_switch_roles_frame
              (update_player (after_answer g d offer ps accepted rs)
                 (proposer g) (fun q => set_proposer_strategy q ps')) d)
    as (_ & _ & Mh & _).
  destruct (engine_state_eq _ _
              (engine_state_update_player
                 (after_answer g d offer ps accepted rs) (proposer g)
                 (fun q => set_proposer_strategy q ps')))
    as (_ & _ & _ & _ & Uh).
  exists r. split.
  - now rewrite Mh, Uh.
  - rewrite Hn. unfold after_answer.
    change (get_player (append_record ?x _ _) ?k) with (get_player x k).
    destruct (strategies_settle
                (update_player (after_offer g offer ps) (receiver g)
                   (fun q => set_responder_strategy q rs))
                offer accepted d (proposer g)) as (-> & _).
    apply before_settle_players.
Qed.


Lemma names_get_player g g' k :
  names g' = names g -> name (get_player g' k) = name (get_player g k).
Proof.
  unfold names. intros H. injection H as H1 H2. now destruct k.
Qed.

Lemma play_round_no_switch math_exp g d g' :
  p_base g == 0 -> p_current g == 0 -> p_reject_bump g == 0 ->
  0 <= switch_draw d ->
  play_round math_exp g d = Ok g' ->
  proposer g' = proposer g /\ receiver g' = receiver g /\ p_current g' == 0.
Proof.
  intros Hb Hc Hbump Hd H.
  destruct (play_round_engine _ _ _ _ H)
    as (offer & ps & accepted & rs & r & _ & _ & _ & Hpc & _ & _ & _ & _
        & _ & _ & _ & Hsw & _).
  assert (Hc' : p_current g' == 0).
  { rewrite Hpc. destruct accepted.
    - now destruct (p_reset_on_accept g).
    - destruct (py_min_spec 1 (p_current g + p_reject_bump g))
        as [[_ ->]|[E ->]]; lra. }
  assert (Hno : Qltb (switch_draw d) (p_current g') = false)
    by (apply Qltb_ge; lra).
  rewrite Hno in Hsw. injection Hsw as -> ->. auto.
Qed.

(** X5.  With a switching probability of zero and no bump, and role-switch
    variates in [[0, 1)], the roles never change: the first proposer
    proposes in every round of the run. *)
Theorem zero_probability_never_switches :
  forall (math_exp : Q -> Q) (n_rounds : nat) (rng : nat -> Draws)
         (g g' : Game),
  p_base g == 0 -> p_current g == 0 -> p_reject_bump g == 0 ->
  switch_draws_in_range rng ->
  run math_exp n_rounds rng g = Ok g' ->
  proposer g' = proposer g
  /\ receiver g' = receiver g
  /\ exists new,
       history g' = history g ++ new
       /\ Forall (fun r => rec_proposer r = name (get_player g (proposer g)))
            new.
Proof.
  intros math_exp n. induction n as [|n IH];
    intros rng g g' Hb Hc Hbump Hrng H; cbn [run] in H.
  - injection H as <-. split; [reflexivity|]. split; [reflexivity|].
    exists []. now rewrite app_nil_r.
  - destruct (play_round math_exp g (rng O)) as [g1|e] eqn:E;
      cbn [bind] in H; [|discriminate H].
    destruct (play_round_no_switch _ _ _ _ Hb Hc Hbump (proj1 (Hrng O)) E)
      as (Hp1 & Hr1 & Hc1).
    destruct (play_round_engine _ _ _ _ E)
      as (_ & _ & _ & _ & _ & _ & _ & Hcfg & _).
    destruct (config_p_fields _ _ Hcfg) as (Eb & Ebump & _).
    destruct (play_round_proposer_name _ _ _ _ E) as (r & Hh & Hn).
    assert (Hrng1 : switch_draws_in_range (fun k => rng (S k)))
      by (intros k; apply Hrng).
    rewrite <- Eb in Hb. rewrite <- Ebump in Hbump.
    destruct (IH _ g1 g' Hb Hc1 Hbump Hrng1 H)
      as (Hp' & Hr' & new & Hh' & Hall).
    split; [congruence|]. split; [congruence|].
    exists (r :: new). rewrite Hh', Hh, <- app_assoc.
    split; [reflexivity|].
    constructor; [exact Hn|].
    rewrite Hp1 in Hall.
    rewrite (names_get_player g g1 (proposer g)
               (play_round_names _ _ _ _ E)) in Hall.
    exact Hall.
Qed.

Lemma zero_probability_never_switches_witness :
  exists g',
    p_base (conceding_game 100) == 0
    /\ p_current (conceding_game 100) == 0
    /\ p_reject_bump (conceding_game 100) == 0
    /\ switch_draws_in_range zero_rng
    /\ run sample_exp 4 zero_rng (conceding_game 100) = Ok g'
    /\ proposer g' = Player1
    /\ map rec_proposer (history g')
       = ["Player 1"; "Player 1"; "Player 1"; "Player 1"]%string.
Proof.
  let t := eval vm_compute in (run sample_exp 4 zero_rng (conceding_game 100)) in
  match t with Ok ?x => exists x end.
  assert (Hrng : switch_draws_in_range zero_rng).
  { intros k. split; vm_compute; [discriminate | reflexivity]. }
  match goal with
  | |- _ /\ _ /\ _ /\ _ /\ run _ _ _ _ = Ok ?x /\ _ =>
      destruct (zero_probability_never_switches sample_exp 4 zero_rng
                  (conceding_game 100) x)
        as (Hp & _ & _);
        [reflexivity | reflexivity | reflexivity | exact Hrng
        | vm_compute; reflexivity |]
  end.
  split; [reflexivity|]. split; [reflexivity|]. split; [reflexivity|].
  split; [exact Hrng|]. split; [vm_compute; reflexivity|].
  split; [exact Hp | reflexivity].
Defined.

Lemma play_round_switches math_exp g d g' :
  p_base g == 1 -> p_current g == 1 -> 0 <= p_reject_bump g ->
  switch_draw d < 1 ->
  play_round math_exp g d = Ok g' ->
  proposer g' = receiver g /\ receiver g' = proposer g /\ p_current g' == 1.
Proof.
  intros Hb Hc Hbump Hd H.
  destruct (play_round_engine _ _ _ _ H)
    as (offer & ps & accepted & rs & r & _ & _ & _ & Hpc & _ & _ & _ & _
        & _ & _ & _ & Hsw & _).
  assert (Hc' : p_current g' == 1).
  { rewrite Hpc. destruct accepted.
    - now destruct (p_reset_on_accept g).
    - destruct (py_min_spec 1 (p_current g + p_reject_bump g))
        as [[E ->]|[_ ->]]; lra. }
  assert (Hyes : Qltb (switch_draw d) (p_current g') = true)
    by (apply Qltb_lt; lra).
  rewrite Hyes in Hsw. injection Hsw as -> ->. auto.
Qed.

(** X6.  With a switching probability of one, a non-negative bump and
    role-switch variates in [[0, 1)], the roles are exchanged after every
    round: after [n] rounds the first proposer proposes again iff [n] is
    even. *)
Theorem unit_probability_alternates :
  forall (math_exp : Q -> Q) (n_rounds : nat) (rng : nat -> Draws)
         (g g' : Game),
  p_base g == 1 -> p_current g == 1 -> 0 <= p_reject_bump g ->
  switch_draws_in_range rng ->
  run math_exp n_rounds rng g = Ok g' ->
  proposer g' = alternate n_rounds (proposer g) (receiver g)
  /\ receiver g' = alternate n_rounds (receiver g) (proposer g).
Proof.
  intros math_exp n. induction n as [|n IH];
    intros rng g g' Hb Hc Hbump Hrng H.
  - cbn [run] in H. injection H as <-. now split.
  - cbn [run] in H.
    destruct (play_round math_exp g (rng O)) as [g1|e] eqn:E;
      cbn [bind] in H; [|discriminate H].
    destruct (play_round_switches _ _ _ _ Hb Hc Hbump (proj2 (Hrng O)) E)
      as (Hp1 & Hr1 & Hc1).
    destruct (play_round_engine _ _ _ _ E)
      as (_ & _ & _ & _ & _ & _ & _ & Hcfg & _).
    destruct (config_p_fields _ _ Hcfg) as (Eb & Ebump & _).
    assert (Hrng1 : switch_draws_in_range (fun k => rng (S k)))
      by (intros k; apply Hrng).
    rewrite <- Eb in Hb. rewrite <- Ebump in Hbump.
    destruct (IH _ g1 g' Hb Hc1 Hbump Hrng1 H) as (Hp' & Hr').
    rewrite Hp1, Hr1 in Hp', Hr'.
    unfold alternate in *. rewrite Nat.even_succ, <- Nat.negb_even.
    destruct (Nat.even n); cbn [negb]; auto.
Qed.

Lemma unit_probability_alternates_witness :
  exists g',
    p_base (drifting_game 1 (3 # 10) 100) == 1
    /\ p_current (drifting_game 1 (3 # 10) 100) == 1
    /\ 0 <= p_reject_bump (drifting_game 1 (3 # 10) 100)
    /\ switch_draws_in_range zero_rng
    /\ run sample_exp 3 zero_rng (drifting_game 1 (3 # 10) 100) = Ok g'
    /\ proposer g' = Player2 /\ receiver g' = Player1.
Proof.
  let t := eval vm_compute in
             (run sample_exp 3 zero_rng (drifting_game 1 (3 # 10) 100)) in
  match t with Ok ?x => exists x end.
  assert (Hrng : switch_draws_in_range zero_rng).
  { intros k. split; vm_compute; [discriminate | reflexivity]. }
  assert (Hbump : 0 <= p_reject_bump (drifting_game 1 (3 # 10) 100))
    by (vm_compute; discriminate).
  match goal with
  | |- _ /\ _ /\ _ /\ _ /\ run _ _ _ _ = Ok ?x /\ _ =>
      destruct (unit_probability_alternates sample_exp 3 zero_rng
                  (drifting_game 1 (3 # 10) 100) x)
        as (Hp & Hr);
        [reflexivity | reflexivity | exact Hbump | exact Hrng
        | vm_compute; reflexivity |]
  end.
  split; [reflexivity|]. split; [reflexivity|]. split; [exact Hbump|].
  split; [exact Hrng|]. split; [vm_compute; reflexivity|].
  split; [exact Hp | exact Hr].
Defined.

(** X7.  With a non-negative bump, a switching probability that starts
    between its base and one stays between its base and one, whatever the
    answers: rejections never push it above one and acceptances never
    take it below the base. *)
Theorem switching_probability_stays_above_base :
  forall (math_exp : Q -> Q) (n_rounds : nat) (rng : nat -> Draws)
         (g g' : Game),
  0 <= p_reject_bump g -> p_base g <= p_current g -> p_current g <= 1 ->
  run math_exp n_rounds rng g = Ok g' ->
  p_base g <= p_current g' /\ p_current g' <= 1.
Proof.
  intros math_exp n. induction n as [|n IH];
    intros rng g g' Hbump Hbc Hc1 H; cbn [run] in H.
  - injection H as <-. split; [exact Hbc | exact Hc1].
  - destruct (play_round math_exp g (rng O)) as [g1|e] eqn:E;
      cbn [bind] in H; [|discriminate H].
    destruct (play_round_engine _ _ _ _ E)
      as (offer & ps & accepted & rs & r & _ & _ & Hcfg & Hpc & _).
    destruct (config_p_fields _ _ Hcfg) as (Eb & Ebump & _).
    assert (Hstep : p_base g <= p_current g1 /\ p_current g1 <= 1).
    { rewrite Hpc. destruct accepted.
      - destruct (p_reset_on_accept g); split; lra.
      - destruct (py_min_spec 1 (p_current g + p_reject_bump g))
          as [[? ->]|[? ->]]; split; lra. }
    destruct Hstep as [S1 S2].
    rewrite <- Eb in S1. rewrite <- Ebump in Hbump.
    destruct (IH _ g1 g' Hbump S1 S2 H) as (B1 & B2).
    rewrite Eb in B1. split; [exact B1 | exact B2].
Qed.

Lemma switching_probability_stays_above_base_witness :
  exists g',
    0 <= p_reject_bump (drifting_game (1 # 5) (1 # 10) 100)
    /\ p_base (drifting_game (1 # 5) (1 # 10) 100)
       <= p_current (drifting_game (1 # 5) (1 # 10) 100)
    /\ p_current (drifting_game (1 # 5) (1 # 10) 100) <= 1
    /\ run sample_exp 3 zero_rng (drifting_game (1 # 5) (1 # 10) 100) = Ok g'
    /\ 1 # 5 <= p_current g'
    /\ p_current g' <= 1.
Proof.
  let t := eval vm_compute in
             (run sample_exp 3 zero_rng (drifting_game (1 # 5) (1 # 10) 100)) in
  match t with Ok ?x => exists x end.
  assert (H1 : 0 <= p_reject_bump (drifting_game (1 # 5) (1 # 10) 100))
    by (vm_compute; discriminate).
  assert (H2 : p_base (drifting_game (1 # 5) (1 # 10) 100)
               <= p_current (drifting_game (1 # 5) (1 # 10) 100))
    by (vm_compute; discriminate).
  assert (H3 : p_current (drifting_game (1 # 5) (1 # 10) 100) <= 1)
    by (vm_compute; discriminate).
  match goal with
  | |- _ /\ _ /\ _ /\ run _ _ _ _ = Ok ?x /\ _ =>
      destruct (switching_probability_stays_above_base sample_exp 3 zero_rng
                  (drifting_game (1 # 5) (1 # 10) 100) x H1 H2 H3)
        as (B1 & B2); [vm_compute; reflexivity|]
  end.
  split; [exact H1|]. split; [exact H2|]. split; [exact H3|].
  split; [vm_compute; reflexivity|]. split; [exact B1 | exact B2].
Defined.

(** * Further properties of the proposers *)

(** ** Clamping *)

Lemma clamp_above_floor lo hi x : lo <= py_max lo (py_min x hi).
Proof.
  destruct (py_max_spec lo (py_min x hi)) as [[H ->]|[H ->]]; lra.
Qed.

Lemma clamp_monotone lo hi x y :
  x <= y -> py_max lo (py_min x hi) <= py_max lo (py_min y hi).
Proof.
  intros Hxy. unfold py_max, py_min.
  destruct (Qltb hi x) eqn:E1; [apply Qltb_lt in E1 | apply Qltb_ge in E1];
    (destruct (Qltb hi y) eqn:E2;
     [apply Qltb_lt in E2 | apply Qltb_ge in E2]).
  all: repeat match goal with
         | |- context [Qltb ?a ?b] =>
             let E := fresh "E" in
             destruct (Qltb a b) eqn:E;
             [apply Qltb_lt in E | apply Qltb_ge in E]; cbv beta iota
         end; lra.
Qed.

Lemma clamp_at_floor lo hi x :
  x <= lo -> lo <= hi -> py_max lo (py_min x hi) = lo.
Proof.
  intros Hx Hb. unfold py_min.
  destruct (Qltb hi x) eqn:E; [apply Qltb_lt in E; lra|].
  unfold py_max. destruct (Qltb lo x) eqn:E'; [apply Qltb_lt in E'; lra|].
  reflexivity.
Qed.

(** ** The driver *)

Lemma negotiate_app s l1 l2 g k :
  forall rng,
  negotiate s (l1 ++ l2) g k rng
  = bind (negotiate s l1 g k rng)
      (fun x =>
         bind (negotiate (snd x) l2 g k
                 (fun i => rng (List.length l1 + i)%nat))
           (fun y => Ok (fst x ++ fst y, snd y))).
Proof.
  revert s. induction l1 as [|a l1 IH]; intros s rng.
  - cbn [app negotiate bind fst snd List.length Nat.add].
    destruct (negotiate s l2 g k _) as [[o2 s2]|e]; reflexivity.
  - cbn [app negotiate].
    destruct (propose s g k (rng O)) as [[offer s1]|e]; cbn [bind];
      [|reflexivity].
    destruct (receive_feedback s1 a offer g) as [s2|e]; cbn [bind];
      [|reflexivity].
    rewrite IH.
    destruct (negotiate s2 l1 g k _) as [[o1 s3]|e]; cbn [bind fst snd];
      [|reflexivity].
    cbn [List.length Nat.add].
    destruct (negotiate s3 l2 g k _) as [[o2 s4]|e]; reflexivity.
Qed.

(** ** The conceding proposer *)

Lemma negotiate_conceding dec g k answers :
  0 <= dec ->
  forall c rng,
  exists offers c',
    negotiate (ConcedingProposer c dec) answers g k rng
      = Ok (offers, ConcedingProposer c' dec)
    /\ List.length offers = List.length answers
    /\ (forall o, nth_error offers 0 = Some o ->
                  o = py_max (min_offer g) (py_min c (max_offer g)))
    /\ (forall i a b,
          nth_error offers i = Some a -> nth_error offers (S i) = Some b ->
          b <= a /\ (nth_error answers i = Some true -> b = a)).
Proof.
  intros Hdec. induction answers as [|a answers IH]; intros c rng.
  - exists [], c. cbn [negotiate].
    split; [reflexivity|]. split; [reflexivity|].
    split; [discriminate|]. intros [|i]; discriminate.
  - cbn [negotiate propose bind receive_feedback].
    destruct (IH (if a then c else c - dec) (fun i => rng (S i)))
      as (offers & c' & Hn & Hlen & Hhd & Hsorted).
    exists (py_max (min_offer g) (py_min c (max_offer g)) :: offers), c'.
    split.
    { destruct a; cbn [negb bind]; rewrite Hn; reflexivity. }
    split; [cbn; now rewrite Hlen|].
    split; [intros o Ho; now injection Ho as <-|].
    intros [|i] x y Hx Hy; cbn [nth_error] in Hx, Hy.
    + injection Hx as <-. rewrite (Hhd y Hy).
      destruct a; cbn [nth_error].
      * split; [lra | reflexivity].
      * split; [apply clamp_monotone; lra | discriminate].
    + cbn [nth_error]. exact (Hsorted i x y Hx Hy).
Qed.

(** X8.  A conceding proposer with a non-negative decrement never raises
    and never offers below [min_offer]; each offer is at most the one
    before, and equal to it when that one was accepted. *)
Theorem conceding_offers_never_rise :
  forall (c dec : Q) (answers : list bool) (g : Game) (k : PlayerRef)
         (rng : nat -> Draws),
  0 <= dec ->
  exists offers s',
    negotiate (ConcedingProposer_init c dec) answers g k rng = Ok (offers, s')
    /\ List.length offers = List.length answers
    /\ Forall (fun o => min_offer g <= o) offers
    /\ (forall i a b,
          nth_error offers i = Some a -> nth_error offers (S i) = Some b ->
          b <= a /\ (nth_error answers i = Some true -> b = a)).
Proof.
  intros c dec answers g k rng Hdec.
  destruct (negotiate_conceding dec g k answers Hdec c rng)
    as (offers & c' & Hn & Hlen & _ & Hsorted).
  exists offers, (ConcedingProposer c' dec).
  split; [exact Hn|]. split; [exact Hlen|]. split; [|exact Hsorted].
  clear Hlen Hsorted. revert c rng offers c' Hn.
  induction answers as [|a answers IH]; intros c rng offers c' Hn.
  - cbn in Hn. injection Hn as <- _. constructor.
  - cbn [negotiate ConcedingProposer_init propose bind receive_feedback] in Hn.
    destruct a; cbn [negb bind] in Hn;
      match type of Hn with
      | bind ?m _ = _ => destruct m as [[os s3]|e] eqn:E; cbn [bind] in Hn;
                         [|discriminate Hn]
      end;
      injection Hn as <- ->;
      (constructor; [apply clamp_above_floor | exact (IH _ _ _ _ E)]).
Qed.

Lemma conceding_offers_never_rise_witness :
  0 <= 10
  /\ exists offers s',
       negotiate (ConcedingProposer_init 30 10) [false; true; false; false]
         (conceding_game 100) Player1 zero_rng = Ok (offers, s')
       /\ Forall (fun o => min_offer (conceding_game 100) <= o) offers.
Proof.
  assert (H : 0 <= 10) by (vm_compute; discriminate).
  split; [exact H|].
  destruct (conceding_offers_never_rise 30 10 [false; true; false; false]
              (conceding_game 100) Player1 zero_rng H)
    as (offers & s' & Hn & _ & Hall & _).
  exists offers, s'. split; [exact Hn | exact Hall].
Defined.


Lemma negotiate_conceding_at_floor dec g k answers :
  0 <= dec -> min_offer g <= max_offer g ->
  forall c rng,
  c <= min_offer g ->
  exists offers s',
    negotiate (ConcedingProposer c dec) answers g k rng = Ok (offers, s')
    /\ List.length offers = List.length answers
    /\ Forall (fun o => o = min_offer g) offers.
Proof.
  intros Hdec Hb. induction answers as [|a answers IH]; intros c rng Hc.
  - exists [], (ConcedingProposer c dec). repeat split. constructor.
  - cbn [negotiate propose bind receive_feedback].
    assert (Hc' : (if a then c else c - dec) <= min_offer g)
      by (destruct a; lra).
    destruct (IH _ (fun i => rng (S i)) Hc')
      as (offers & s' & Hn & Hlen & Hall).
    exists (py_max (min_offer g) (py_min c (max_offer g)) :: offers), s'.
    split.
    { destruct a; cbn [negb bind]; rewrite Hn; reflexivity. }
    split; [cbn; now rewrite Hlen|].
    constructor; [now apply clamp_at_floor | exact Hall].
Qed.

(** X9.  Once the rejections have taken a conceding proposer's current
    offer down to [min_offer] or below, every later offer is exactly
    [min_offer], whatever the answers. *)
Theorem conceding_reaches_floor :
  forall (c dec : Q) (answers later : list bool) (g : Game) (k : PlayerRef)
         (rng : nat -> Draws) (offers : list Q) (current : Q),
  0 <= dec ->
  min_offer g <= max_offer g ->
  negotiate (ConcedingProposer_init c dec) answers g k rng
    = Ok (offers, ConcedingProposer current dec) ->
  current <= min_offer g ->
  exists rest s',
    negotiate (ConcedingProposer_init c dec) (answers ++ later) g k rng
      = Ok (offers ++ rest, s')
    /\ List.length rest = List.length later
    /\ Forall (fun o => o = min_offer g) rest.
Proof.
  intros c dec answers later g k rng offers current Hdec Hb H Hfloor.
  destruct (negotiate_conceding_at_floor dec g k later Hdec Hb current
              (fun i => rng (List.length answers + i)%nat) Hfloor)
    as (rest & s' & H2 & Hlen2 & Hall).
  exists rest, s'.
  split; [|auto].
  rewrite negotiate_app, H. cbn [bind fst snd]. rewrite H2. reflexivity.
Qed.

Lemma conceding_reaches_floor_witness :
  exists offers current rest s',
    0 <= 10
    /\ min_offer (conceding_game 100) <= max_offer (conceding_game 100)
    /\ negotiate (ConcedingProposer_init 25 10) [false; false; false]
         (conceding_game 100) Player1 zero_rng
       = Ok (offers, ConcedingProposer current 10)
    /\ current <= min_offer (conceding_game 100)
    /\ negotiate (ConcedingProposer_init 25 10)
         ([false; false; false] ++ [true; false]) (conceding_game 100) Player1
         zero_rng = Ok (offers ++ rest, s')
    /\ Forall (fun o => o = min_offer (conceding_game 100)) rest.
Proof.
  assert (H1 : 0 <= 10) by (vm_compute; discriminate).
  assert (H2 : min_offer (conceding_game 100) <= max_offer (conceding_game 100))
    by (vm_compute; discriminate).
  let t := eval vm_compute in
             (negotiate (ConcedingProposer_init 25 10) [false; false; false]
                (conceding_game 100) Player1 zero_rng) in
  match t with
  | Ok (?o, ConcedingProposer ?c _) => exists o, c
  end.
  match goal with
  | |- exists rest s', _ /\ _ /\ negotiate _ _ _ _ _ = Ok (?o, _ ?c _) /\ _ =>
      destruct (conceding_reaches_floor 25 10 [false; false; false]
                  [true; false] (conceding_game 100) Player1 zero_rng o c
                  H1 H2)
        as (rest & s' & Hn & _ & Hall);
        [vm_compute; reflexivity | vm_compute; discriminate |]
  end.
  exists rest, s'.
  split; [exact H1|]. split; [exact H2|].
  split; [vm_compute; reflexivity|]. split; [vm_compute; discriminate|].
  split; [exact Hn | exact Hall].
Defined.

(** ** The learning proposer *)

Lemma negotiate_learning step g k answers :
  forall c rng,
  exists offers c',
    negotiate (LearningProposer c step) answers g k rng
      = Ok (offers, LearningProposer c' step)
    /\ List.length offers = List.length answers
    /\ (forall o, nth_error offers 0 = Some o ->
                  o = py_max (min_offer g) (py_min c (max_offer g)))
    /\ (min_offer g <= max_offer g ->
        Forall (fun o => min_offer g <= o /\ o <= max_offer g) offers)
    /\ (0 <= step ->
        forall i a b,
        nth_error offers i = Some a -> nth_error offers (S i) = Some b ->
        (nth_error answers i = Some true -> a <= b)
        /\ (nth_error answers i = Some false -> b <= a)).
Proof.
  induction answers as [|a answers IH]; intros c rng.
  - exists [], c. cbn [negotiate].
    split; [reflexivity|]. split; [reflexivity|].
    split; [discriminate|]. split; [constructor|].
    intros _ [|i]; discriminate.
  - cbn [negotiate propose bind receive_feedback].
    destruct (IH (if a then c + step else c - step) (fun i => rng (S i)))
      as (offers & c' & Hn & Hlen & Hhd & Hin & Hstep).
    exists (py_max (min_offer g) (py_min c (max_offer g)) :: offers), c'.
    split.
    { destruct a; cbn [bind]; rewrite Hn; reflexivity. }
    split; [cbn; now rewrite Hlen|].
    split; [intros o Ho; now injection Ho as <-|].
    split.
    { intros Hb. constructor; [now apply clamp_within | now apply Hin]. }
    intros Hs [|i] x y Hx Hy; cbn [nth_error] in Hx, Hy.
    + injection Hx as <-. rewrite (Hhd y Hy). cbn [nth_error].
      destruct a; split; intros Ha; try discriminate Ha;
        apply clamp_monotone; lra.
    + cbn [nth_error]. exact (Hstep Hs i x y Hx Hy).
Qed.

(** X10.  A learning proposer never raises and its offers stay within the
    bounds of the game (when these are ordered); with a non-negative step
    the offer that follows an acceptance is at least the accepted one and
    the offer that follows a rejection is at most the rejected one. *)
Theorem learning_offers_follow_answers :
  forall (c step : Q) (answers : list bool) (g : Game) (k : PlayerRef)
         (rng : nat -> Draws),
  exists offers s',
    negotiate (LearningProposer_init c step) answers g k rng = Ok (offers, s')
    /\ List.length offers = List.length answers
    /\ (min_offer g <= max_offer g ->
        Forall (fun o => min_offer g <= o /\ o <= max_offer g) offers)
    /\ (0 <= step ->
        forall i a b,
        nth_error offers i = Some a -> nth_error offers (S i) = Some b ->
        (nth_error answers i = Some true -> a <= b)
        /\ (nth_error answers i = Some false -> b <= a)).
Proof.
  intros c step answers g k rng.
  destruct (negotiate_learning step g k answers c rng)
    as (offers & c' & Hn & Hlen & _ & Hin & Hstep).
  exists offers, (LearningProposer c' step).
  split; [exact Hn|]. split; [exact Hlen|]. split; [exact Hin | exact Hstep].
Qed.

Lemma learning_offers_follow_answers_witness :
  exists o1 o2 o3 s',
    negotiate (LearningProposer_init 40 5) [true; false; true]
      (conceding_game 100) Player1 zero_rng
      = Ok ([o1; o2; o3], s')
    /\ min_offer (conceding_game 100) <= o1
    /\ o1 <= max_offer (conceding_game 100)
    /\ o1 <= o2 /\ o3 <= o2.
Proof.
  destruct (learning_offers_follow_answers 40 5 [true; false; true]
              (conceding_game 100) Player1 zero_rng)
    as (offers & s' & Hn & Hlen & Hin & Hstep).
  destruct offers as [|o1 [|o2 [|o3 [|o4 offers]]]]; try discriminate Hlen.
  exists o1, o2, o3, s'.
  split; [exact Hn|].
  assert (Hb : min_offer (conceding_game 100) <= max_offer (conceding_game 100))
    by (vm_compute; discriminate).
  assert (Hs : 0 <= 5) by (vm_compute; discriminate).
  pose proof (Hin Hb) as Hall.
  apply Forall_inv in Hall. destruct Hall as (L1 & L2).
  split; [exact L1|]. split; [exact L2|].
  split.
  - exact (proj1 (Hstep Hs 0%nat o1 o2 eq_refl eq_refl) eq_refl).
  - exact (proj2 (Hstep Hs 1%nat o2 o3 eq_refl eq_refl) eq_refl).
Defined.

(** ** The tit-for-tat proposer *)

(** X11.  A [TitForTatProposer] held by the receiver records every
    non-zero offer made to its player and ignores zero offers; once it has
    recorded an offer, its own [propose] returns that offer, unclamped and
    in any game. *)
Theorem tit_for_tat_proposer_mirrors :
  forall (math_exp : Q -> Q) (g : Game) (d : Draws) (g' : Game)
         (last : option Q),
  proposer g <> receiver g ->
  proposer_strategy (get_player g (receiver g)) = TitForTatProposer last ->
  play_round math_exp g d = Ok g' ->
  exists r,
    history g' = history g ++ [r]
    /\ (rec_offer r == 0 ->
        proposer_strategy (get_player g' (receiver g)) = TitForTatProposer last)
    /\ (~ rec_offer r == 0 ->
        proposer_strategy (get_player g' (receiver g))
        = TitForTatProposer (Some (rec_offer r))
        /\ forall g0 k d0,
             propose (TitForTatProposer (Some (rec_offer r))) g0 k d0
             = Ok (rec_offer r, TitForTatProposer (Some (rec_offer r)))).
Proof.
  intros math_exp g d g' last Hroles Hk H.
  destruct (play_round_strategies _ _ _ _ Hroles H)
    as (offer & ps & accepted & rs & ps' & Hp & _ & _ & _ & _ & _ & S4).
  destruct (play_round_engine _ _ _ _ H)
    as (offer0 & ps0 & accepted0 & rs0 & r & Hp0 & _ & _ & _ & Hh & _ & Ho & _).
  rewrite Hp in Hp0. injection Hp0 as <- _.
  rewrite Hk in S4. exists r. rewrite Ho.
  split; [exact Hh|]. unfold observe_offer_from_opponent in S4.
  split.
  - intros Hz. apply Qeq_bool_iff in Hz. now rewrite Hz in S4.
  - intros Hnz.
    destruct (Qeq_bool offer 0) eqn:E;
      [apply Qeq_bool_iff in E; now elim Hnz|].
    split; [exact S4 | reflexivity].
Qed.

Lemma tit_for_tat_proposer_mirrors_witness :
  exists g' r,
    proposer mirrored_game <> receiver mirrored_game
    /\ proposer_strategy (get_player mirrored_game (receiver mirrored_game))
       = TitForTatProposer None
    /\ play_round sample_exp mirrored_game zero_draws = Ok g'
    /\ history g' = history mirrored_game ++ [r]
    /\ proposer_strategy (get_player g' Player2)
       = TitForTatProposer (Some (rec_offer r)).
Proof.
  let t := eval vm_compute in (play_round sample_exp mirrored_game zero_draws) in
  match t with Ok ?x => exists x end.
  match goal with
  | |- exists r, _ /\ _ /\ play_round _ _ _ = Ok ?x /\ _ =>
      destruct (tit_for_tat_proposer_mirrors sample_exp mirrored_game
                  zero_draws x None)
        as (r & Hh & _ & Hnz);
        [discriminate | reflexivity | vm_compute; reflexivity |]
  end.
  exists r.
  split; [discriminate|]. split; [reflexivity|].
  split; [vm_compute; reflexivity|]. split; [exact Hh|].
  apply Hnz.
  assert (Ho : map rec_offer (history mirrored_game ++ [r]) = [4]).
  { rewrite <- Hh. vm_compute. reflexivity. }
  cbn in Ho. injection Ho as ->. discriminate.
Defined.

Lemma play_round_mirrors_stay_fresh math_exp g d g' :
  proposer g <> receiver g ->
  (forall k, proposer_strategy (get_player g k) = TitForTatProposer None) ->
  play_round math_exp g d = Ok g' ->
  (forall k, proposer_strategy (get_player g' k) = TitForTatProposer None)
  /\ exists r, history g' = history g ++ [r] /\ rec_offer r = 0.
Proof.
  intros Hroles Hall H.
  destruct (play_round_strategies _ _ _ _ Hroles H)
    as (offer & ps & accepted & rs & ps' & Hp & _ & Hf & S1 & _ & _ & S4).
  destruct (play_round_engine _ _ _ _ H)
    as (offer0 & ps0 & accepted0 & rs0 & r & Hp0 & _ & _ & _ & Hh & _ & Ho & _).
  rewrite Hp in Hp0. injection Hp0 as <- _.
  rewrite Hall in Hp. cbn in Hp. injection Hp as <- <-.
  cbn in Hf. injection Hf as <-.
  rewrite Hall in S4. cbn in S4.
  split.
  - intros k. destruct (other_player g k Hroles) as [-> | ->]; assumption.
  - exists r. now split.
Qed.

(** X12.  Two tit-for-tat proposers that have observed nothing never get
    started: whoever proposes, every offer of the run is 0, and neither of
    them ever records an offer. *)
Theorem mirrors_only_offer_zero :
  forall (math_exp : Q -> Q) (n_rounds : nat) (rng : nat -> Draws)
         (g g' : Game),
  proposer g <> receiver g ->
  (forall k, proposer_strategy (get_player g k) = TitForTatProposer_init) ->
  run math_exp n_rounds rng g = Ok g' ->
  (forall k, proposer_strategy (get_player g' k) = TitForTatProposer None)
  /\ exists new,
       history g' = history g ++ new
       /\ List.length new = n_rounds
       /\ Forall (fun r => rec_offer r = 0) new.
Proof.
  intros math_exp n. induction n as [|n IH];
    intros rng g g' Hroles Hall H; cbn [run] in H.
  - injection H as <-. split; [exact Hall|].
    exists []. rewrite app_nil_r. repeat split. constructor.
  - destruct (play_round math_exp g (rng O)) as [g1|e] eqn:E;
      cbn [bind] in H; [|discriminate H].
    destruct (play_round_mirrors_stay_fresh _ _ _ _ Hroles Hall E)
      as (Hall1 & r & Hh & Ho).
    destruct (IH _ g1 g' (play_round_roles _ _ _ _ Hroles E) Hall1 H)
      as (Hall' & new & Hh' & Hlen & Hzero).
    split; [exact Hall'|].
    exists (r :: new). rewrite Hh', Hh, <- app_assoc.
    split; [reflexivity|]. split; [cbn; now rewrite Hlen|].
    now constructor.
Qed.

Lemma mirrors_only_offer_zero_witness :
  exists g' new,
    proposer mirror_game <> receiver mirror_game
    /\ (forall k, proposer_strategy (get_player mirror_game k)
                  = TitForTatProposer_init)
    /\ run sample_exp 3 zero_rng mirror_game = Ok g'
    /\ history g' = history mirror_game ++ new
    /\ Forall (fun r => rec_offer r = 0) new.
Proof.
  let t := eval vm_compute in (run sample_exp 3 zero_rng mirror_game) in
  match t with Ok ?x => exists x end.
  assert (Hall : forall k, proposer_strategy (get_player mirror_game k)
                           = TitForTatProposer_init)
    by (intros [|]; reflexivity).
  match goal with
  | |- exists new, _ /\ _ /\ run _ _ _ _ = Ok ?x /\ _ =>
      destruct (mirrors_only_offer_zero sample_exp 3 zero_rng mirror_game x)
        as (_ & new & Hh & _ & Hzero);
        [discriminate | exact Hall | vm_compute; reflexivity |]
  end.
  exists new.
  split; [discriminate|]. split; [exact Hall|].
  split; [vm_compute; reflexivity|]. split; [exact Hh | exact Hzero].
Defined.

(** ** Bisection against a utilitarian responder *)

Lemma respond_bad_utility_config g g' k :
  config g = config g' -> respond_bad_utility g k = respond_bad_utility g' k.
Proof.
  unfold config, respond_bad_utility. intros H.
  injection H as _ _ _ _ -> -> _ -> _ _ _ _ _ _. reflexivity.
Qed.

Lemma bisect_round math_exp g d g' low high last :
  proposer g <> receiver g ->
  proposer_strategy (get_player g (proposer g))
    = BinarySearchProposer low high last ->
  responder_strategy (get_player g (receiver g)) = UtilitarianResponder ->
  low <= high ->
  play_round math_exp g d = Ok g' ->
  exists low' high' last' r,
    proposer_strategy (get_player g' (proposer g))
      = BinarySearchProposer low' high' last'
    /\ responder_strategy (get_player g' (receiver g)) = UtilitarianResponder
    /\ low <= low' /\ low' <= high' /\ high' <= high
    /\ (low < threshold g (receiver g) /\ threshold g (receiver g) <= high ->
        low' < threshold g (receiver g) /\ threshold g (receiver g) <= high')
    /\ history g' = history g ++ [r]
    /\ low <= rec_offer r /\ rec_offer r <= high
    /\ (rec_accepted r = true <-> rec_offer r < threshold g (receiver g)).
Proof.
  intros Hroles Hps Hrs Hb H.
  destruct (play_round_engine _ _ _ _ H)
    as (offer2 & ps2 & accepted2 & rs2 & r & Hp2 & Hr2 & _ & _ & Hh & _ & Ho
        & Ha & _).
  rewrite Hps in Hp2. cbn in Hp2. injection Hp2 as <- <-.
  rewrite responder_strategy_after_offer, Hrs in Hr2. cbn in Hr2.
  injection Hr2 as <- <-.
  destruct (play_round_strategies _ _ _ _ Hroles H)
    as (offer & ps & accepted & rs & ps' & Hp & Hr & Hf & S1 & _ & S3 & _).
  rewrite Hps in Hp. cbn in Hp. injection Hp as <- <-.
  rewrite Hrs in Hr. cbn in Hr. injection Hr as <- <-.
  assert (Hm : low <= (low + high) / 2 /\ (low + high) / 2 <= high).
  { unfold Qdiv. change (/ 2) with (1 # 2). split; lra. }
  destruct Hm as (Hm1 & Hm2).
  set (m := (low + high) / 2) in *.
  unfold threshold.
  destruct (Qltb (respond_bad_utility g (receiver g)) (- m)) eqn:E;
    cbn in Hf; injection Hf as <-;
    [apply Qltb_lt in E | apply Qltb_ge in E].
  - exists (py_max low m), high, m, r. rewrite Ho, Ha.
    split; [exact S1|]. split; [exact S3|].
    destruct (py_max_spec low m) as [[? ->]|[? ->]];
      repeat split; try lra; try exact Hh; intros; lra.
  - exists low, (py_min high m), m, r. rewrite Ho, Ha.
    split; [exact S1|]. split; [exact S3|].
    destruct (py_min_spec high m) as [[? ->]|[? ->]];
      repeat split; try lra; try exact Hh; try discriminate; intros; lra.
Qed.

(** X13.  While a [BinarySearchProposer] keeps the proposer role against a
    [UtilitarianResponder] (switching probability zero), every offer lies
    in the bracket and is accepted exactly when it is below the
    responder's acceptance threshold; the bracket only shrinks, and a
    bracket that contains the threshold keeps containing it. *)
Theorem bisection_brackets_utilitarian_threshold :
  forall (math_exp : Q -> Q) (n_rounds : nat) (rng : nat -> Draws)
         (g g' : Game) (low high last : Q),
  proposer g <> receiver g ->
  p_base g == 0 -> p_current g == 0 -> p_reject_bump g == 0 ->
  switch_draws_in_range rng ->
  proposer_strategy (get_player g (proposer g))
    = BinarySearchProposer low high last ->
  responder_strategy (get_player g (receiver g)) = UtilitarianResponder ->
  low <= high ->
  run math_exp n_rounds rng g = Ok g' ->
  exists low' high' last' new,
    proposer_strategy (get_player g' (proposer g))
      = BinarySearchProposer low' high' last'
    /\ low <= low' /\ low' <= high' /\ high' <= high
    /\ (low < threshold g (receiver g) /\ threshold g (receiver g) <= high ->
        low' < threshold g (receiver g) /\ threshold g (receiver g) <= high')
    /\ history g' = history g ++ new
    /\ Forall (fun r =>
                 low <= rec_offer r /\ rec_offer r <= high
                 /\ (rec_accepted r = true
                     <-> rec_offer r < threshold g (receiver g))) new.
Proof.
  intros math_exp n. induction n as [|n IH];
    intros rng g g' low high last Hroles Hpb Hpc Hbump Hrng Hps Hrs Hb H.
  - cbn [run] in H. injection H as <-. exists low, high, last, [].
    split; [exact Hps|]. rewrite app_nil_r.
    repeat split; try lra; try tauto. constructor.
  - cbn [run] in H.
    destruct (play_round math_exp g (rng O)) as [g1|e] eqn:E;
      cbn [bind] in H; [|discriminate H].
    destruct (bisect_round _ _ _ _ _ _ _ Hroles Hps Hrs Hb E)
      as (low1 & high1 & last1 & r & Hps1 & Hrs1 & B1 & B2 & B3 & T1 & Hh
          & O1 & O2 & A1).
    destruct (play_round_no_switch _ _ _ _ Hpb Hpc Hbump (proj1 (Hrng O)) E)
      as (Hp1 & Hr1 & Hpc1).
    destruct (play_round_engine _ _ _ _ E)
      as (_ & _ & _ & _ & _ & _ & _ & Hcfg & _).
    destruct (config_p_fields _ _ Hcfg) as (Eb & Ebump & _).
    assert (Hrng1 : switch_draws_in_range (fun k => rng (S k)))
      by (intros k; apply Hrng).
    assert (Hroles1 : proposer g1 <> receiver g1) by congruence.
    rewrite <- Hp1 in Hps1. rewrite <- Hr1 in Hrs1.
    rewrite <- Eb in Hpb. rewrite <- Ebump in Hbump.
    destruct (IH _ g1 g' low1 high1 last1 Hroles1 Hpb Hpc1 Hbump Hrng1
                Hps1 Hrs1 B2 H)
      as (low' & high' & last' & new & Hps' & B1' & B2' & B3' & T' & Hh'
          & Hall).
    rewrite Hp1 in Hps'. rewrite Hr1 in T', Hall.
    unfold threshold in T', Hall.
    rewrite (respond_bad_utility_config g1 g (receiver g) Hcfg) in T', Hall.
    fold (threshold g (receiver g)) in T', Hall.
    exists low', high', last', (r :: new).
    split; [exact Hps'|].
    split; [lra|]. split; [lra|]. split; [lra|].
    split; [tauto|].
    split; [rewrite Hh', Hh, <- app_assoc; reflexivity|].
    constructor; [split; [exact O1|]; split; [exact O2 | exact A1]|].
    revert Hall. apply Forall_impl. intros r0 (L1 & L2 & L3).
    split; [lra|]. split; [lra | exact L3].
Qed.

Lemma bisection_brackets_utilitarian_threshold_witness :
  exists g' low' high' last' new,
    proposer binary_search_game <> receiver binary_search_game
    /\ p_base binary_search_game == 0 /\ p_current binary_search_game == 0
    /\ p_reject_bump binary_search_game == 0
    /\ switch_draws_in_range zero_rng
    /\ proposer_strategy (get_player binary_search_game Player1)
       = BinarySearchProposer 0 100 ((0 + 100) / 2)
    /\ responder_strategy (get_player binary_search_game Player2)
       = UtilitarianResponder
    /\ 0 <= 100
    /\ run sample_exp 5 zero_rng binary_search_game = Ok g'
    /\ proposer_strategy (get_player g' Player1)
       = BinarySearchProposer low' high' last'
    /\ low' < 5 /\ 5 <= high'
    /\ history g' = history binary_search_game ++ new
    /\ Forall (fun r => rec_accepted r = true <-> rec_offer r < 5) new.
Proof.
  let t := eval vm_compute in (run sample_exp 5 zero_rng binary_search_game) in
  match t with Ok ?x => exists x end.
  assert (Hrng : switch_draws_in_range zero_rng).
  { intros k. split; vm_compute; [discriminate | reflexivity]. }
  assert (Hb : 0 <= 100) by (vm_compute; discriminate).
  match goal with
  | |- exists low' high' last' new, _ /\ _ /\ _ /\ _ /\ _ /\ _ /\ _ /\ _
                                    /\ run _ _ _ _ = Ok ?x /\ _ =>
      destruct (bisection_brackets_utilitarian_threshold sample_exp 5 zero_rng
                  binary_search_game x 0 100 ((0 + 100) / 2))
        as (low' & high' & last' & new & Hps & _ & _ & _ & T & Hh & Hall);
        [discriminate | reflexivity | reflexivity | reflexivity | exact Hrng
        | reflexivity | reflexivity | exact Hb | vm_compute; reflexivity |]
  end.
  exists low', high', last', new.
  split; [discriminate|]. split; [reflexivity|]. split; [reflexivity|].
  split; [reflexivity|]. split; [exact Hrng|]. split; [reflexivity|].
  split; [reflexivity|]. split; [exact Hb|].
  split; [vm_compute; reflexivity|]. split; [exact Hps|].
  assert (Ht : threshold binary_search_game (receiver binary_search_game) == 5)
    by (vm_compute; reflexivity).
  split; [rewrite <- Ht; apply T; rewrite Ht; split; vm_compute;
          [reflexivity | discriminate]|].
  split; [rewrite <- Ht; apply T; rewrite Ht; split; vm_compute;
          [reflexivity | discriminate]|].
  split; [exact Hh|].
  revert Hall. apply Forall_impl. intros r (_ & _ & A).
  rewrite <- Ht. exact A.
Defined.

(** * Further properties of the grid proposers *)

(** ** Dictionaries *)

Lemma dict_get_set k k' v d :
  dict_get k (dict_set k' v d)
  = if Qeq_bool k' k then Some v else dict_get k d.
Proof.
  induction d as [|[k0 v0] d IH]; cbn [dict_set dict_get]; [reflexivity|].
  destruct (Qeq_bool k0 k') eqn:E0; cbn [dict_get].
  - destruct (Qeq_bool k0 k) eqn:E1, (Qeq_bool k' k) eqn:E2; try reflexivity.
    + apply Qeq_bool_iff in E0, E1. apply Qeq_bool_neq in E2.
      elim E2. now rewrite <- E0.
    + apply Qeq_bool_iff in E0, E2. apply Qeq_bool_neq in E1.
      elim E1. now rewrite E0.
  - rewrite IH.
    destruct (Qeq_bool k0 k) eqn:E1, (Qeq_bool k' k) eqn:E2; try reflexivity.
    apply Qeq_bool_iff in E1, E2. apply Qeq_bool_neq in E0.
    elim E0. now rewrite E1, E2.
Qed.

Lemma dict_get_init_from levels :
  forall d x,
  In x levels ->
  exists st, dict_get x (fold_left (fun d x => dict_set x (mkStat 0 0) d)
                           levels d) = Some st.
Proof.
  induction levels as [|y levels IH]; intros d x Hx; [destruct Hx|].
  cbn [fold_left]. destruct Hx as [<- | Hx]; [|now apply IH].
  clear IH. revert d.
  assert (G : forall l d,
             (exists st, dict_get y d = Some st) ->
             exists st, dict_get y
                          (fold_left (fun d x => dict_set x (mkStat 0 0) d) l d)
                        = Some st).
  { induction l as [|z l IHl]; intros d Hd; [exact Hd|].
    cbn [fold_left]. apply IHl. rewrite dict_get_set.
    destruct (Qeq_bool z y); [eauto | exact Hd]. }
  intros d. apply G. rewrite dict_get_set, Qeq_bool_refl. eauto.
Qed.

Lemma keyed_init levels : keyed levels (dict_init levels).
Proof. intros x Hx. now apply dict_get_init_from. Qed.

Lemma keyed_count_outcome levels stats accepted offer :
  keyed levels stats -> In offer levels ->
  exists stats',
    count_outcome accepted offer stats = Ok stats' /\ keyed levels stats'.
Proof.
  intros Hk Hin. unfold count_outcome.
  destruct (Hk offer Hin) as [st ->].
  eexists. split; [reflexivity|].
  intros x Hx. rewrite dict_get_set.
  destruct (Qeq_bool offer x); [eauto | now apply Hk].
Qed.

(** ** The search for the best level *)

Section BestOf.

Variable score : Q -> result Q.
Variable body : option Q * option Q -> Q -> result (option Q * option Q).

Hypothesis body_scores :
  forall acc x,
  body acc x
  = bind (score x)
      (fun eu => if above eu (snd acc) then Ok (Some x, Some eu) else Ok acc).

Lemma foldM_improves l :
  (forall x, In x l -> exists eu, score x = Ok eu) ->
  forall o eu,
  exists o' eu',
    foldM body l (Some o, Some eu) = Ok (Some o', Some eu')
    /\ eu <= eu'
    /\ (forall x e, In x l -> score x = Ok e -> e <= eu')
    /\ ((o' = o /\ eu' = eu) \/ (In o' l /\ score o' = Ok eu')).
Proof.
  induction l as [|y l IH]; intros Hall o eu.
  - exists o, eu. cbn [foldM]. split; [reflexivity|]. split; [lra|].
    split; [intros x e []|now left].
  - cbn [foldM]. rewrite body_scores.
    destruct (Hall y (or_introl eq_refl)) as [ey Hy]. rewrite Hy.
    cbn [bind snd above].
    assert (Hall' : forall x, In x l -> exists e, score x = Ok e)
      by (intros x Hx; apply Hall; now right).
    destruct (Qltb eu ey) eqn:E; cbn [bind].
    + apply Qltb_lt in E.
      destruct (IH Hall' y ey) as (o' & eu' & Hf & Hle & Hmax & Hsrc).
      exists o', eu'. split; [exact Hf|]. split; [lra|]. split.
      * intros x e [<- | Hx] Hs; [|now apply (Hmax x)].
        rewrite Hy in Hs. injection Hs as <-. exact Hle.
      * right. destruct Hsrc as [[-> ->] | [Hin Hs]];
          [split; [now left | exact Hy] | split; [now right | exact Hs]].
    + apply Qltb_ge in E.
      destruct (IH Hall' o eu) as (o' & eu' & Hf & Hle & Hmax & Hsrc).
      exists o', eu'. split; [exact Hf|]. split; [exact Hle|]. split.
      * intros x e [<- | Hx] Hs; [|now apply (Hmax x)].
        rewrite Hy in Hs. injection Hs as <-. lra.
      * destruct Hsrc as [Hsame | [Hin Hs]];
          [now left | right; split; [now right | exact Hs]].
Qed.

(** On a grid whose levels can all be scored, the loop returns a level of
    the grid whose score is the highest. *)
Lemma foldM_best l :
  l <> [] ->
  (forall x, In x l -> exists eu, score x = Ok eu) ->
  exists o eu,
    foldM body l (None, None) = Ok (Some o, Some eu)
    /\ In o l /\ score o = Ok eu
    /\ forall x e, In x l -> score x = Ok e -> e <= eu.
Proof.
  intros Hne Hall. destruct l as [|y l]; [now elim Hne|].
  cbn [foldM]. rewrite body_scores.
  destruct (Hall y (or_introl eq_refl)) as [ey Hy]. rewrite Hy.
  cbn [bind snd above].
  assert (Hall' : forall x, In x l -> exists e, score x = Ok e)
    by (intros x Hx; apply Hall; now right).
  destruct (foldM_improves l Hall' y ey) as (o' & eu' & Hf & Hle & Hmax & Hsrc).
  exists o', eu'. split; [exact Hf|].
  assert (Hin : In o' (y :: l) /\ score o' = Ok eu').
  { destruct Hsrc as [[-> ->] | [Hin Hs]];
      [split; [now left | exact Hy] | split; [now right | exact Hs]]. }
  split; [apply Hin|]. split; [apply Hin|].
  intros x e [<- | Hx] Hs; [|now apply (Hmax x)].
  rewrite Hy in Hs. injection Hs as <-. exact Hle.
Qed.

End BestOf.

Lemma RiskAware_body_scores stats penalties default acc x :
  RiskAware_body stats penalties default acc x
  = bind (risk_aware_score stats penalties default x)
      (fun eu => if above eu (snd acc) then Ok (Some x, Some eu) else Ok acc).
Proof.
  unfold RiskAware_body, risk_aware_score.
  now destruct (dict_get x stats).
Qed.

Lemma ForwardLooking_body_scores horizon prior estimate stats g k acc x :
  ForwardLooking_body horizon prior estimate stats g k acc x
  = bind (forward_looking_score horizon prior estimate stats g k x)
      (fun eu => if above eu (snd acc) then Ok (Some x, Some eu) else Ok acc).
Proof.
  unfold ForwardLooking_body, forward_looking_score.
  now destruct (estimate_accept_prob stats prior x).
Qed.

(** ** The risk-aware proposer *)

Lemma levels_or_default_nonempty lv : levels_or_default lv <> [].
Proof. destruct lv as [[|x l]|]; discriminate. Qed.

Lemma RiskAware_propose_best :
  forall (levels : list Q) (stats : dict) (penalties : list Q) (g : Game)
         (k : PlayerRef) (d : Draws),
  levels <> [] ->
  keyed levels stats ->
  exists o eu,
    propose (RiskAwareProposer levels stats penalties) g k d
      = Ok (o, RiskAwareProposer levels stats penalties)
    /\ In o levels
    /\ risk_aware_score stats penalties (default_reject_utility g k) o = Ok eu
    /\ forall x e,
         In x levels ->
         risk_aware_score stats penalties (default_reject_utility g k) x = Ok e ->
         e <= eu.
Proof.
  intros levels stats penalties g k d Hne Hk.
  destruct (foldM_best
              (risk_aware_score stats penalties (default_reject_utility g k))
              (RiskAware_body stats penalties (default_reject_utility g k))
              (RiskAware_body_scores stats penalties
                 (default_reject_utility g k))
              levels Hne)
    as (o & eu & Hf & Hin & Hs & Hmax).
  { intros x Hx. unfold risk_aware_score.
    destruct (Hk x Hx) as [st ->]. eauto. }
  exists o, eu. cbn [propose]. fold (default_reject_utility g k).
  rewrite Hf. cbn [bind best_or_raise fst]. auto.
Qed.

(** X14.  [RiskAwareProposer.propose] returns a level of its grid whose
    estimated expected utility is the highest of the grid, and leaves the
    proposer unchanged; it cannot raise as long as every level has its
    counters, which the constructor ensures. *)
Theorem risk_aware_proposes_best_level :
  forall (levels : list Q) (stats : dict) (penalties : list Q) (g : Game)
         (k : PlayerRef) (d : Draws),
  levels <> [] ->
  keyed levels stats ->
  exists o eu,
    propose (RiskAwareProposer levels stats penalties) g k d
      = Ok (o, RiskAwareProposer levels stats penalties)
    /\ In o levels
    /\ risk_aware_score stats penalties (default_reject_utility g k) o = Ok eu
    /\ forall x e,
         In x levels ->
         risk_aware_score stats penalties (default_reject_utility g k) x = Ok e ->
         e <= eu.
Proof. exact RiskAware_propose_best. Qed.

Lemma risk_aware_proposes_best_level_witness :
  exists o eu,
    [2; 8; 4] <> []
    /\ keyed [2; 8; 4] (dict_init [2; 8; 4])
    /\ propose (RiskAwareProposer [2; 8; 4] (dict_init [2; 8; 4]) [])
         small_grid_game Player1 zero_draws
       = Ok (o, RiskAwareProposer [2; 8; 4] (dict_init [2; 8; 4]) [])
    /\ In o [2; 8; 4]
    /\ risk_aware_score (dict_init [2; 8; 4]) []
         (default_reject_utility small_grid_game Player1) o = Ok eu.
Proof.
  assert (Hne : [2; 8; 4] <> []) by discriminate.
  destruct (risk_aware_proposes_best_level [2; 8; 4] (dict_init [2; 8; 4]) []
              small_grid_game Player1 zero_draws Hne (keyed_init [2; 8; 4]))
    as (o & eu & Hp & Hin & Hs & _).
  exists o, eu.
  split; [exact Hne|]. split; [exact (keyed_init [2; 8; 4])|]. auto.
Defined.





Lemma negotiate_risk_aware g k levels answers :
  levels <> [] ->
  forall stats penalties rng,
  keyed levels stats ->
  exists offers stats' penalties',
    negotiate (RiskAwareProposer levels stats penalties) answers g k rng
      = Ok (offers, RiskAwareProposer levels stats' penalties')
    /\ List.length offers = List.length answers
    /\ Forall (fun o => In o levels) offers
    /\ keyed levels stats'
    /\ List.length penalties'
       = (List.length penalties + tally false answers)%nat.
Proof.
  intros Hne. induction answers as [|a answers IH];
    intros stats penalties rng Hk.
  - exists [], stats, penalties. cbn [negotiate].
    split; [reflexivity|]. split; [reflexivity|]. split; [constructor|].
    split; [exact Hk|]. unfold tally. cbn. lia.
  - cbn [negotiate].
    destruct (RiskAware_propose_best levels stats penalties g k
                (rng O) Hne Hk) as (o & eu & Hp & Hin & _).
    rewrite Hp. cbn [bind receive_feedback].
    destruct (keyed_count_outcome levels stats a o Hk Hin)
      as (stats1 & Hc & Hk1).
    rewrite Hc. cbn [bind].
    destruct a.
    + destruct (IH stats1 penalties (fun i => rng (S i)) Hk1)
        as (offers & stats' & penalties' & Hn & Hlen & Hall & Hk' & Hp').
      exists (o :: offers), stats', penalties'.
      cbn [bind]. rewrite Hn. cbn [bind].
      split; [reflexivity|]. split; [cbn; now rewrite Hlen|].
      split; [now constructor|]. split; [exact Hk'|].
      rewrite Hp'. unfold tally. cbn [filter Bool.eqb]. reflexivity.
    + destruct (IH stats1
                  (penalties ++ [get_bad_utility g (proposer g) true])
                  (fun i => rng (S i)) Hk1)
        as (offers & stats' & penalties' & Hn & Hlen & Hall & Hk' & Hp').
      exists (o :: offers), stats', penalties'.
      cbn [bind]. rewrite Hn. cbn [bind].
      split; [reflexivity|]. split; [cbn; now rewrite Hlen|].
      split; [now constructor|]. split; [exact Hk'|].
      rewrite Hp', length_app. unfold tally.
      cbn [filter Bool.eqb List.length]. lia.
Qed.

(** X16.  A risk-aware proposer built by its constructor never raises when
    it is driven as the engine drives it: every offer is a level of its
    grid, every level keeps its counters, and it has recorded exactly one
    penalty per rejection. *)
Theorem risk_aware_proposer_never_raises :
  forall (offer_levels : option (list Q)) (answers : list bool) (g : Game)
         (k : PlayerRef) (rng : nat -> Draws),
  exists offers stats' penalties',
    negotiate (RiskAwareProposer_init offer_levels) answers g k rng
      = Ok (offers,
            RiskAwareProposer (levels_or_default offer_levels) stats'
              penalties')
    /\ List.length offers = List.length answers
    /\ Forall (fun o => In o (levels_or_default offer_levels)) offers
    /\ keyed (levels_or_default offer_levels) stats'
    /\ List.length penalties' = tally false answers.
Proof.
  intros lv answers g k rng. unfold RiskAwareProposer_init. cbn zeta.
  destruct (negotiate_risk_aware g k (levels_or_default lv) answers
              (levels_or_default_nonempty lv)
              (dict_init (levels_or_default lv)) [] rng
              (keyed_init (levels_or_default lv)))
    as (offers & stats' & penalties' & Hn & Hlen & Hall & Hk & Hp).
  exists offers, stats', penalties'. auto.
Qed.

(** ** The forward-looking proposer *)

Lemma forward_looking_scores levels stats horizon prior estimate g k :
  keyed levels stats ->
  forall x, In x levels ->
  exists eu, forward_looking_score horizon prior estimate stats g k x = Ok eu.
Proof.
  intros Hk x Hx. unfold forward_looking_score, estimate_accept_prob.
  destruct (Hk x Hx) as [st ->].
  destruct (Nat.eqb (trials st) 0); cbn [bind]; eauto.
Qed.

Lemma ForwardLooking_propose_best :
  forall (levels : list Q) (horizon : nat) (prior estimate : Q)
         (stats : dict) (g : Game) (k : PlayerRef) (d : Draws),
  levels <> [] ->
  keyed levels stats ->
  exists o eu,
    propose (ForwardLookingProposer levels horizon prior estimate stats) g k d
      = Ok (o, ForwardLookingProposer levels horizon prior estimate stats)
    /\ In o levels
    /\ forward_looking_score horizon prior estimate stats g k o = Ok eu
    /\ forall x e,
         In x levels ->
         forward_looking_score horizon prior estimate stats g k x = Ok e ->
         e <= eu.
Proof.
  intros levels horizon prior estimate stats g k d Hne Hk.
  destruct (foldM_best
              (forward_looking_score horizon prior estimate stats g k)
              (ForwardLooking_body horizon prior estimate stats g k)
              (ForwardLooking_body_scores horizon prior estimate stats g k)
              levels Hne
              (forward_looking_scores levels stats horizon prior estimate g k
                 Hk))
    as (o & eu & Hf & Hin & Hs & Hmax).
  exists o, eu. cbn [propose]. rewrite Hf. cbn [bind best_or_raise fst]. auto.
Qed.

(** X17.  [ForwardLookingProposer.propose] returns a level of its grid
    whose simulated expected utility is the highest of the grid, and
    leaves the proposer unchanged; it cannot raise as long as every level
    has its counters. *)
Theorem forward_looking_proposes_best_level :
  forall (levels : list Q) (horizon : nat) (prior estimate : Q)
         (stats : dict) (g : Game) (k : PlayerRef) (d : Draws),
  levels <> [] ->
  keyed levels stats ->
  exists o eu,
    propose (ForwardLookingProposer levels horizon prior estimate stats) g k d
      = Ok (o, ForwardLookingProposer levels horizon prior estimate stats)
    /\ In o levels
    /\ forward_looking_score horizon prior estimate stats g k o = Ok eu
    /\ forall x e,
         In x levels ->
         forward_looking_score horizon prior estimate stats g k x = Ok e ->
         e <= eu.
Proof. exact ForwardLooking_propose_best. Qed.

Lemma forward_looking_proposes_best_level_witness :
  exists o eu,
    [2; 8; 4] <> []
    /\ keyed [2; 8; 4] (dict_init [2; 8; 4])
    /\ propose
         (ForwardLookingProposer [2; 8; 4] 5 (1 # 2) (-50) (dict_init [2; 8; 4]))
         small_grid_game Player1 zero_draws
       = Ok (o, ForwardLookingProposer [2; 8; 4] 5 (1 # 2) (-50)
                  (dict_init [2; 8; 4]))
    /\ In o [2; 8; 4]
    /\ forward_looking_score 5 (1 # 2) (-50) (dict_init [2; 8; 4])
         small_grid_game Player1 o = Ok eu.
Proof.
  assert (Hne : [2; 8; 4] <> []) by discriminate.
  destruct (forward_looking_proposes_best_level [2; 8; 4] 5 (1 # 2) (-50)
              (dict_init [2; 8; 4]) small_grid_game Player1 zero_draws Hne
              (keyed_init [2; 8; 4]))
    as (o & eu & Hp & Hin & Hs & _).
  exists o, eu.
  split; [exact Hne|]. split; [exact (keyed_init [2; 8; 4])|]. auto.
Defined.

Lemma negotiate_forward_looking g k levels horizon prior answers :
  levels <> [] ->
  forall estimate stats rng,
  keyed levels stats ->
  exists offers estimate' stats',
    negotiate (ForwardLookingProposer levels horizon prior estimate stats)
      answers g k rng
      = Ok (offers,
            ForwardLookingProposer levels horizon prior estimate' stats')
    /\ List.length offers = List.length answers
    /\ Forall (fun o => In o levels) offers
    /\ keyed levels stats'
    /\ (tally false answers = 0%nat -> estimate' = estimate).
Proof.
  intros Hne. induction answers as [|a answers IH];
    intros estimate stats rng Hk.
  - exists [], estimate, stats. cbn [negotiate].
    split; [reflexivity|]. split; [reflexivity|]. split; [constructor|].
    split; [exact Hk | reflexivity].
  - cbn [negotiate].
    destruct (ForwardLooking_propose_best levels horizon prior
                estimate stats g k (rng O) Hne Hk) as (o & eu & Hp & Hin & _).
    rewrite Hp. cbn [bind receive_feedback].
    destruct (keyed_count_outcome levels stats a o Hk Hin)
      as (stats1 & Hc & Hk1).
    rewrite Hc. cbn [bind].
    destruct a.
    + destruct (IH estimate stats1 (fun i => rng (S i)) Hk1)
        as (offers & estimate' & stats' & Hn & Hlen & Hall & Hk' & He).
      exists (o :: offers), estimate', stats'.
      cbn [bind]. rewrite Hn. cbn [bind].
      split; [reflexivity|]. split; [cbn; now rewrite Hlen|].
      split; [now constructor|]. split; [exact Hk'|].
      exact He.
    + destruct (IH ((9 # 10) * estimate
                    + (1 # 10) * get_bad_utility g (proposer g) true)
                  stats1 (fun i => rng (S i)) Hk1)
        as (offers & estimate' & stats' & Hn & Hlen & Hall & Hk' & He).
      exists (o :: offers), estimate', stats'.
      cbn [bind]. rewrite Hn. cbn [bind].
      split; [reflexivity|]. split; [cbn; now rewrite Hlen|].
      split; [now constructor|]. split; [exact Hk'|].
      unfold tally. cbn [filter Bool.eqb List.length]. discriminate.
Qed.

(** X18.  A forward-looking proposer built by its constructor never raises
    when it is driven as the engine drives it: every offer is a level of
    its grid, its grid, horizon and prior never change, and its estimate
    of the responder's utility changes only on a rejection. *)
Theorem forward_looking_proposer_never_raises :
  forall (offer_levels : option (list Q)) (horizon : nat)
         (prior estimate : Q) (answers : list bool) (g : Game)
         (k : PlayerRef) (rng : nat -> Draws),
  exists offers estimate' stats',
    negotiate (ForwardLookingProposer_init offer_levels horizon prior estimate)
      answers g k rng
      = Ok (offers,
            ForwardLookingProposer (levels_or_default offer_levels) horizon
              prior estimate' stats')
    /\ List.length offers = List.length answers
    /\ Forall (fun o => In o (levels_or_default offer_levels)) offers
    /\ keyed (levels_or_default offer_levels) stats'
    /\ (tally false answers = 0%nat -> estimate' = estimate).
Proof.
  intros lv horizon prior estimate answers g k rng.
  unfold ForwardLookingProposer_init. cbn zeta.
  exact (negotiate_forward_looking g k (levels_or_default lv) horizon prior
           answers (levels_or_default_nonempty lv) estimate
           (dict_init (levels_or_default lv)) rng
           (keyed_init (levels_or_default lv))).
Qed.

(** * Further properties of the responders *)

(** ** The strategic rejector *)

Lemma respond_skips math_exp g k d tol eps prev streak floor offer :
  skips_stagnation g k eps floor offer ->
  respond math_exp (StrategicRejectorResponder tol eps prev streak floor)
    offer g k d
  = Ok (negb (Qltb (- offer) (get_bad_utility g k false)),
        StrategicRejectorResponder tol eps prev streak floor).
Proof.
  intros H. cbn.
  destruct (Qltb (- offer) (get_bad_utility g k false)) eqn:E; [reflexivity|].
  destruct H as [H | H].
  - apply Qltb_ge in E. lra.
  - apply Qle_bool_iff in H. now rewrite H.
Qed.

(** X19.  Offers that are worse than rejecting, or within epsilon of the
    floor, never reach the stagnation logic of a strategic rejector: the
    former are rejected and the latter accepted whatever the streak, and
    the responder (previous offer, streak) is left exactly as it was. *)
Theorem strategic_rejector_ignores_floor_and_bad_offers :
  forall (math_exp : Q -> Q) (g : Game) (k : PlayerRef) (d : Draws)
         (tol : Z) (eps : Q) (prev : option Q) (streak : Z) (floor : Q)
         (offers : list Q),
  Forall (skips_stagnation g k eps floor) offers ->
  respond_all math_exp (StrategicRejectorResponder tol eps prev streak floor)
    offers g k d
  = Ok (map (fun o => negb (Qltb (- o) (get_bad_utility g k false))) offers,
        StrategicRejectorResponder tol eps prev streak floor).
Proof.
  intros math_exp g k d tol eps prev streak floor offers H.
  induction H as [|o offers Ho Hall IH]; [reflexivity|].
  cbn [respond_all map]. rewrite (respond_skips _ _ _ _ _ _ _ _ _ _ Ho).
  cbn [bind]. rewrite IH. reflexivity.
Qed.

Lemma strategic_rejector_ignores_floor_and_bad_offers_witness :
  Forall (skips_stagnation (conceding_game 100) Player2 (1 # 100) 0)
    [0; 9; 1 # 100; 0]
  /\ respond_all sample_exp (StrategicRejectorResponder 4 (1 # 100) (Some 3) 7 0)
       [0; 9; 1 # 100; 0] (conceding_game 100) Player2 zero_draws
     = Ok ([true; false; true; true],
           StrategicRejectorResponder 4 (1 # 100) (Some 3) 7 0).
Proof.
  assert (H : Forall (skips_stagnation (conceding_game 100) Player2 (1 # 100) 0)
                [0; 9; 1 # 100; 0]).
  { apply Forall_cons; [right; vm_compute; discriminate|].
    apply Forall_cons; [left; vm_compute; reflexivity|].
    apply Forall_cons; [right; vm_compute; discriminate|].
    apply Forall_cons; [right; vm_compute; discriminate|].
    apply Forall_nil. }
  split; [exact H|].
  exact (strategic_rejector_ignores_floor_and_bad_offers sample_exp
           (conceding_game 100) Player2 zero_draws 4 (1 # 100) (Some 3) 7 0
           [0; 9; 1 # 100; 0] H).
Defined.

Lemma respond_all_falling math_exp g k d tol eps floor offers :
  (0 < tol)%Z ->
  Forall (punishable g k eps floor) offers ->
  forall prev streak,
  falls_from eps prev offers ->
  exists prev' streak',
    respond_all math_exp
      (StrategicRejectorResponder tol eps (Some prev) streak floor)
      offers g k d
    = Ok (repeat true (List.length offers),
          StrategicRejectorResponder tol eps (Some prev') streak' floor).
Proof.
  intros Htol Hall. induction Hall as [|o offers Ho Hall IH];
    intros prev streak Hfall.
  - exists prev, streak. reflexivity.
  - destruct Hfall as [Hlow Hfall]. cbn [respond_all].
    rewrite (respond_lower math_exp g k d tol eps floor prev o streak Ho Hlow).
    cbn [bind].
    destruct (IH o 0%Z Hfall) as (prev' & streak' & ->).
    exists prev', streak'. cbn [bind List.length repeat].
    apply Z.ltb_lt in Htol. now rewrite Htol.
Qed.

(** X20.  A strategic rejector with a positive tolerance never punishes a
    proposer that keeps conceding: if every offer is lower than the one
    before by more than epsilon (and worth taking, above the floor), all
    offers are accepted. *)
Theorem strategic_rejector_accepts_falling_offers :
  forall (math_exp : Q -> Q) (g : Game) (k : PlayerRef) (d : Draws)
         (tol : Z) (eps floor first : Q) (rest : list Q),
  (0 < tol)%Z ->
  Forall (punishable g k eps floor) (first :: rest) ->
  falls_from eps first rest ->
  exists s',
    respond_all math_exp (StrategicRejectorResponder_init tol eps floor)
      (first :: rest) g k d
    = Ok (repeat true (List.length (first :: rest)), s').
Proof.
  intros math_exp g k d tol eps floor first rest Htol Hall Hfall.
  inversion Hall as [|x l Hfirst Hrest]; subst.
  cbn [respond_all]. unfold StrategicRejectorResponder_init.
  rewrite (respond_first math_exp g k d tol eps floor first 0%Z Hfirst).
  cbn [bind].
  destruct (respond_all_falling math_exp g k d tol eps floor rest Htol Hrest
              first 0%Z Hfall) as (prev' & streak' & ->).
  eexists. reflexivity.
Qed.

Lemma strategic_rejector_accepts_falling_offers_witness :
  (0 < 4)%Z
  /\ Forall (punishable (conceding_game 100) Player2 (1 # 100) 0) [5; 4; 3; 2; 1]
  /\ falls_from (1 # 100) 5 [4; 3; 2; 1]
  /\ exists s',
       respond_all sample_exp (StrategicRejectorResponder_init 4 (1 # 100) 0)
         [5; 4; 3; 2; 1] (conceding_game 100) Player2 zero_draws
       = Ok ([true; true; true; true; true], s').
Proof.
  assert (H1 : (0 < 4)%Z) by reflexivity.
  assert (H2 : Forall (punishable (conceding_game 100) Player2 (1 # 100) 0)
                 [5; 4; 3; 2; 1]).
  { repeat (apply Forall_cons; [split; vm_compute;
                                  [reflexivity | discriminate]|]).
    apply Forall_nil. }
  assert (H3 : falls_from (1 # 100) 5 [4; 3; 2; 1]).
  { cbn [falls_from]. repeat split; vm_compute; reflexivity. }
  split; [exact H1|]. split; [exact H2|]. split; [exact H3|].
  exact (strategic_rejector_accepts_falling_offers sample_exp
           (conceding_game 100) Player2 zero_draws 4 (1 # 100) 0 5
           [4; 3; 2; 1] H1 H2 H3).
Defined.

(** ** The tit-for-tat responder, driven by hand *)

(** X21.  [TitForTatResponder.receive_feedback] records the utility of
    the offer it is given whether that offer was accepted or not; after
    such a call the responder accepts exactly the offers that are no higher
    than the recorded one and better than rejecting, and answering changes
    nothing. *)
Theorem tit_for_tat_feedback_sets_floor :
  forall (math_exp : Q -> Q) (g : Game) (k : PlayerRef) (d : Draws)
         (last : option Q) (seen : Q) (accepted : bool) (offer : Q),
  exists answer,
    respond math_exp
      (TitForTatResponder_receive_feedback (TitForTatResponder last) seen
         accepted)
      offer g k d
    = Ok (answer, TitForTatResponder (Some (- seen)))
    /\ (answer = true <->
        offer <= seen /\ respond_bad_utility g k < - offer).
Proof.
  intros math_exp g k d last seen accepted offer.
  eexists. split; [reflexivity|].
  rewrite andb_true_iff, Qle_bool_iff, Qltb_lt.
  split; intros [H1 H2]; split; lra.
Qed.

(** ** Strategies without an implementation *)

Lemma play_round_respond_raises math_exp g d offer ps e :
  propose (proposer_strategy (get_player g (proposer g))) g (proposer g) d
    = Ok (offer, ps) ->
  respond math_exp (responder_strategy (get_player g (receiver g))) offer g
    (receiver g) d = Raise e ->
  play_round math_exp g d = Raise e.
Proof.
  intros Hp Hr.
  destruct (engine_state_eq _ _ (engine_state_after_offer g offer ps))
    as (Ec & _ & Er & _).
  unfold play_round, make_offer, respond_to_offer.
  rewrite Hp. cbn [bind]. fold (after_offer g offer ps).
  rewrite Er, (respond_config math_exp _ _ _ _ _ _ Ec),
    responder_strategy_after_offer, Hr.
  reflexivity.
Qed.

(** X22.  The base classes are no strategies: a round whose proposer holds
    a bare [ProposerStrategy], or whose receiver holds a bare
    [ResponderStrategy] once the offer has been made, raises
    [NotImplementedError], and so does every run of at least one round. *)
Theorem unimplemented_strategy_raises :
  forall (math_exp : Q -> Q) (g : Game) (n : nat) (rng : nat -> Draws),
  (proposer_strategy (get_player g (proposer g)) = ProposerStrategyBase
   \/ (responder_strategy (get_player g (receiver g)) = ResponderStrategyBase
       /\ exists offer ps,
            propose (proposer_strategy (get_player g (proposer g))) g
              (proposer g) (rng O) = Ok (offer, ps))) ->
  play_round math_exp g (rng O) = Raise NotImplementedError
  /\ run math_exp (S n) rng g = Raise NotImplementedError.
Proof.
  intros math_exp g n rng H.
  assert (R : play_round math_exp g (rng O) = Raise NotImplementedError).
  { destruct H as [Hp | (Hr & offer & ps & Hp)].
    - apply play_round_propose_raises. now rewrite Hp.
    - apply (play_round_respond_raises math_exp g (rng O) offer ps _ Hp).
      now rewrite Hr. }
  split; [exact R|]. cbn [run]. now rewrite R.
Qed.

Lemma unimplemented_strategy_raises_witness :
  (responder_strategy
     (get_player unanswered_game (receiver unanswered_game))
   = ResponderStrategyBase)
  /\ run sample_exp 3 zero_rng unanswered_game = Raise NotImplementedError.
Proof.
  split; [reflexivity|].
  apply (unimplemented_strategy_raises sample_exp unanswered_game 2 zero_rng).
  right. split; [reflexivity|].
  exists 100, (ConcedingProposer 100 10). reflexivity.
Defined.

(** ** The probabilistic responder *)

Lemma Qinv_antitone a b : 0 < a -> a <= b -> 1 / b <= 1 / a.
Proof.
  intros Ha Hab.
  apply Qle_shift_div_r; [lra|].
  assert (E : 1 / a * b == b / a) by (field; lra).
  rewrite E. apply Qle_shift_div_l; [exact Ha | lra].
Qed.

(** X23.  For any positive, non-decreasing exponential and a non-negative
    sensitivity, the probabilistic responder keeps no state and its
    acceptance is monotone in the offer: with the same variate, an offer
    that is accepted is still accepted when it is lowered. *)
Theorem probabilistic_acceptance_is_monotone :
  forall (math_exp : Q -> Q) (alpha : Q) (g : Game) (k : PlayerRef)
         (d : Draws) (offer offer' : Q),
  (forall x, 0 < math_exp x) ->
  (forall x y, x <= y -> math_exp x <= math_exp y) ->
  0 <= alpha ->
  offer' <= offer ->
  respond math_exp (ProbabilisticResponder alpha) offer g k d
    = Ok (true, ProbabilisticResponder alpha) ->
  respond math_exp (ProbabilisticResponder alpha) offer' g k d
    = Ok (true, ProbabilisticResponder alpha).
Proof.
  intros math_exp alpha g k d offer offer' Hpos Hmono Halpha Hle H.
  cbn [respond] in *. injection H as H. apply Qltb_lt in H.
  do 2 f_equal. apply Qltb_lt.
  eapply Qlt_le_trans; [exact H|].
  apply Qinv_antitone.
  - pose proof (Hpos (- alpha * (- offer' - respond_bad_utility g k))). lra.
  - assert (M : math_exp (- alpha * (- offer' - respond_bad_utility g k))
                <= math_exp (- alpha * (- offer - respond_bad_utility g k))).
    { apply Hmono. nra. }
    lra.
Qed.

Lemma probabilistic_acceptance_is_monotone_witness :
  (forall x, 0 < sample_exp x)
  /\ (forall x y, x <= y -> sample_exp x <= sample_exp y)
  /\ 0 <= 1 /\ 3 <= 4
  /\ respond sample_exp (ProbabilisticResponder 1) 4 (conceding_game 100)
       Player2 zero_draws = Ok (true, ProbabilisticResponder 1)
  /\ respond sample_exp (ProbabilisticResponder 1) 3 (conceding_game 100)
       Player2 zero_draws = Ok (true, ProbabilisticResponder 1).
Proof.
  assert (H1 : forall x, 0 < sample_exp x) by (intros x; reflexivity).
  assert (H2 : forall x y, x <= y -> sample_exp x <= sample_exp y)
    by (intros x y _; discriminate).
  assert (H3 : 0 <= 1) by discriminate.
  assert (H4 : 3 <= 4) by discriminate.
  assert (H5 : respond sample_exp (ProbabilisticResponder 1) 4
                 (conceding_game 100) Player2 zero_draws
               = Ok (true, ProbabilisticResponder 1))
    by (vm_compute; reflexivity).
  split; [exact H1|]. split; [exact H2|]. split; [exact H3|].
  split; [exact H4|]. split; [exact H5|].
  exact (probabilistic_acceptance_is_monotone sample_exp 1 (conceding_game 100)
           Player2 zero_draws 4 3 H1 H2 H3 H4 H5).
Defined.


(** ** The tournament *)

Lemma run_history_length math_exp n :
  forall rng g g',
  run math_exp n rng g = Ok g' ->
  List.length (history g') = (List.length (history g) + n)%nat.
Proof.
  induction n as [|n IH]; intros rng g g' H; cbn [run] in H.
  - injection H as <-. lia.
  - destruct (play_round math_exp g (rng O)) as [g1|e] eqn:E;
      cbn [bind] in H; [|discriminate H].
    destruct (play_round_engine _ _ _ _ E)
      as (offer & ps & accepted & rs & r & _ & _ & _ & _ & Hh & _).
    rewrite (IH _ g1 g' H), Hh, length_app. cbn. lia.
Qed.

Lemma rejections_le h : (rejections h <= List.length h)%nat.
Proof. unfold rejections. apply filter_length_le. Qed.

Lemma Game_of_kwargs_lacking q1 q2 p kw :
  lacks_a_cost kw -> Game_of_kwargs q1 q2 p kw = Raise TypeError.
Proof.
  unfold lacks_a_cost, Game_of_kwargs.
  intros [H|[H|[H|H]]]; rewrite H;
    repeat match goal with
           | |- context [match ?x with Some _ => _ | None => _ end] =>
               destruct x
           end; reflexivity.
Qed.

Lemma Game_of_kwargs_inv q1 q2 p kw g :
  Game_of_kwargs q1 q2 p kw = Ok g ->
  player1 g = q1 /\ player2 g = q2 /\ history g = [].
Proof.
  unfold Game_of_kwargs.
  destruct (kw_player_1_bad kw) as [b1|]; [|discriminate].
  destruct (kw_player_2_bad kw) as [b2|]; [|discriminate].
  destruct (kw_proposer_bad kw) as [pb|]; [|discriminate].
  destruct (kw_receiver_bad kw) as [rb|]; [|discriminate].
  intros H. injection H as <-. repeat split.
Qed.

Lemma play_trial_row math_exp rng kw p rounds m trial row :
  play_trial math_exp rng kw p rounds m trial = Ok row ->
  row_labels row = job_labels (m, trial)
  /\ (row_rejections row <= rounds)%nat
  /\ (rounds = 0%nat ->
      row_p1_utility row = 0 /\ row_p2_utility row = 0).
Proof.
  destruct m as (((n1, f1), (n2, f2)), ((n3, f3), (n4, f4))).
  unfold play_trial.
  destruct (Game_of_kwargs (Player_init "Player 1" f1 f2)
              (Player_init "Player 2" f3 f4) p kw) as [g|e] eqn:E;
    cbn [bind]; [|discriminate].
  destruct (run math_exp rounds rng g) as [g'|e] eqn:R;
    cbn [bind]; [|discriminate].
  intros H. injection H as <-.
  destruct (Game_of_kwargs_inv _ _ _ _ _ E) as (H1 & H2 & Hh).
  split; [reflexivity|].
  cbn [row_rejections row_p1_utility row_p2_utility].
  split.
  - pose proof (run_history_length _ _ _ _ _ R) as L.
    rewrite Hh in L. cbn in L. rewrite <- L. apply rejections_le.
  - intros ->. cbn [run] in R. injection R as <-.
    rewrite H1, H2. split; reflexivity.
Qed.

Lemma tournament_step_rows math_exp rng kw p rounds jobs :
  forall acc i rows j,
  foldM (tournament_step math_exp rng kw p rounds) jobs (acc, i)
    = Ok (rows, j) ->
  exists new,
    rows = acc ++ new
    /\ Forall2 (fun job row =>
                  exists r,
                    play_trial math_exp r kw p rounds (fst job) (snd job)
                    = Ok row) jobs new.
Proof.
  induction jobs as [|job jobs IH]; intros acc i rows j H; cbn [foldM] in H.
  - injection H as <- <-. exists []. rewrite app_nil_r. split; constructor.
  - unfold tournament_step at 1 in H. cbn [fst snd] in H.
    destruct (play_trial math_exp (rng i) kw p rounds (fst job) (snd job))
      as [row|e] eqn:E; cbn [bind] in H; [|discriminate H].
    destruct (IH _ _ _ _ H) as (new & -> & Hall).
    exists (row :: new). rewrite <- app_assoc. split; [reflexivity|].
    constructor; [exists (rng i); exact E | exact Hall].
Qed.

Lemma run_tournament_rows math_exp rng P R rounds trials p kw rows :
  run_tournament math_exp rng P R rounds trials p kw = Ok rows ->
  Forall2 (fun job row =>
             exists r,
               play_trial math_exp r (or_default kw no_kwargs) p rounds
                 (fst job) (snd job) = Ok row)
    (tournament_jobs P R trials) rows.
Proof.
  unfold run_tournament. cbn zeta. fold (tournament_jobs P R trials).
  destruct (foldM
              (tournament_step math_exp rng (or_default kw no_kwargs) p rounds)
              (tournament_jobs P R trials) ([], O)) as [[rows' j]|e] eqn:E;
    cbn [bind fst]; [|discriminate].
  intros H. injection H as <-.
  destruct (tournament_step_rows _ _ _ _ _ _ _ _ _ _ E) as (new & -> & Hall).
  exact Hall.
Qed.

Lemma rows_labels math_exp kw p rounds jobs rows :
  Forall2 (fun job row =>
             exists r,
               play_trial math_exp r kw p rounds (fst job) (snd job) = Ok row)
    jobs rows ->
  map row_labels rows = map job_labels jobs.
Proof.
  intros Hall.
  induction Hall as [|[m trial] row jobs rows (r & Hr) _ IH]; [reflexivity|].
  cbn [map]. cbn [fst snd] in Hr.
  destruct (play_trial_row _ _ _ _ _ _ _ _ Hr) as (-> & _).
  now rewrite IH.
Qed.

Lemma rows_bounded math_exp kw p rounds jobs rows :
  Forall2 (fun job row =>
             exists r,
               play_trial math_exp r kw p rounds (fst job) (snd job) = Ok row)
    jobs rows ->
  forall row,
  In row rows ->
  (row_rejections row <= rounds)%nat
  /\ (rounds = 0%nat ->
      row_p1_utility row = 0 /\ row_p2_utility row = 0).
Proof.
  intros Hall.
  induction Hall as [|job row' jobs rows (r & Hr) _ IH]; intros row Hin;
    [elim Hin|].
  destruct Hin as [<-|Hin]; [|exact (IH row Hin)].
  destruct (play_trial_row _ _ _ _ _ _ _ _ Hr) as (_ & Hle & Hzero).
  split; [exact Hle | exact Hzero].
Qed.

(** X24.  The four rejection costs have no default: when the keyword
    arguments of a tournament lack one of them (as the default, no keyword
    arguments, does), the tournament raises a type error at its first game
    as soon as there is a game to play, and returns an empty frame only
    when there is none. *)
Theorem tournament_needs_the_costs :
  forall (math_exp : Q -> Q) (rng : nat -> nat -> Draws)
         (proposer_strategies : list NamedProposer)
         (responder_strategies : list NamedResponder)
         (rounds_per_game trials_per_match : nat) (p : Q)
         (game_kwargs : option GameKwargs),
  lacks_a_cost (or_default game_kwargs no_kwargs) ->
  run_tournament math_exp rng proposer_strategies responder_strategies
    rounds_per_game trials_per_match p game_kwargs
  = match tournament_jobs proposer_strategies responder_strategies
            trials_per_match with
    | [] => Ok []
    | _ :: _ => Raise TypeError
    end.
Proof.
  intros math_exp rng P R rounds trials p kw Hkw.
  unfold run_tournament. cbn zeta. fold (tournament_jobs P R trials).
  destruct (tournament_jobs P R trials) as [|[m trial] jobs]; [reflexivity|].
  cbn [foldM]. unfold tournament_step at 1. cbn [fst snd].
  destruct m as (((n1, f1), (n2, f2)), ((n3, f3), (n4, f4))).
  unfold play_trial. rewrite (Game_of_kwargs_lacking _ _ _ _ Hkw).
  reflexivity.
Qed.

Lemma tournament_needs_the_costs_witness :
  lacks_a_cost (or_default None no_kwargs)
  /\ run_tournament sample_exp zero_rngs sample_proposers sample_responders
       3 2 (3 # 10) None
     = Raise TypeError.
Proof.
  assert (H : lacks_a_cost (or_default None no_kwargs)) by (left; reflexivity).
  split; [exact H|].
  exact (tournament_needs_the_costs sample_exp zero_rngs sample_proposers
           sample_responders 3 2 (3 # 10) None H).
Defined.

(** X25.  A tournament that returns gives one row per matchup and trial:
    every ordered pair of (proposer, responder) pairs meets, itself
    included, [trials_per_match] times; the rows come matchup by matchup
    with the trials counted from zero, labelled with the strategy names of
    their matchup. *)
Theorem tournament_has_one_row_per_trial :
  forall (math_exp : Q -> Q) (rng : nat -> nat -> Draws)
         (proposer_strategies : list NamedProposer)
         (responder_strategies : list NamedResponder)
         (rounds_per_game trials_per_match : nat) (p : Q)
         (game_kwargs : option GameKwargs) (rows : list TournamentRow),
  run_tournament math_exp rng proposer_strategies responder_strategies
    rounds_per_game trials_per_match p game_kwargs = Ok rows ->
  map row_labels rows
  = map job_labels
      (tournament_jobs proposer_strategies responder_strategies
         trials_per_match)
  /\ List.length rows
     = ((List.length proposer_strategies * List.length responder_strategies)
        * (List.length proposer_strategies * List.length responder_strategies)
        * trials_per_match)%nat.
Proof.
  intros math_exp rng P R rounds trials p kw rows H.
  pose proof (run_tournament_rows _ _ _ _ _ _ _ _ _ H) as Hall.
  pose proof (rows_labels _ _ _ _ _ _ Hall) as Hmap.
  split; [exact Hmap|].
  rewrite <- (length_map row_labels), Hmap, length_map.
  unfold tournament_jobs. cbn zeta.
  now rewrite !length_prod, length_seq.
Qed.

Lemma tournament_has_one_row_per_trial_witness :
  exists rows,
    run_tournament sample_exp zero_rngs sample_proposers sample_responders
      3 2 (3 # 10) (Some scenario_kwargs) = Ok rows
    /\ List.length rows = 8%nat
    /\ map row_trial rows = [0; 1; 0; 1; 0; 1; 0; 1]%nat.
Proof.
  let t := eval vm_compute in
             (run_tournament sample_exp zero_rngs sample_proposers
                sample_responders 3 2 (3 # 10) (Some scenario_kwargs)) in
  match t with Ok ?x => exists x end.
  match goal with
  | |- run_tournament _ _ _ _ _ _ _ _ = Ok ?x /\ _ =>
      destruct (tournament_has_one_row_per_trial sample_exp zero_rngs
                  sample_proposers sample_responders 3 2 (3 # 10)
                  (Some scenario_kwargs) x)
        as (Hl & Hn); [vm_compute; reflexivity|]
  end.
  split; [vm_compute; reflexivity|]. split; [exact Hn|].
  apply (f_equal (map (fun l => snd l))) in Hl.
  rewrite !map_map in Hl. exact Hl.
Defined.

(** X26.  In every row of a tournament the number of rejections is at
    most the number of rounds of a game; a tournament of games without
    rounds reports no rejection and the utility 0 for both players in
    every row. *)
Theorem tournament_rejections_are_bounded :
  forall (math_exp : Q -> Q) (rng : nat -> nat -> Draws)
         (proposer_strategies : list NamedProposer)
         (responder_strategies : list NamedResponder)
         (rounds_per_game trials_per_match : nat) (p : Q)
         (game_kwargs : option GameKwargs) (rows : list TournamentRow),
  run_tournament math_exp rng proposer_strategies responder_strategies
    rounds_per_game trials_per_match p game_kwargs = Ok rows ->
  forall row,
  In row rows ->
  (row_rejections row <= rounds_per_game)%nat
  /\ (rounds_per_game = 0%nat ->
      row_rejections row = 0%nat
      /\ row_p1_utility row = 0 /\ row_p2_utility row = 0).
Proof.
  intros math_exp rng P R rounds trials p kw rows H row Hin.
  destruct (rows_bounded _ _ _ _ _ _
              (run_tournament_rows _ _ _ _ _ _ _ _ _ H) row Hin)
    as (Hle & Hzero).
  split; [exact Hle|].
  intros E. split; [lia | exact (Hzero E)].
Qed.

Lemma tournament_rejections_are_bounded_witness :
  exists rows row,
    run_tournament sample_exp zero_rngs sample_proposers sample_responders
      3 2 (3 # 10) (Some scenario_kwargs) = Ok rows
    /\ In row rows
    /\ (row_rejections row <= 3)%nat.
Proof.
  let t := eval vm_compute in
             (run_tournament sample_exp zero_rngs sample_proposers
                sample_responders 3 2 (3 # 10) (Some scenario_kwargs)) in
  match t with Ok (?r :: ?l) => exists (r :: l), r end.
  match goal with
  | |- run_tournament _ _ _ _ _ _ _ _ = Ok (?r :: ?l) /\ _ =>
      destruct (tournament_rejections_are_bounded sample_exp zero_rngs
                  sample_proposers sample_responders 3 2 (3 # 10)
                  (Some scenario_kwargs) (r :: l)
                  ltac:(vm_compute; reflexivity) r (or_introl eq_refl))
        as (Hle & _)
  end.
  split; [vm_compute; reflexivity|]. split; [left; reflexivity|].
  exact Hle.
Defined.
